(** * amazonqa: the BiDAF training script and the GloVe lookup utility

    A shallow embedding of
      - [src/lang_models/models/Glove.py] (module [Glove]) and
      - [src/baselines/generative/bidaf/mrcqa/train.py] (module [Train]),
    together with the parts of [dataset.py] and [checkpointing.py] that
    [train.py] calls (modules [Dataset] and [Checkpointing]).

    Python exceptions are values of [exn]; a computation that may raise
    returns a [result].  Dictionaries whose iteration order is observable
    are insertion-ordered association lists ([PyDict]); dictionaries that
    are only looked up are [gmap]s. *)

From Stdlib Require Import ZArith QArith Ascii String.
From stdpp Require Import base option list strings gmap.

Open Scope Z_scope.
Open Scope nat_scope.

(** ** Exceptions and results *)

Inductive exn : Type :=
  | KeyError
  | ValueError
  | IndexError
  | AssertionError
  | TypeError
  | FileNotFoundError
  | UnpicklingError.

Inductive result (A : Type) : Type :=
  | Ok (a : A)
  | Raise (e : exn).
Arguments Ok {A} a.
Arguments Raise {A} e.

#[global] Instance result_ret : MRet result := @Ok.
#[global] Instance result_bind : MBind result := fun A B f r =>
  match r with
  | Ok a => f a
  | Raise e => Raise e
  end.
#[global] Instance result_fmap : FMap result := fun A B f r =>
  match r with
  | Ok a => Ok (f a)
  | Raise e => Raise e
  end.

(** [d[k]] on a dictionary that is only looked up. *)
Definition gmap_getitem {V : Type} (d : gmap string V) (k : string) : result V :=
  match d !! k with
  | Some v => Ok v
  | None => Raise KeyError
  end.

(** ** Glove.py *)

Module Glove.

(** *** [str.split()] and the [re.sub] of [glove_embedding_one_string] *)

(** Code points below 256 for which [str.isspace] holds. *)
Definition is_space (c : ascii) : bool :=
  let n := nat_of_ascii c in
  ((9 <=? n) && (n <=? 13)) || ((28 <=? n) && (n <=? 32))
  || (n =? 133) || (n =? 160).

Fixpoint string_rev_app (s acc : string) : string :=
  match s with
  | EmptyString => acc
  | String c s' => string_rev_app s' (String c acc)
  end.

Definition flush (cur : string) (k : list string) : list string :=
  match cur with
  | EmptyString => k
  | _ => string_rev_app cur EmptyString :: k
  end.

(** [s.split()]: maximal runs of non-space characters, in order.  [cur] is
    the run being read, reversed. *)
Fixpoint split_go (s cur : string) : list string :=
  match s with
  | EmptyString => flush cur []
  | String c s' =>
      if is_space c then flush cur (split_go s' EmptyString)
      else split_go s' (String c cur)
  end.

Definition split (s : string) : list string := split_go s EmptyString.

(** One element of the pattern: a character test, taken once or (greedily)
    at most once. *)
Inductive item : Type :=
  | One (p : ascii -> bool)
  | Maybe (p : ascii -> bool).

(** Length of the match of [its] at the start of [s], if there is one. *)
Fixpoint match_items (its : list item) (s : string) : option nat :=
  match its with
  | [] => Some 0
  | One p :: its' =>
      match s with
      | String c s' => if p c then S <$> match_items its' s' else None
      | EmptyString => None
      end
  | Maybe p :: its' =>
      match s with
      | String c s' =>
          if p c then
            match match_items its' s' with
            | Some n => Some (S n)
            | None => match_items its' s
            end
          else match_items its' s
      | EmptyString => match_items its' s
      end
  end.

Definition chr (n : nat) (c : ascii) : bool := nat_of_ascii c =? n.

(** The bracket expression that opens the pattern, by code point: the
    characters { } ! # ? , . : (double quote) ; @ $ % ^ & * ( ) _ | and the
    opening square bracket, and the range from + to = (43..61), which
    holds the digits. *)
Definition in_class (c : ascii) : bool :=
  let n := nat_of_ascii c in
  existsb (Nat.eqb n)
    [123; 125; 33; 35; 63; 44; 46; 58; 34; 59; 64; 36; 37; 94; 38; 42;
     40; 41; 95; 124; 91]
  || ((43 <=? n) && (n <=? 61)).

(** The pattern of [glove_embedding_one_string]: its bracket expression
    ends at the first closing square bracket, and what follows it is
    matched as a sequence: colon, semicolon, double quote, greater-than,
    an optional slash, less-than, comma, any character but a newline,
    tilde, closing square bracket. *)
Definition pattern : list item :=
  [ One in_class; One (chr 58); One (chr 59); One (chr 34); One (chr 62);
    Maybe (chr 47); One (chr 60); One (chr 44);
    One (fun c => negb (chr 10 c)); One (chr 126); One (chr 93) ].

(** [re.sub(pattern, '', s)]: leftmost non-overlapping matches are
    deleted; [skip] characters of a match are still to be dropped. *)
Fixpoint sub_go (skip : nat) (s : string) : string :=
  match s with
  | EmptyString => EmptyString
  | String c s' =>
      match skip with
      | S k => sub_go k s'
      | O =>
          match match_items pattern s with
          | Some (S k) => sub_go k s'
          | _ => String c (sub_go 0 s')
          end
      end
  end.

Definition re_sub (s : string) : string := sub_go 0 s.

Section Embedding.

(** Array entries are floating-point numbers; nothing is assumed of their
    addition. *)
Variable F : Type.
Variable fzero : F.
Variable fadd : F -> F -> F.

(** The arrays that occur: a scalar, a vector, and a matrix that carries
    its shape ([np.zeros((n, l))] has [l] columns also when [n = 0]). *)
Inductive ndarray : Type :=
  | Scalar (x : F)
  | Arr1 (v : list F)
  | Arr2 (nrows ncols : nat) (rows : list (list F)).

(** [np.sum(np.array(temp), axis=0)] for a list of vectors: the scalar 0
    for the empty list, the column sums when all vectors have one length,
    and, for a ragged list, the [ValueError] with which [np.array] refuses
    it. *)
Definition np_sum_axis0 (temp : list (list F)) : result ndarray :=
  match temp with
  | [] => Ok (Scalar fzero)
  | v :: vs =>
      if forallb (fun w => length w =? length v) vs
      then Ok (Arr1 (foldl (zip_with fadd) v vs))
      else Raise ValueError
  end.

Definition glove_embedding_one_string (s : string)
    (pretrained_glove : gmap string (list F)) : result ndarray :=
  let words := split s in
  let new_words := re_sub <$> words in
  let temp := omap (fun i => pretrained_glove !! i) new_words in
  np_sum_axis0 temp.

(** [temp[t] = x] for a row of [l] columns: a scalar or a one-element
    vector is broadcast, a vector of length [l] is copied, any other shape
    is a [ValueError]. *)
Definition broadcast_row (l : nat) (x : ndarray) : result (list F) :=
  match x with
  | Scalar a => Ok (replicate l a)
  | Arr1 v =>
      if length v =? l then Ok v
      else match v with
           | [a] => Ok (replicate l a)
           | _ => Raise ValueError
           end
  | Arr2 _ _ _ => Raise ValueError
  end.

(** The loop of [embedding]: [t] is the row written next. *)
Fixpoint embedding_loop (l : nat) (strings : list string)
    (pretrained_glove : gmap string (list F))
    (t : nat) (temp : list (list F)) : result (list (list F)) :=
  match strings with
  | [] => Ok temp
  | i :: rest =>
      x ← glove_embedding_one_string i pretrained_glove;
      row ← broadcast_row l x;
      embedding_loop l rest pretrained_glove (S t) (<[t := row]> temp)
  end.

Definition embedding (strings : list string)
    (pretrained_glove : gmap string (list F)) : result ndarray :=
  let n := length strings in
  a ← gmap_getitem pretrained_glove "a";
  let l := length a in
  let temp := replicate n (replicate l fzero) in
  rows ← embedding_loop l strings pretrained_glove 0 temp;
  Ok (Arr2 n l rows).

(** A matrix whose rows agree with its recorded shape. *)
Definition well_shaped (a : ndarray) : Prop :=
  match a with
  | Arr2 n l rows => length rows = n ∧ Forall (fun r => length r = l) rows
  | _ => True
  end.

Definition ncols (a : ndarray) : option nat :=
  match a with
  | Arr2 _ l _ => Some l
  | _ => None
  end.

End Embedding.

Arguments Scalar {F} x.
Arguments Arr1 {F} v.
Arguments Arr2 {F} nrows ncols rows.

(** *** The two loaders of the embedding file *)

Section Loading.

(** [float(val)]: the number read, or nothing when Python raises
    [ValueError]. *)
Variable F : Type.
Variable float : string -> option F.

(** [s.replace("'", "")] *)
Fixpoint remove_apostrophes (s : string) : string :=
  match s with
  | EmptyString => EmptyString
  | String c s' =>
      if chr 39 c then remove_apostrophes s'
      else String c (remove_apostrophes s')
  end.

(** [[float(val) for val in vals]] *)
Fixpoint floats (vals : list string) : result (list F) :=
  match vals with
  | [] => Ok []
  | val :: rest =>
      match float val with
      | Some x => xs ← floats rest; Ok (x :: xs)
      | None => Raise ValueError
      end
  end.

(** The loop of [loadGloveModel] over the lines of the file. *)
Fixpoint loadGloveModel_loop (lines : list string)
    (model : gmap string (list F)) : result (gmap string (list F)) :=
  match lines with
  | [] => Ok model
  | line :: rest =>
      match split line with
      | [] => Raise IndexError
      | first :: vals =>
          let word := remove_apostrophes first in
          embedding ← floats vals;
          loadGloveModel_loop rest (<[word := embedding]> model)
      end
  end.

Definition loadGloveModel (glove_file : option (list string))
    : result (gmap string (list F)) :=
  match glove_file with
  | None => Raise FileNotFoundError
  | Some lines => loadGloveModel_loop lines ∅
  end.

(** The loop of [load_index_dic]; [dic] is the list built so far. *)
Fixpoint load_index_dic_loop (lines : list string) (dic : list string)
    : result (list string) :=
  match lines with
  | [] => Ok dic
  | line :: rest =>
      match split line with
      | [] => Raise IndexError
      | first :: _ => load_index_dic_loop rest (dic ++ [first])
      end
  end.

Definition load_index_dic (glove_file : option (list string))
    : result (list string) :=
  match glove_file with
  | None => Raise FileNotFoundError
  | Some lines => load_index_dic_loop lines []
  end.

End Loading.

End Glove.

(** ** Python dictionaries with their insertion order *)

Module PyDict.

Abbreviation dict K V := (list (K * V)).

Section Dict.
Context {K V : Type} `{!EqDecision K}.

(** [d.get(k)] *)
Fixpoint get (d : dict K V) (k : K) : option V :=
  match d with
  | [] => None
  | (k', v) :: r => if decide (k = k') then Some v else get r k
  end.

(** [d[k] = v]: an existing key keeps its place. *)
Fixpoint set (d : dict K V) (k : K) (v : V) : dict K V :=
  match d with
  | [] => [(k, v)]
  | (k', v') :: r =>
      if decide (k = k') then (k, v) :: r else (k', v') :: set r k v
  end.

(** [d[k]] *)
Definition getitem (d : dict K V) (k : K) : result V :=
  match get d k with
  | Some v => Ok v
  | None => Raise KeyError
  end.

End Dict.

(** [{v: k for k, v in d.items()}] *)
Definition inverted {K V : Type} `{!EqDecision V} (d : dict K V) : dict V K :=
  foldl (fun acc kv => set acc kv.2 kv.1) [] d.

End PyDict.

Import PyDict.

(** ** What the script takes from numpy, torch and the modules of the
    repository that define the network and the tokenizer *)

(** Hyper-parameters of [optim.Adam]; the literals of the script are
    rationals. *)
Record Hyper : Type := {
  hp_lr : Q;
  hp_betas : Q * Q;
  hp_eps : Q;
  hp_weight_decay : Q
}.

Class Framework : Type := {
  (** a row of an embedding matrix *)
  Vec : Type;
  (** the parameters of the network other than the token embeddings *)
  Params : Type;
  (** the moment estimates of [optim.Adam], and those of a new optimizer *)
  AdamState : Type;
  adam_empty : AdamState;
  (** torch's global generator *)
  TorchRng : Type;
  (** a numpy generator, [np.random.RandomState(seed)], a draw below a
      bound, and a draw from the multivariate normal distribution *)
  NpRng : Type;
  np_RandomState : Z -> NpRng;
  np_randint : NpRng -> nat -> nat * NpRng;
  (** a mean vector with a covariance *)
  Stats : Type;
  norm_stats : list Vec -> bool -> Stats;
  multivariate_normal : Stats -> bool -> NpRng -> Vec * NpRng;
  (** dataset.py: the parsed data file, its records and the tokenized
      examples; [tokenize_data] updates the two vocabularies it is given *)
  RawData : Type;
  DataRecord : Type;
  Example : Type;
  load_data : RawData -> list DataRecord;
  tokenize_data : list DataRecord -> dict string nat -> dict string nat ->
                  option nat ->
                  list Example * dict string nat * dict string nat;
  (** constants.py *)
  SOS_TOKEN : string;
  EOS_TOKEN : string;
  (** bidaf.py: the architecture block of the configuration and the
      randomly initialised parameters of [BidafModel.from_config] *)
  BidafConfig : Type;
  from_config : BidafConfig -> dict nat string -> dict nat string ->
                nat -> nat -> TorchRng -> list Vec * Params * TorchRng;
  (** forward pass, loss, backward pass and [optimizer.step()] on a batch *)
  train_batch : list Vec * Params -> Hyper * AdamState -> list Example ->
                Q -> TorchRng -> list Vec * Params * AdamState * TorchRng
}.

(** ** dataset.py: the batch generator and the embedding sources *)

Module Dataset.

Section Batches.
Context `{FW : Framework} {A : Type}.

(** Modelled from the spec: the shuffle of [EpochGen], which draws from
    the process-wide random source.  An element of [l] is drawn at random,
    [n] times over, and removed; with [n = length l] this is a shuffle of
    [l]. *)
Fixpoint draw_all (n : nat) (g : NpRng) (l : list A) : list A * NpRng :=
  match n with
  | O => ([], g)
  | S n' =>
      let '(r, g1) := np_randint g (length l) in
      let i := r mod length l in
      match l !! i with
      | Some x =>
          let '(rest, g2) := draw_all n' g1 (delete i l) in
          (x :: rest, g2)
      | None => ([], g1)
      end
  end.

Definition shuffle (g : NpRng) (l : list A) : list A * NpRng :=
  draw_all (length l) g l.

(** Modelled from the spec: the slicing of [EpochGen] into consecutive
    groups of [size] elements; the last one may be short. *)
Fixpoint slices (fuel size : nat) (l : list A) : list (list A) :=
  match fuel with
  | O => []
  | S fuel' =>
      match l with
      | [] => []
      | _ => take size l :: slices fuel' size (drop size l)
      end
  end.

End Batches.

Section Sources.
Context `{FW : Framework}.

(** Modelled from the spec: the class [EpochGen] of dataset.py, a
    restartable sequence of batches over the tokenized examples. *)
Record EpochGen : Type := {
  eg_data : list Example;
  eg_batch_size : nat;
  eg_shuffle : bool;
  eg_cuda_tensors : bool
}.

(** Modelled from the spec: one iteration over an [EpochGen] (its
    [__iter__], absent from the sources).  Each epoch the full example
    collection is shuffled with the process-wide random source and then
    sliced into consecutive groups of the configured batch size; for a
    batch size of 0 the spec defines no group. *)
Definition batches (eg : EpochGen) (g : NpRng) : list (list Example) * NpRng :=
  let '(order, g') :=
    if eg_shuffle eg then shuffle g (eg_data eg) else (eg_data eg, g) in
  match eg_batch_size eg with
  | O => ([], g')
  | S _ => (slices (length order) (eg_batch_size eg) order, g')
  end.

(** Modelled from the spec: [SymbolEmbSourceText] of dataset.py.  Each
    line of the file is a token followed by its components; the lookup
    built from it is restricted to the given token set. *)
Definition SymbolEmbSourceText (lines : list (string * Vec))
    (symbols : gset string) : dict string Vec :=
  foldl (fun acc line =>
           if decide (line.1 ∈ symbols) then set acc line.1 line.2 else acc)
        [] lines.

(** Modelled from the spec: [SymbolEmbSourceText.get_norm_stats], the
    empirical mean and covariance (diagonal or full) of the loaded
    vectors. *)
Definition get_norm_stats (pre_trained : dict string Vec)
    (use_covariance : bool) : Stats :=
  norm_stats (pre_trained.*2) use_covariance.

(** Modelled from the spec: [SymbolEmbSourceNorm] of dataset.py, the
    statistical fallback.  It owns the generator it is given and draws
    each vector from the multivariate normal distribution of the given
    mean and covariance. *)
Record SymbolEmbSourceNorm : Type := {
  norm_stats_of : Stats;
  norm_rng : NpRng;
  norm_use_covariance : bool
}.

(** Modelled from the spec: one vector of the statistical fallback; the
    generator of the source moves on. *)
Definition fallback (oovs : SymbolEmbSourceNorm) : Vec * SymbolEmbSourceNorm :=
  let '(v, g) := multivariate_normal (norm_stats_of oovs)
                   (norm_use_covariance oovs) (norm_rng oovs) in
  (v, {| norm_stats_of := norm_stats_of oovs;
         norm_rng := g;
         norm_use_covariance := norm_use_covariance oovs |}).

(** Modelled from the spec: [symbol_injection] of dataset.py.  For every
    token of the vocabulary, in its order, excluding the reserved id, the
    row of the token is replaced by its vector in the text source or, if
    the source has none, by a freshly drawn statistical vector.  A row
    outside the matrix is an [IndexError]. *)
Fixpoint symbol_injection (id_to_symb : dict nat string) (reserved : nat)
    (embedding : list Vec) (pre_trained : dict string Vec)
    (oovs : SymbolEmbSourceNorm)
    : result (list Vec * SymbolEmbSourceNorm) :=
  match id_to_symb with
  | [] => Ok (embedding, oovs)
  | (id_, symb) :: rest =>
      if decide (id_ = reserved)
      then symbol_injection rest reserved embedding pre_trained oovs
      else if decide (id_ < length embedding) then
        match get pre_trained symb with
        | Some v =>
            symbol_injection rest reserved (<[id_ := v]> embedding)
              pre_trained oovs
        | None =>
            let '(v, oovs') := fallback oovs in
            symbol_injection rest reserved (<[id_ := v]> embedding)
              pre_trained oovs'
        end
      else Raise IndexError
  end.

End Sources.

End Dataset.

(** ** The experiment folder and the other files the script reads *)

Section Files.
Context `{FW : Framework}.

(** A dataset of the HDF5 checkpoint file. *)
Inductive H5Dataset : Type :=
  | H5Vocab (id_to_symb : dict nat string)
  | H5Scalar (z : Z)
  | H5Weights (embeddings : list Vec) (others : Params).

(** What [optimizer.state_dict()] holds: the parameter groups with their
    hyper-parameters, and the state. *)
Record TrainingState : Type := {
  sd_param_groups : Hyper;
  sd_state : AdamState
}.

(** The file [checkpoint.opt] as [torch.load] finds it: not there, a
    pickled optimizer state, or a file that cannot be read back. *)
Inductive OptFile : Type :=
  | OptAbsent
  | OptSaved (state : TrainingState)
  | OptUnreadable.

Record TrainingConfig : Type := {
  cfg_lr : option Q;
  cfg_betas : option (Q * Q);
  cfg_eps : option Q;
  cfg_weight_decay : option Q;
  cfg_batch_size : option nat;
  cfg_epochs : option Z;
  cfg_teacher_forcing_ratio : option Q;
  cfg_limit : option nat
}.

Record Config : Type := {
  cfg_training : option TrainingConfig;
  cfg_bidaf : option BidafConfig
}.

Record Args : Type := {
  arg_force_restart : bool;
  arg_word_rep : option string;
  arg_cuda : bool;
  arg_use_covariance : bool
}.

(** The files under [args.exp_folder], the files at [args.data] and
    [args.word_rep], the process-wide generators and the GPU. *)
Record World : Type := {
  config_yaml : option Config;
  checkpoint_file : option (gmap string H5Dataset);
  checkpoint_opt : OptFile;
  data_file : option RawData;
  word_rep_file : option (list (string * Vec));
  np_random : NpRng;
  torch_random : TorchRng;
  cuda_is_available : bool
}.

Definition with_checkpoint (w : World) (f : gmap string H5Dataset)
    (o : OptFile) : World :=
  {| config_yaml := config_yaml w;
     checkpoint_file := Some f;
     checkpoint_opt := o;
     data_file := data_file w;
     word_rep_file := word_rep_file w;
     np_random := np_random w;
     torch_random := torch_random w;
     cuda_is_available := cuda_is_available w |}.

Definition with_random (w : World) (g : NpRng) (t : TorchRng) : World :=
  {| config_yaml := config_yaml w;
     checkpoint_file := checkpoint_file w;
     checkpoint_opt := checkpoint_opt w;
     data_file := data_file w;
     word_rep_file := word_rep_file w;
     np_random := g;
     torch_random := t;
     cuda_is_available := cuda_is_available w |}.

(** [open(path)] on a file that may be missing. *)
Definition open {A : Type} (file : option A) : result A :=
  match file with
  | Some a => Ok a
  | None => Raise FileNotFoundError
  end.

(** [d[key]] on the parsed configuration. *)
Definition open_key {A : Type} (entry : option A) : result A :=
  match entry with
  | Some a => Ok a
  | None => Raise KeyError
  end.

(** [h5py.File(path)] in its append mode: the file as it is, or a new
    empty one. *)
Definition h5py_File (w : World) : gmap string H5Dataset :=
  default ∅ (checkpoint_file w).

(** The network: its token embeddings, its other parameters, and the
    flags set by [model.cuda()] and [model.train()]. *)
Record BidafModel : Type := {
  embeddings_weight : list Vec;
  other_params : Params;
  on_cuda : bool;
  in_training_mode : bool
}.

Definition cuda (m : BidafModel) : BidafModel :=
  {| embeddings_weight := embeddings_weight m;
     other_params := other_params m;
     on_cuda := true;
     in_training_mode := in_training_mode m |}.

Definition train_mode (m : BidafModel) : BidafModel :=
  {| embeddings_weight := embeddings_weight m;
     other_params := other_params m;
     on_cuda := on_cuda m;
     in_training_mode := true |}.

Definition with_embeddings (m : BidafModel) (e : list Vec) : BidafModel :=
  {| embeddings_weight := e;
     other_params := other_params m;
     on_cuda := on_cuda m;
     in_training_mode := in_training_mode m |}.

(** [optim.Adam]: a new optimizer has no history; [load_state_dict]
    replaces the parameter groups and the state by the saved ones. *)
Record Optimizer : Type := {
  opt_param_groups : Hyper;
  opt_state : AdamState
}.

Definition Adam (lr : Q) (betas : Q * Q) (eps weight_decay : Q) : Optimizer :=
  {| opt_param_groups := {| hp_lr := lr; hp_betas := betas; hp_eps := eps;
                            hp_weight_decay := weight_decay |};
     opt_state := adam_empty |}.

Definition load_state_dict (o : Optimizer) (s : TrainingState) : Optimizer :=
  {| opt_param_groups := sd_param_groups s; opt_state := sd_state s |}.

Definition state_dict (o : Optimizer) : TrainingState :=
  {| sd_param_groups := opt_param_groups o; sd_state := opt_state o |}.

End Files.

(** ** checkpointing.py and the loader of bidaf.py *)

Module Checkpointing.
Section Checkpointing.
Context `{FW : Framework}.

(** Modelled from the spec: [save_vocab] of checkpointing.py, which
    persists a vocabulary (an id to symbol mapping) under [path]. *)
Definition save_vocab (checkpoint : gmap string H5Dataset) (path : string)
    (id_to_symb : dict nat string) : gmap string H5Dataset :=
  <[path := H5Vocab id_to_symb]> checkpoint.

(** Modelled from the spec: [checkpoint] of checkpointing.py.  In one step
    it persists the model weights and the epoch number in the training
    group of the checkpoint file, and the optimizer state in the separate
    file [checkpoint.opt]. *)
Definition checkpoint (model : BidafModel) (epoch : Z) (optimizer : Optimizer)
    (w : World) : World :=
  with_checkpoint w
    (<["training/epoch" := H5Scalar epoch]>
       (<["training/model" :=
            H5Weights (embeddings_weight model) (other_params model)]>
          (h5py_File w)))
    (OptSaved (state_dict optimizer)).

(** Modelled from the spec: the vocabulary persisted under [path]. *)
Definition read_vocab (checkpoint : gmap string H5Dataset) (path : string)
    : result (dict nat string) :=
  d ← gmap_getitem checkpoint path;
  match d with
  | H5Vocab v => Ok v
  | _ => Raise TypeError
  end.

(** Modelled from the spec: [BidafModel.from_checkpoint] of bidaf.py,
    which loads the model and the two vocabularies from the last
    checkpoint. *)
Definition from_checkpoint (config : BidafConfig)
    (checkpoint : gmap string H5Dataset)
    : result (BidafModel * dict nat string * dict nat string) :=
  id_to_token ← read_vocab checkpoint "vocab";
  id_to_char ← read_vocab checkpoint "c_vocab";
  d ← gmap_getitem checkpoint "training/model";
  match d with
  | H5Weights e p =>
      Ok ({| embeddings_weight := e; other_params := p;
             on_cuda := false; in_training_mode := true |},
          id_to_token, id_to_char)
  | _ => Raise TypeError
  end.

End Checkpointing.
End Checkpointing.

(** ** train.py *)

Module Train.
Section Train.
Context `{FW : Framework}.

Import Dataset Checkpointing.

(** [checkpoint['training/epoch'][()]] *)
Definition read_epoch (checkpoint : gmap string H5Dataset) : result Z :=
  d ← gmap_getitem checkpoint "training/epoch";
  match d with
  | H5Scalar z => Ok z
  | _ => Raise TypeError
  end.

Definition try_to_resume (force_restart : bool) (w : World)
    : result (option (gmap string H5Dataset) * option TrainingState * Z) :=
  if force_restart then Ok (None, None, 0%Z)
  else
    match checkpoint_file w with
    | Some _ =>
        let checkpoint := h5py_File w in
        e ← read_epoch checkpoint;
        let epoch := (e + 1)%Z in
        training_state ←
          match checkpoint_opt w with
          | OptSaved s => Ok (Some s)
          | OptAbsent => Ok None
          | OptUnreadable => Raise UnpicklingError
          end;
        Ok (Some checkpoint, training_state, epoch)
    | None => Ok (None, None, 0%Z)
    end.

(** [config['training']] and [config.get('training', {})] *)
Definition training_section (config : Config) : result TrainingConfig :=
  match cfg_training config with
  | Some t => Ok t
  | None => Raise KeyError
  end.

Definition training_get {A : Type} (config : Config)
    (key : TrainingConfig -> option A) : option A :=
  cfg_training config ≫= key.

(** The optimizer is created over the parameters of [model] that require
    a gradient; the parameters themselves are updated by [train_batch]. *)
Definition get_optimizer (model : BidafModel) (config : Config)
    (state : option TrainingState) : result Optimizer :=
  t ← training_section config;
  let optimizer :=
    Adam (default (1 # 100)%Q (cfg_lr t))
         (default ((9 # 10)%Q, (999 # 1000)%Q) (cfg_betas t))
         (default (1 # 100000000)%Q (cfg_eps t))
         (default 0%Q (cfg_weight_decay t)) in
  Ok (match state with
      | Some s => load_state_dict optimizer s
      | None => optimizer
      end).

Definition get_loader (data : list Example) (config : Config) : EpochGen :=
  {| eg_data := data;
     eg_batch_size := default 32 (training_get config cfg_batch_size);
     eg_shuffle := true;
     eg_cuda_tensors := false |}.

Definition use_cuda (args : Args) (w : World) : bool :=
  cuda_is_available w && arg_cuda args.

Definition assert (b : bool) : result () :=
  if b then Ok () else Raise AssertionError.

Definition reload_state (checkpoint : gmap string H5Dataset)
    (training_state : option TrainingState) (config : Config) (args : Args)
    (w : World)
    : result (BidafModel * dict nat string * dict nat string
              * Optimizer * EpochGen) :=
  bidaf ← open_key (cfg_bidaf config);
  '(model, id_to_token, id_to_char) ← from_checkpoint bidaf checkpoint;
  let model := if use_cuda args w then cuda model else model in
  let model := train_mode model in
  optimizer ← get_optimizer model config training_state;
  let token_to_id := inverted id_to_token in
  let char_to_id := inverted id_to_char in
  let len_tok_voc := length token_to_id in
  let len_char_voc := length char_to_id in
  raw ← open (data_file w);
  let data := load_data raw in
  let limit_passage := training_get config cfg_limit in
  let '(data, token_to_id, char_to_id) :=
    tokenize_data data token_to_id char_to_id limit_passage in
  let data := get_loader data config in
  _ ← assert (length token_to_id =? len_tok_voc);
  _ ← assert (length char_to_id =? len_char_voc);
  Ok (model, id_to_token, id_to_char, optimizer, data).

(** Lines 125 to 141 of [init_state]: the token embeddings after the
    injection of the pre-trained vectors, when [--word_rep] is given. *)
Definition inject_word_rep (args : Args) (w : World)
    (id_to_token : dict nat string) (weight : list Vec)
    : result (list Vec) :=
  match arg_word_rep args with
  | None | Some EmptyString => Ok weight
  | Some _ =>
      lines ← open (word_rep_file w);
      let pre_trained :=
        SymbolEmbSourceText lines
          (list_to_set (filter (fun kv => kv.1 ≠ 0) id_to_token).*2) in
      let stats := get_norm_stats pre_trained (arg_use_covariance args) in
      let rng := np_RandomState 2 in
      let oovs := {| norm_stats_of := stats; norm_rng := rng;
                     norm_use_covariance := arg_use_covariance args |} in
      r ← symbol_injection id_to_token 0 weight pre_trained oovs;
      Ok r.1
  end.

Definition init_state (config : Config) (args : Args) (w : World)
    : result (BidafModel * dict nat string * dict nat string
              * Optimizer * EpochGen * TorchRng) :=
  let token_to_id := [(EmptyString, 0)] in
  let char_to_id := [(EmptyString, 0)] in
  raw ← open (data_file w);
  let data := load_data raw in
  let '(data, token_to_id, char_to_id) :=
    tokenize_data data token_to_id char_to_id None in
  let data := get_loader data config in
  let id_to_token := inverted token_to_id in
  let id_to_char := inverted char_to_id in
  sos_id ← getitem token_to_id SOS_TOKEN;
  eos_id ← getitem token_to_id EOS_TOKEN;
  bidaf ← open_key (cfg_bidaf config);
  let '(weight, others, torch') :=
    from_config bidaf id_to_token id_to_char sos_id eos_id (torch_random w) in
  weight ← inject_word_rep args w id_to_token weight;
  let model := {| embeddings_weight := weight; other_params := others;
                  on_cuda := false; in_training_mode := true |} in
  let model := if use_cuda args w then cuda model else model in
  let model := train_mode model in
  optimizer ← get_optimizer model config None;
  Ok (model, id_to_token, id_to_char, optimizer, data, torch').

(** *** The epoch loop of [main] as a machine *)

(** [range(epoch, train_for_epochs)] and [itertools.count(epoch)] *)
Inductive epochs_iter : Type :=
  | range (start stop : Z)
  | count (start : Z).

Definition next (it : epochs_iter) : option (Z * epochs_iter) :=
  match it with
  | range a b => if (a <? b)%Z then Some (a, range (a + 1) b) else None
  | count a => Some (a, count (a + 1))
  end.

(** What the logger is told at the two ends of an epoch, and the
    optimizer steps taken.  The running loss and the lines logged every
    hundredth batch play no part in what follows and are left out. *)
Inductive event : Type :=
  | StartingEpoch (epoch : Z)
  | TrainStep (epoch : Z) (batch_id : nat)
  | EndOfEpoch (epoch : Z).

(** Where the loop stands: between two epochs, inside [train] with the
    batches still to come, or after [return]. *)
Inductive pc : Type :=
  | LoopHead
  | InTrain (epoch : Z) (batch_id : nat) (pending : list (list Example))
  | Returned.

Record Machine : Type := {
  m_pc : pc;
  m_epochs : epochs_iter;
  m_model : BidafModel;
  m_optimizer : Optimizer;
  m_id_to_token : dict nat string;
  m_id_to_char : dict nat string;
  m_data : EpochGen;
  m_teacher_forcing_ratio : Q;
  m_world : World;
  m_log : list event
}.

(** The body of the [for] loop of [train] on one batch. *)
Definition train_on (m : Machine) (epoch : Z) (batch_id : nat)
    (batch : list Example) (pending : list (list Example)) : Machine :=
  let model := m_model m in
  let optimizer := m_optimizer m in
  let w := m_world m in
  let '(weight, others, state, torch') :=
    train_batch (embeddings_weight model, other_params model)
      (opt_param_groups optimizer, opt_state optimizer) batch
      (m_teacher_forcing_ratio m) (torch_random w) in
  {| m_pc := InTrain epoch (S batch_id) pending;
     m_epochs := m_epochs m;
     m_model := {| embeddings_weight := weight; other_params := others;
                   on_cuda := on_cuda model;
                   in_training_mode := in_training_mode model |};
     m_optimizer := {| opt_param_groups := opt_param_groups optimizer;
                       opt_state := state |};
     m_id_to_token := m_id_to_token m;
     m_id_to_char := m_id_to_char m;
     m_data := m_data m;
     m_teacher_forcing_ratio := m_teacher_forcing_ratio m;
     m_world := with_random w (np_random w) torch';
     m_log := m_log m ++ [TrainStep epoch batch_id] |}.

Definition goto (m : Machine) (p : pc) (it : epochs_iter) (w : World)
    (events : list event) : Machine :=
  {| m_pc := p;
     m_epochs := it;
     m_model := m_model m;
     m_optimizer := m_optimizer m;
     m_id_to_token := m_id_to_token m;
     m_id_to_char := m_id_to_char m;
     m_data := m_data m;
     m_teacher_forcing_ratio := m_teacher_forcing_ratio m;
     m_world := w;
     m_log := m_log m ++ events |}.

(** One step of lines 239 to 247: enter the next epoch (the generator
    shuffles and slices), train on one batch, or, the batches exhausted,
    checkpoint the epoch and return to the head of the loop. *)
Definition step (m : Machine) : option Machine :=
  match m_pc m with
  | LoopHead =>
      match next (m_epochs m) with
      | Some (epoch, it) =>
          let w := m_world m in
          let '(bs, g) := batches (m_data m) (np_random w) in
          Some (goto m (InTrain epoch 0 bs) it
                  (with_random w g (torch_random w)) [StartingEpoch epoch])
      | None => Some (goto m Returned (m_epochs m) (m_world m) [])
      end
  | InTrain epoch batch_id (batch :: pending) =>
      Some (train_on m epoch batch_id batch pending)
  | InTrain epoch batch_id [] =>
      Some (goto m LoopHead (m_epochs m)
              (checkpoint (m_model m) epoch (m_optimizer m) (m_world m))
              [EndOfEpoch epoch])
  | Returned => None
  end.

(** At most [n] steps; a machine that has returned stays as it is. *)
Fixpoint exec (n : nat) (m : Machine) : Machine :=
  match n with
  | O => m
  | S n' =>
      match step m with
      | Some m' => exec n' m'
      | None => m
      end
  end.

(** Lines 231 to 236 of [main]. *)
Definition epochs_from (config : Config) (epoch : Z) : epochs_iter :=
  match training_get config cfg_epochs with
  | Some train_for_epochs => range epoch train_for_epochs
  | None => count epoch
  end.

(** [main] up to the epoch loop. *)
Definition main_setup (args : Args) (w : World) : result Machine :=
  config ← open (config_yaml w);
  '(checkpoint, training_state, epoch) ←
    try_to_resume (arg_force_restart args) w;
  '(model, id_to_token, id_to_char, optimizer, data, w) ←
    match checkpoint with
    | Some checkpoint =>
        '(model, id_to_token, id_to_char, optimizer, data) ←
          reload_state checkpoint training_state config args w;
        Ok (model, id_to_token, id_to_char, optimizer, data, w)
    | None =>
        '(model, id_to_token, id_to_char, optimizer, data, torch') ←
          init_state config args w;
        let checkpoint := h5py_File w in
        let checkpoint := save_vocab checkpoint "vocab" id_to_token in
        let checkpoint := save_vocab checkpoint "c_vocab" id_to_char in
        Ok (model, id_to_token, id_to_char, optimizer, data,
            with_random (with_checkpoint w checkpoint (checkpoint_opt w))
              (np_random w) torch')
    end;
  let data :=
    if use_cuda args w
    then {| eg_data := eg_data data; eg_batch_size := eg_batch_size data;
            eg_shuffle := eg_shuffle data; eg_cuda_tensors := true |}
    else data in
  let teacher_forcing_ratio :=
    default 1%Q (training_get config cfg_teacher_forcing_ratio) in
  Ok {| m_pc := LoopHead;
        m_epochs := epochs_from config epoch;
        m_model := model;
        m_optimizer := optimizer;
        m_id_to_token := id_to_token;
        m_id_to_char := id_to_char;
        m_data := data;
        m_teacher_forcing_ratio := teacher_forcing_ratio;
        m_world := w;
        m_log := [] |}.

(** [main], for at most [fuel] steps of its loop. *)
Definition main (fuel : nat) (args : Args) (w : World) : result Machine :=
  exec fuel <$> main_setup args w.

End Train.
End Train.

(** ** A small instance, to run the definitions on concrete inputs *)

Module Toy.

(** [vocab.setdefault(token, len(vocab))] *)
Definition setdefault (vocab : dict string nat) (token : string)
    : nat * dict string nat :=
  match get vocab token with
  | Some i => (i, vocab)
  | None => (length vocab, vocab ++ [(token, length vocab)])
  end.

Fixpoint tokenize_chars (s : string) (c_vocab : dict string nat)
    : dict string nat :=
  match s with
  | EmptyString => c_vocab
  | String c s' => tokenize_chars s' (setdefault c_vocab (String c EmptyString)).2
  end.

Fixpoint tokenize_words (words : list string)
    (vocab c_vocab : dict string nat)
    : list nat * dict string nat * dict string nat :=
  match words with
  | [] => ([], vocab, c_vocab)
  | word :: rest =>
      let '(i, vocab) := setdefault vocab word in
      let c_vocab := tokenize_chars word c_vocab in
      let '(ids, vocab, c_vocab) := tokenize_words rest vocab c_vocab in
      (i :: ids, vocab, c_vocab)
  end.

Definition over_limit (limit : option nat) (record : list string) : bool :=
  match limit with
  | Some n => n <? length record
  | None => false
  end.

Fixpoint tokenize_records (data : list (list string))
    (vocab c_vocab : dict string nat) (limit : option nat)
    : list (list nat) * dict string nat * dict string nat :=
  match data with
  | [] => ([], vocab, c_vocab)
  | record :: rest =>
      if over_limit limit record
      then tokenize_records rest vocab c_vocab limit
      else
        let '(ids, vocab, c_vocab) := tokenize_words record vocab c_vocab in
        let '(exs, vocab, c_vocab) :=
          tokenize_records rest vocab c_vocab limit in
        (ids :: exs, vocab, c_vocab)
  end.

(** Modelled from the spec: the vocabulary builder behind [tokenize_data]
    of dataset.py.  The sentinel tokens are registered first; then every
    token and character not seen before gets the next free id, in the
    order of first appearance. *)
Definition toy_tokenize (data : list (list string))
    (vocab c_vocab : dict string nat) (limit : option nat)
    : list (list nat) * dict string nat * dict string nat :=
  let vocab := (setdefault vocab "<sos>").2 in
  let vocab := (setdefault vocab "<eos>").2 in
  tokenize_records data vocab c_vocab limit.

(** A vocabulary as the builder keeps it: no token twice, and the ids are
    the positions. *)
Definition well_formed (vocab : dict string nat) : Prop :=
  NoDup vocab.*1 ∧ vocab.*2 = seq 0 (length vocab).

(** The token has an id. *)
Definition known (vocab : dict string nat) (token : string) : Prop :=
  is_Some (get vocab token).

(** [vocab] extended at its end. *)
Definition extends (vocab vocab' : dict string nat) : Prop :=
  ∃ more, vocab' = vocab ++ more.

(** The characters of a word have ids. *)
Definition chars_known (c_vocab : dict string nat) (s : string) : Prop :=
  ∀ c, In c (list_ascii_of_string s) → known c_vocab (String c EmptyString).

(** All words of a record, and all their characters, are in the
    vocabularies. *)
Definition words_known (vocab c_vocab : dict string nat)
    (words : list string) : Prop :=
  Forall (fun word => known vocab word ∧ chars_known c_vocab word) words.

#[local] Instance toy : Framework := {|
  Vec := list Z;
  Params := Z;
  AdamState := nat;
  adam_empty := 0;
  TorchRng := nat;
  NpRng := nat;
  np_RandomState := Z.to_nat;
  np_randint := fun g bound => (g, S g);
  Stats := unit;
  norm_stats := fun _ _ => tt;
  multivariate_normal := fun _ _ g => ([Z.of_nat g], S g);
  RawData := list (list string);
  DataRecord := list string;
  Example := list nat;
  load_data := fun raw => raw;
  tokenize_data := toy_tokenize;
  SOS_TOKEN := "<sos>";
  EOS_TOKEN := "<eos>";
  BidafConfig := unit;
  from_config := fun _ id_to_token _ _ _ t =>
    (replicate (length id_to_token) [Z.of_nat t], 0%Z, S t);
  train_batch := fun wp hs batch _ t =>
    (wp.1, (wp.2 + Z.of_nat (length batch))%Z, S hs.2, S t)
|}.

Definition training_for (epochs : option Z) (batch_size : option nat)
    : TrainingConfig :=
  {| cfg_lr := None; cfg_betas := None; cfg_eps := None;
     cfg_weight_decay := None; cfg_batch_size := batch_size;
     cfg_epochs := epochs; cfg_teacher_forcing_ratio := None;
     cfg_limit := None |}.

Definition config_for (epochs : option Z) (batch_size : option nat) : Config :=
  {| cfg_training := Some (training_for epochs batch_size);
     cfg_bidaf := Some tt |}.

Definition corpus : list (list string) :=
  [["who"; "is"; "it"]; ["it"; "is"; "me"]; ["me"]].

(** The token vocabulary of the corpus. *)
Definition vocabulary : dict nat string :=
  [(0, ""); (1, "<sos>"); (2, "<eos>"); (3, "who"); (4, "is"); (5, "it");
   (6, "me")].

(** An experiment folder with a configuration and no checkpoint. *)
Definition fresh_world (epochs : option Z) : World :=
  {| config_yaml := Some (config_for epochs (Some 2));
     checkpoint_file := None;
     checkpoint_opt := OptAbsent;
     data_file := Some corpus;
     word_rep_file := Some [("is", [5; 5]%Z); ("me", [6; 6]%Z)];
     np_random := 1;
     torch_random := 10;
     cuda_is_available := false |}.

Definition plain_args : Args :=
  {| arg_force_restart := false; arg_word_rep := None;
     arg_cuda := false; arg_use_covariance := false |}.

Definition restart_args : Args :=
  {| arg_force_restart := true; arg_word_rep := None;
     arg_cuda := false; arg_use_covariance := false |}.

Definition word_rep_args : Args :=
  {| arg_force_restart := false; arg_word_rep := Some "glove.txt";
     arg_cuda := false; arg_use_covariance := false |}.

(** The world a run leaves behind, when it does not raise. *)
Definition world_after (r : result Train.Machine) (w : World) : World :=
  match r with
  | Ok m => Train.m_world m
  | Raise _ => w
  end.

(** The folder after a fresh run of two epochs, written out. *)
Definition trained_checkpoint : gmap string H5Dataset :=
  <["training/epoch" := H5Scalar 1]>
    (<["training/model" := H5Weights (replicate 7 [10%Z]) 6%Z]>
       (<["c_vocab" :=
            H5Vocab [(0, ""); (1, "w"); (2, "h"); (3, "o"); (4, "i");
                     (5, "s"); (6, "t"); (7, "m"); (8, "e")]]>
          (<["vocab" :=
               H5Vocab [(0, ""); (1, "<sos>"); (2, "<eos>"); (3, "who");
                        (4, "is"); (5, "it"); (6, "me")]]> ∅))).

Definition trained_state : TrainingState :=
  {| sd_param_groups :=
       {| hp_lr := (1 # 100)%Q; hp_betas := ((9 # 10)%Q, (999 # 1000)%Q);
          hp_eps := (1 # 100000000)%Q; hp_weight_decay := 0%Q |};
     sd_state := 4 |}.

Definition trained_world : World :=
  {| config_yaml := Some (config_for (Some 2%Z) (Some 2));
     checkpoint_file := Some trained_checkpoint;
     checkpoint_opt := OptSaved trained_state;
     data_file := Some corpus;
     word_rep_file := Some [("is", [5; 5]%Z); ("me", [6; 6]%Z)];
     np_random := 7;
     torch_random := 15;
     cuda_is_available := false |}.

(** The same folder, its configuration now asking for four epochs. *)
Definition extended_world : World :=
  {| config_yaml := Some (config_for (Some 4%Z) (Some 2));
     checkpoint_file := checkpoint_file trained_world;
     checkpoint_opt := checkpoint_opt trained_world;
     data_file := data_file trained_world;
     word_rep_file := word_rep_file trained_world;
     np_random := 1;
     torch_random := 10;
     cuda_is_available := false |}.

(** The trained folder without its optimizer file. *)
Definition world_without_opt : World :=
  {| config_yaml := config_yaml extended_world;
     checkpoint_file := checkpoint_file extended_world;
     checkpoint_opt := OptAbsent;
     data_file := data_file extended_world;
     word_rep_file := word_rep_file extended_world;
     np_random := 1;
     torch_random := 10;
     cuda_is_available := false |}.

(** A fresh run of two epochs, and the folder it leaves. *)
Definition first_run : result Train.Machine :=
  Train.main 50 plain_args (fresh_world (Some 2%Z)).

Definition left_world : World :=
  world_after first_run (fresh_world (Some 2%Z)).

(** A folder opened again with a configuration that asks for [epochs]
    epochs; its checkpoint files are those of [w]. *)
Definition reopen (w : World) (epochs : Z) : World :=
  {| config_yaml := Some (config_for (Some epochs) (Some 2));
     checkpoint_file := checkpoint_file w;
     checkpoint_opt := checkpoint_opt w;
     data_file := Some corpus;
     word_rep_file := None;
     np_random := 1;
     torch_random := 10;
     cuda_is_available := false |}.

(** The folder that the fresh run left, opened again for four epochs. *)
Definition reopened_world : World := reopen left_world 4.

(** A fresh run stopped inside its first epoch, after one batch, and the
    folder it leaves. *)
Definition stopped_run : result Train.Machine :=
  Train.main 2 plain_args (fresh_world (Some 2%Z)).

Definition stopped_world : World :=
  world_after stopped_run (fresh_world (Some 2%Z)).

End Toy.

(** * The notions used in the statements *)

Section Notions.
Context `{FW : Framework}.
Import Dataset Checkpointing Train.

(** The epochs that a log shows as started. *)
Definition started (log : list event) : list Z :=
  omap (fun ev => match ev with StartingEpoch e => Some e | _ => None end) log.

(** The events that are optimizer steps. *)
Definition is_train_step (ev : event) : bool :=
  match ev with
  | TrainStep _ _ => true
  | _ => false
  end.

(** The training steps that a log shows. *)
Definition train_steps (log : list event) : nat :=
  length (List.filter is_train_step log).

(** The epoch an iterator stands at. *)
Definition start_of (it : epochs_iter) : Z :=
  match it with
  | range a _ => a
  | count a => a
  end.

(** What a run starts from: the model, the vocabularies, the optimizer,
    the examples and the epochs to run. *)
Definition starting_point (m : Machine)
    : BidafModel * dict nat string * dict nat string * Optimizer * EpochGen
      * epochs_iter :=
  (m_model m, m_id_to_token m, m_id_to_char m, m_optimizer m, m_data m,
   m_epochs m).

(** The token vocabulary built from the data file alone, starting from
    the reserved entry. *)
Definition fresh_vocabulary (w : World) : option (dict nat string) :=
  raw ← data_file w;
  Some (inverted
          (tokenize_data (load_data raw) [(EmptyString, 0)]
             [(EmptyString, 0)] None).1.2).

(** The optimizer of a configuration, newly created. *)
Definition new_optimizer (t : TrainingConfig) : Optimizer :=
  Adam (default (1 # 100)%Q (cfg_lr t))
       (default ((9 # 10)%Q, (999 # 1000)%Q) (cfg_betas t))
       (default (1 # 100000000)%Q (cfg_eps t))
       (default 0%Q (cfg_weight_decay t)).

(** The result of [reload_state] with another optimizer. *)
Definition with_optimizer (o : Optimizer)
    (r : BidafModel * dict nat string * dict nat string * Optimizer * EpochGen)
    : BidafModel * dict nat string * dict nat string * Optimizer * EpochGen :=
  (r.1.1.1.1, r.1.1.1.2, r.1.1.2, o, r.2).

(** [reload_state] after its first three statements. *)
Definition reload_rest (config : Config) (w : World) (model : BidafModel)
    (id_to_token id_to_char : dict nat string) (optimizer : Optimizer)
    : result (BidafModel * dict nat string * dict nat string
              * Optimizer * EpochGen) :=
  raw ← open (data_file w);
  let '(data, token_to_id, char_to_id) :=
    tokenize_data (load_data raw) (inverted id_to_token)
      (inverted id_to_char) (training_get config cfg_limit) in
  _ ← assert (length token_to_id =? length (inverted id_to_token));
  _ ← assert (length char_to_id =? length (inverted id_to_char));
  Ok (model, id_to_token, id_to_char, optimizer, get_loader data config).

(** The entries of the vocabulary that get a fallback vector: not the
    reserved id, and not in the text source. *)
Definition is_oov (reserved : nat) (pre_trained : dict string Vec)
    (entry : nat * string) : bool :=
  negb (entry.1 =? reserved)
  && match get pre_trained entry.2 with Some _ => false | None => true end.

(** The out-of-vocabulary entries, in the order of the vocabulary. *)
Definition oov_items (id_to_symb : dict nat string) (reserved : nat)
    (pre_trained : dict string Vec) : dict nat string :=
  List.filter (is_oov reserved pre_trained) id_to_symb.

(** The first [n] vectors drawn from a fallback source, and the source
    after them. *)
Fixpoint draws (n : nat) (oovs : SymbolEmbSourceNorm)
    : list Vec * SymbolEmbSourceNorm :=
  match n with
  | O => ([], oovs)
  | S n' =>
      let '(v, oovs') := fallback oovs in
      let '(vs, oovs'') := draws n' oovs' in
      (v :: vs, oovs'')
  end.

(** The text source of [init_state]: the lines of the embedding file
    whose token is in the vocabulary under an id other than 0. *)
Definition text_source (lines : list (string * Vec))
    (id_to_token : dict nat string) : dict string Vec :=
  SymbolEmbSourceText lines
    (list_to_set (filter (fun kv => kv.1 ≠ 0) id_to_token).*2).

(** The fallback source of [init_state]: the statistics of the text
    source and a generator seeded with 2. *)
Definition norm_source (pre_trained : dict string Vec) (use_covariance : bool)
    : SymbolEmbSourceNorm :=
  {| norm_stats_of := get_norm_stats pre_trained use_covariance;
     norm_rng := np_RandomState 2;
     norm_use_covariance := use_covariance |}.

(** The epochs that a log shows as completed. *)
Definition completed (log : list event) : list Z :=
  omap (fun ev => match ev with EndOfEpoch e => Some e | _ => None end) log.

(** The folder holds the checkpoint of epoch [e] taken from [model] and
    [optimizer]. *)
Definition stored (w : World) (e : Z) (model : BidafModel)
    (optimizer : Optimizer) : Prop :=
  ∃ f, checkpoint_file w = Some f
       ∧ f !! "training/epoch" = Some (H5Scalar e)
       ∧ f !! "training/model"
           = Some (H5Weights (embeddings_weight model) (other_params model))
       ∧ checkpoint_opt w = OptSaved (state_dict optimizer).

(** The loop is not inside [train]. *)
Definition between_epochs (m : Machine) : Prop :=
  m_pc m = LoopHead ∨ m_pc m = Returned.

(** The invariant of the loop: the folder holds the checkpoint of the last
    completed epoch, and between two epochs this checkpoint is the one of
    the model and the optimizer in memory. *)
Definition checkpoint_inv (m : Machine) : Prop :=
  ∀ e, last (completed (m_log m)) = Some e →
       (∃ model optimizer, stored (m_world m) e model optimizer)
       ∧ (between_epochs m → stored (m_world m) e (m_model m) (m_optimizer m)).

(** What no step of the loop changes: the vocabularies, the flags of the
    model, the files other than the checkpoint, and the datasets of the
    checkpoint file other than the two of the training group. *)
Definition frame (m m' : Machine) : Prop :=
  m_id_to_token m' = m_id_to_token m
  ∧ m_id_to_char m' = m_id_to_char m
  ∧ on_cuda (m_model m') = on_cuda (m_model m)
  ∧ in_training_mode (m_model m') = in_training_mode (m_model m)
  ∧ config_yaml (m_world m') = config_yaml (m_world m)
  ∧ data_file (m_world m') = data_file (m_world m)
  ∧ cuda_is_available (m_world m') = cuda_is_available (m_world m)
  ∧ (∀ key, key ≠ "training/epoch" → key ≠ "training/model" →
            h5py_File (m_world m') !! key = h5py_File (m_world m) !! key).

(** Re-tokenizing the data file against the vocabularies that a fresh
    run saved adds no entry to them. *)
Definition vocabulary_is_stable (config : Config) (raw : RawData) : Prop :=
  let '(_, token_to_id, char_to_id) :=
    tokenize_data (load_data raw) [(EmptyString, 0)] [(EmptyString, 0)] None in
  let '(_, token_to_id', char_to_id') :=
    tokenize_data (load_data raw) (inverted (inverted token_to_id))
      (inverted (inverted char_to_id)) (training_get config cfg_limit) in
  length token_to_id' = length (inverted (inverted token_to_id))
  ∧ length char_to_id' = length (inverted (inverted char_to_id)).

End Notions.

(** The computation does not raise. *)
Definition returns {A : Type} (r : result A) : bool :=
  match r with
  | Ok _ => true
  | Raise _ => false
  end.

(** * Notions for the further properties *)

(** The characters of a string. *)
Definition chars (s : string) : list ascii := list_ascii_of_string s.

(** A word: not empty, and without a whitespace character. *)
Definition is_word (w : string) : Prop :=
  w ≠ EmptyString ∧ Forall (fun c => Glove.is_space c = false) (chars w).

(** The row that [Glove.embedding] writes for the string [s]: the sum of
    the vectors of its known words, broadcast to [l] columns. *)
Definition row_of {F : Type} (fzero : F) (fadd : F -> F -> F) (l : nat)
    (s : string) (g : gmap string (list F)) : result (list F) :=
  x ← Glove.glove_embedding_one_string F fzero fadd s g;
  Glove.broadcast_row F l x.

(** A line that [loadGloveModel] can load: it has a first token, and all
    its other tokens are read by [float]. *)
Definition line_loads {F : Type} (float : string -> option F)
    (line : string) : Prop :=
  ∃ first vals v, Glove.split line = first :: vals
                  ∧ Glove.floats F float vals = Ok v.

(** A dictionary whose vectors have one dimension. *)
Definition uniform_glove : gmap string (list Z) :=
  <["a" := [1; 2]%Z]> (<["b" := [10; 20]%Z]> ∅).

(** What every entry of a loaded model looks like. *)
Definition entry_of_file {F : Type} (float : string -> option F)
    (lines : list string) (k : string) (v : list F) : Prop :=
  Forall (fun c => Glove.chr 39 c = false) (chars k)
  ∧ ∃ line first vals,
      line ∈ lines ∧ Glove.split line = first :: vals
      ∧ k = Glove.remove_apostrophes first
      ∧ Glove.floats F float vals = Ok v.

Section LoopNotions.
Context `{FW : Framework}.
Import Train.

(** The log of one epoch. *)
Definition epoch_log (epoch : Z) (batches : nat) : list event :=
  StartingEpoch epoch :: (TrainStep epoch <$> seq 0 batches)
  ++ [EndOfEpoch epoch].

End LoopNotions.

Section RunNotions.
Context `{FW : Framework}.
Import Dataset Train.

(** From [m], the loop first runs epoch [epoch]: its first step enters
    [train] for this epoch on the batches of the generator; after one
    step per batch and two more the log has grown by this epoch, from
    its start to its end; and whatever the number of steps, one at
    least, the first epoch that the log shows as started after those of
    [m] is [epoch]. *)
Definition runs_first (m : Machine) (epoch : Z) : Prop :=
  let bs := (batches (m_data m) (np_random (m_world m))).1 in
  m_pc (exec 1 m) = InTrain epoch 0 bs
  ∧ m_log (exec (length bs + 2) m) = m_log m ++ epoch_log epoch (length bs)
  ∧ ∀ fuel, 0 < fuel →
      ∃ later, started (m_log (exec fuel m))
               = started (m_log m) ++ epoch :: later.

(** From [m], the loop runs no epoch: it logs nothing, leaves the folder
    as it is and returns at its first step. *)
Definition runs_nothing (m : Machine) : Prop :=
  ∀ fuel, m_log (exec fuel m) = m_log m
          ∧ m_world (exec fuel m) = m_world m
          ∧ (0 < fuel → m_pc (exec fuel m) = Returned).

End RunNotions.

(** A folder whose configuration names no number of epochs. *)
Definition endless_world : @World Toy.toy :=
  Toy.fresh_world None.

(** A reader of numbers for the runs of the loaders: a sequence of
    decimal digits. *)
Fixpoint digits_value (s : string) (acc : nat) : option nat :=
  match s with
  | EmptyString => Some acc
  | String c s' =>
      let n := nat_of_ascii c in
      if (48 <=? n) && (n <=? 57) then digits_value s' (10 * acc + (n - 48))
      else None
  end.

Definition digits_float (s : string) : option Z :=
  match s with
  | EmptyString => None
  | _ => Z.of_nat <$> digits_value s 0
  end.

(** * Properties *)

(** ** Glove.embedding *)

Section GloveFacts.
Import Glove.
Variable F : Type.
Variable fzero : F.
Variable fadd : F -> F -> F.

Abbreviation embedding := (Glove.embedding F fzero fadd).
Abbreviation embedding_loop := (Glove.embedding_loop F fzero fadd).
Abbreviation one_string := (Glove.glove_embedding_one_string F fzero fadd).

Lemma broadcast_row_length l (x : ndarray F) row :
  broadcast_row F l x = Ok row → length row = l.
Proof.
  destruct x as [a|v|? ? ?]; simpl; try discriminate.
  - intros [= <-]. apply length_replicate.
  - destruct (Nat.eqb_spec (length v) l) as [Hl|Hl].
    + by intros [= <-].
    + destruct v as [|a [|? ?]]; try discriminate.
      intros [= <-]. apply length_replicate.
Qed.

Lemma broadcast_row_raises l (x : ndarray F) e :
  broadcast_row F l x = Raise e → e = ValueError.
Proof.
  destruct x as [a|v|? ? ?]; simpl; try discriminate.
  - destruct (length v =? l); try discriminate.
    destruct v as [|a [|? ?]]; try discriminate; by intros [= <-].
  - by intros [= <-].
Qed.

Lemma one_string_raises s g e : one_string s g = Raise e → e = ValueError.
Proof.
  unfold Glove.glove_embedding_one_string, np_sum_axis0.
  destruct (omap _ _) as [|v vs]; try discriminate.
  destruct (forallb _ _); try discriminate. by intros [= <-].
Qed.

Lemma embedding_loop_shape l g strings : ∀ t temp rows,
  Forall (fun r => length r = l) temp →
  embedding_loop l strings g t temp = Ok rows →
  length rows = length temp ∧ Forall (fun r => length r = l) rows.
Proof.
  induction strings as [|s strings IH]; simpl; intros t temp rows Hall.
  - by intros [= <-].
  - destruct (one_string s g) as [x|e]; simpl; try discriminate.
    destruct (broadcast_row F l x) as [row|e] eqn:Hrow; simpl; try discriminate.
    intros Hloop. apply IH in Hloop.
    + by rewrite length_insert in Hloop.
    + apply Forall_insert; [done|]. by eapply broadcast_row_length.
Qed.

Lemma embedding_loop_raises l g strings : ∀ t temp e,
  embedding_loop l strings g t temp = Raise e → e = ValueError.
Proof.
  induction strings as [|s strings IH]; simpl; intros t temp e; try discriminate.
  destruct (one_string s g) as [x|e'] eqn:Hone; simpl.
  - destruct (broadcast_row F l x) as [row|e''] eqn:Hrow; simpl.
    + apply IH.
    + intros [= <-]. by eapply broadcast_row_raises.
  - intros [= <-]. by eapply one_string_raises.
Qed.

Lemma column_sums_length (v : list F) vs :
  Forall (fun w => length w = length v) vs →
  length (foldl (zip_with fadd) v vs) = length v.
Proof.
  revert v. induction vs as [|w vs IH]; simpl; intros v Hall; [done|].
  inversion Hall as [|? ? Hw Hvs]; subst.
  assert (Hlen : length (zip_with fadd v w) = length v).
  { rewrite length_zip_with. lia. }
  rewrite IH; [done|]. rewrite Hlen.
  eapply Forall_impl; [exact Hvs|]. simpl. intros; lia.
Qed.

(** With vectors of one dimension [l] throughout the dictionary, every
    string yields a scalar or a vector of [l] components. *)
Lemma one_string_uniform l (g : gmap string (list F)) s :
  map_Forall (fun _ v => length v = l) g →
  ∃ x, one_string s g = Ok x ∧ ∃ row, broadcast_row F l x = Ok row.
Proof.
  intros Hg. unfold Glove.glove_embedding_one_string, np_sum_axis0.
  assert (Hall : Forall (fun v => length v = l)
                   (omap (fun i => g !! i) (re_sub <$> split s))).
  { apply Forall_forall. intros v Hv. apply list_elem_of_omap in Hv.
    destruct Hv as (i & _ & Hi). by apply Hg in Hi. }
  destruct (omap _ _) as [|v vs]; [by eauto|].
  inversion Hall as [|? ? Hv Hvs]; subst.
  assert (Hsame : Forall (fun w => length w = length v) vs).
  { eapply Forall_impl; [exact Hvs|]. simpl. intros; congruence. }
  replace (forallb _ vs) with true.
  - eexists. split; [done|]. simpl.
    rewrite column_sums_length by done. rewrite Nat.eqb_refl. eauto.
  - symmetry. apply forallb_forall. intros w Hw.
    apply Nat.eqb_eq. rewrite Forall_forall in Hsame. apply Hsame.
    by apply list_elem_of_In.
Qed.

Lemma embedding_loop_uniform l (g : gmap string (list F)) strings :
  map_Forall (fun _ v => length v = l) g →
  ∀ t temp, ∃ rows, embedding_loop l strings g t temp = Ok rows.
Proof.
  intros Hg. induction strings as [|s strings IH]; simpl; intros t temp.
  - eauto.
  - destruct (one_string_uniform l g s Hg) as (x & -> & row & Hrow).
    simpl. rewrite Hrow. simpl. apply IH.
Qed.

(** The call returns when all vectors of the dictionary have the
    dimension of the vector of ["a"]. *)
Lemma embedding_returns (g : gmap string (list F)) strings a :
  g !! "a" = Some a →
  map_Forall (fun _ v => length v = length a) g →
  ∃ rows, embedding strings g = Ok (Arr2 (length strings) (length a) rows).
Proof.
  intros Ha Hg. unfold Glove.embedding, gmap_getitem. rewrite Ha. simpl.
  destruct (embedding_loop_uniform (length a) g strings Hg 0
              (replicate (length strings) (replicate (length a) fzero)))
    as [rows ->].
  simpl. eauto.
Qed.

(** C10.  [Glove.embedding] reads [pretrained_glove['a']] before it looks
    at any element of the list: without the key ["a"] every call raises
    [KeyError], the call on the empty list included.  With the key, an
    array that is returned has one row per string and as many columns as
    the vector of ["a"] has components, and the only other exception is the
    [ValueError] of a shape mismatch. *)
Theorem embedding_needs_a (strings : list string) (g : gmap string (list F)) :
  match g !! "a" with
  | None => embedding strings g = Raise KeyError
  | Some a =>
      match embedding strings g with
      | Ok arr =>
          ncols F arr = Some (length a) ∧ well_shaped F arr ∧
          ∃ rows, arr = Arr2 (length strings) (length a) rows
      | Raise e => e = ValueError
      end
  end.
Proof.
  unfold Glove.embedding, gmap_getitem.
  destruct (g !! "a") as [a|] eqn:Ha; simpl; [|done].
  destruct (embedding_loop _ _ _ _ _) as [rows|e] eqn:Hloop; simpl.
  - apply embedding_loop_shape in Hloop.
    + destruct Hloop as [Hlen Hrows]. rewrite length_replicate in Hlen.
      repeat split; eauto.
    + apply Forall_replicate. apply length_replicate.
  - by eapply embedding_loop_raises.
Qed.

End GloveFacts.

(** ** try_to_resume, get_optimizer, reload_state and the start of main *)

Section ResumeFacts.
Context `{FW : Framework}.
Import Dataset Checkpointing Train.

Lemma read_epoch_stored (f : gmap string H5Dataset) e :
  f !! "training/epoch" = Some (H5Scalar e) → read_epoch f = Ok e.
Proof. intros Hf. unfold read_epoch, gmap_getitem. by rewrite Hf. Qed.

Lemma try_to_resume_stored (w : World) f e :
  checkpoint_file w = Some f →
  f !! "training/epoch" = Some (H5Scalar e) →
  try_to_resume false w =
    match checkpoint_opt w with
    | OptAbsent => Ok (Some f, None, (e + 1)%Z)
    | OptSaved s => Ok (Some f, Some s, (e + 1)%Z)
    | OptUnreadable => Raise UnpicklingError
    end.
Proof.
  intros Hw Hf. unfold try_to_resume, h5py_File. rewrite Hw. simpl.
  rewrite (read_epoch_stored f e Hf). simpl.
  by destruct (checkpoint_opt w).
Qed.

Lemma started_app l1 l2 : started (l1 ++ l2) = started l1 ++ started l2.
Proof. apply omap_app. Qed.

(** A step starts no epoch, or it starts the one the iterator stands at
    and moves the iterator by one. *)
Lemma step_started m m' :
  step m = Some m' →
  (started (m_log m') = started (m_log m) ∧
   start_of (m_epochs m') = start_of (m_epochs m)) ∨
  (started (m_log m') = started (m_log m) ++ [start_of (m_epochs m)] ∧
   start_of (m_epochs m') = (start_of (m_epochs m) + 1)%Z).
Proof.
  unfold step. destruct (m_pc m) as [|e i [|b bs]|].
  - destruct (next (m_epochs m)) as [[e it]|] eqn:Hnext.
    + destruct (batches _ _) as [bs g]. intros [= <-]. right. simpl.
      rewrite started_app. simpl.
      destruct (m_epochs m) as [a b|a]; simpl in *.
      * destruct (a <? b)%Z; [|done]. by injection Hnext as <- <-.
      * by injection Hnext as <- <-.
    + intros [= <-]. left. simpl. by rewrite app_nil_r.
  - intros [= <-]. left. simpl. rewrite started_app. simpl.
    by rewrite app_nil_r.
  - intros [= <-]. left. unfold train_on.
    destruct (train_batch _ _ _ _ _) as [[[? ?] ?] ?]. simpl.
    rewrite started_app. simpl. by rewrite app_nil_r.
  - discriminate.
Qed.

(** The epochs started by a run are consecutive, from the one the
    iterator stands at. *)
Lemma exec_started n : ∀ m,
  ∃ k : nat,
    started (m_log (exec n m)) =
      started (m_log m) ++ seqZ (start_of (m_epochs m)) (Z.of_nat k) ∧
    start_of (m_epochs (exec n m)) = (start_of (m_epochs m) + Z.of_nat k)%Z.
Proof.
  induction n as [|n IH]; intros m; simpl.
  - exists 0. simpl. rewrite app_nil_r. split; [done|lia].
  - destruct (step m) as [m'|] eqn:Hstep.
    + destruct (IH m') as (k & Hlog & Hit).
      destruct (step_started m m' Hstep) as [[Hl He]|[Hl He]].
      * exists k. by rewrite Hlog, Hit, Hl, He.
      * exists (S k). rewrite Hlog, Hit, Hl, He. split; [|lia].
        rewrite <- app_assoc. f_equal. simpl.
        rewrite (seqZ_cons _ (Z.of_nat (S k))) by lia.
        do 2 f_equal; lia.
    + exists 0. simpl. rewrite app_nil_r. split; [done|lia].
Qed.

Lemma epochs_from_start config epoch : start_of (epochs_from config epoch) = epoch.
Proof. unfold epochs_from. by destruct (training_get config cfg_epochs). Qed.

(** What [main_setup] hands to the loop. *)
Lemma main_setup_inv args w m :
  main_setup args w = Ok m →
  ∃ config checkpoint training_state epoch,
    config_yaml w = Some config ∧
    try_to_resume (arg_force_restart args) w
      = Ok (checkpoint, training_state, epoch) ∧
    m_pc m = LoopHead ∧ m_log m = [] ∧
    m_epochs m = epochs_from config epoch.
Proof.
  unfold main_setup.
  destruct (config_yaml w) as [config|]; simpl; [|discriminate].
  destruct (try_to_resume _ w) as [[[checkpoint training_state] epoch]|];
    simpl; [|discriminate].
  intros Hm. exists config, checkpoint, training_state, epoch.
  split; [done|]. split; [done|].
  destruct checkpoint as [c|].
  - destruct (reload_state _ _ _ _ _) as [[[[[? ?] ?] ?] ?]|];
      simpl in Hm; [|discriminate].
    by injection Hm as <-.
  - destruct (init_state _ _ _) as [[[[[[? ?] ?] ?] ?] ?]|];
      simpl in Hm; [|discriminate].
    by injection Hm as <-.
Qed.

End ResumeFacts.

Section FreshFacts.
Context `{FW : Framework}.
Import Dataset Checkpointing Train.

Lemma init_state_ignores_checkpoint config args w f o :
  init_state config args (with_checkpoint w f o) = init_state config args w.
Proof. reflexivity. Qed.

Lemma init_state_vocabulary config args w model id_to_token id_to_char
    optimizer data torch' :
  init_state config args w
    = Ok (model, id_to_token, id_to_char, optimizer, data, torch') →
  fresh_vocabulary w = Some id_to_token.
Proof.
  unfold init_state, fresh_vocabulary.
  destruct (data_file w) as [raw|]; simpl; [|discriminate].
  destruct (tokenize_data _ _ _ _) as [[d t] c]. simpl.
  destruct (getitem t SOS_TOKEN); simpl; [|discriminate].
  destruct (getitem t EOS_TOKEN); simpl; [|discriminate].
  destruct (cfg_bidaf config); simpl; [|discriminate].
  destruct (from_config _ _ _ _ _ _) as [[? ?] ?].
  destruct (inject_word_rep _ _ _ _); simpl; [|discriminate].
  destruct (get_optimizer _ _ _); simpl; [|discriminate].
  by intros [= _ <- _ _ _ _].
Qed.

(** Without a checkpoint to resume from, [main_setup] is the fresh path. *)
Lemma main_setup_fresh args w :
  try_to_resume (arg_force_restart args) w = Ok (None, None, 0%Z) →
  main_setup args w =
    (config ← open (config_yaml w);
     r ← init_state config args w;
     let '(model, id_to_token, id_to_char, optimizer, data, torch') := r in
     Ok {| m_pc := LoopHead;
           m_epochs := epochs_from config 0;
           m_model := model;
           m_optimizer := optimizer;
           m_id_to_token := id_to_token;
           m_id_to_char := id_to_char;
           m_data :=
             if use_cuda args w
             then {| eg_data := eg_data data;
                     eg_batch_size := eg_batch_size data;
                     eg_shuffle := eg_shuffle data;
                     eg_cuda_tensors := true |}
             else data;
           m_teacher_forcing_ratio :=
             default 1%Q (training_get config cfg_teacher_forcing_ratio);
           m_world :=
             with_random
               (with_checkpoint w
                  (save_vocab (save_vocab (h5py_File w) "vocab" id_to_token)
                     "c_vocab" id_to_char)
                  (checkpoint_opt w))
               (np_random w) torch';
           m_log := [] |}).
Proof.
  intros Htry. unfold main_setup. rewrite Htry.
  destruct (config_yaml w) as [config|]; simpl; [|done].
  by destruct (init_state config args w) as [[[[[[? ?] ?] ?] ?] ?]|].
Qed.

Lemma try_to_resume_forced args w :
  arg_force_restart args = true →
  try_to_resume (arg_force_restart args) w = Ok (None, None, 0%Z).
Proof. by intros ->. Qed.

(** C2.  With the force-restart flag, [try_to_resume] returns no
    checkpoint, no training state and epoch 0 whatever the folder holds,
    and the run starts from the same model, vocabularies, optimizer,
    examples and epochs whatever checkpoint files are there; the token
    vocabulary it starts from is the one built from the raw data, and the
    epochs start at 0. *)
Theorem force_restart_is_fresh (args : Args) (w : World) :
  arg_force_restart args = true →
  try_to_resume (arg_force_restart args) w = Ok (None, None, 0%Z)
  ∧ (∀ f o, starting_point <$> main_setup args (with_checkpoint w f o)
            = starting_point <$> main_setup args w)
  ∧ (∀ m, main_setup args w = Ok m →
          fresh_vocabulary w = Some (m_id_to_token m) ∧
          ∃ config, config_yaml w = Some config ∧
                    m_epochs m = epochs_from config 0).
Proof.
  intros Hforce. split; [by rewrite Hforce|]. split.
  - intros f o. rewrite !main_setup_fresh by by apply try_to_resume_forced.
    simpl (config_yaml _).
    destruct (config_yaml w) as [config|]; simpl; [|done].
    rewrite init_state_ignores_checkpoint.
    by destruct (init_state config args w) as [[[[[[? ?] ?] ?] ?] ?]|].
  - intros m. rewrite main_setup_fresh by by apply try_to_resume_forced.
    destruct (config_yaml w) as [config|]; simpl; [|discriminate].
    destruct (init_state config args w) as [[[[[[? ?] ?] ?] ?] ?]|] eqn:Hinit;
      simpl; [|discriminate].
    intros [= <-]. simpl. split; [|by eauto].
    by eapply init_state_vocabulary.
Qed.

Lemma get_optimizer_configured model config t state :
  cfg_training config = Some t →
  get_optimizer model config state =
    Ok (match state with
        | Some s => load_state_dict (new_optimizer t) s
        | None => new_optimizer t
        end).
Proof. intros Ht. unfold get_optimizer, training_section. by rewrite Ht. Qed.

Lemma reload_state_unfold checkpoint training_state config args w :
  reload_state checkpoint training_state config args w =
    (bidaf ← open_key (cfg_bidaf config);
     r ← from_checkpoint bidaf checkpoint;
     let model :=
       train_mode (if use_cuda args w then cuda r.1.1 else r.1.1) in
     optimizer ← get_optimizer model config training_state;
     reload_rest config w model r.1.2 r.2 optimizer).
Proof.
  unfold reload_state, reload_rest.
  destruct (open_key (cfg_bidaf config)) as [bidaf|]; simpl; [|done].
  destruct (from_checkpoint bidaf checkpoint) as [[[model i2t] i2c]|];
    simpl; [|done].
  destruct (get_optimizer _ _ _) as [optimizer|]; simpl; [|done].
  destruct (open (data_file w)) as [raw|]; simpl; [|done].
  by destruct (tokenize_data _ _ _ _) as [[? ?] ?].
Qed.

Lemma reload_rest_optimizer config w model i2t i2c o o' :
  reload_rest config w model i2t i2c o'
    = with_optimizer o' <$> reload_rest config w model i2t i2c o.
Proof.
  unfold reload_rest.
  destruct (open (data_file w)) as [raw|]; simpl; [|done].
  destruct (tokenize_data _ _ _ _) as [[? ?] ?].
  destruct (assert (_ =? length (inverted i2t))); simpl; [|done].
  by destruct (assert _).
Qed.

(** C4.  Once the model is loaded and the data file is read,
    [reload_state] raises [AssertionError] exactly when the token or the
    character vocabulary has, after the tokenization, another size than
    before it; when the tokenization adds no entry to either vocabulary,
    no assertion fires and [reload_state] returns. *)
Theorem reload_state_asserts_vocabulary_sizes
    (checkpoint : gmap string H5Dataset) (training_state : option TrainingState)
    (config : Config) (args : Args) (w : World) (bidaf : BidafConfig)
    (model : BidafModel) (id_to_token id_to_char : dict nat string)
    (optimizer : Optimizer) (raw : RawData) (data : list Example)
    (token_to_id char_to_id : dict string nat) :
  cfg_bidaf config = Some bidaf →
  from_checkpoint bidaf checkpoint = Ok (model, id_to_token, id_to_char) →
  get_optimizer (train_mode (if use_cuda args w then cuda model else model))
    config training_state = Ok optimizer →
  data_file w = Some raw →
  tokenize_data (load_data raw) (inverted id_to_token) (inverted id_to_char)
    (training_get config cfg_limit) = (data, token_to_id, char_to_id) →
  (reload_state checkpoint training_state config args w = Raise AssertionError
   ↔ length token_to_id ≠ length (inverted id_to_token)
     ∨ length char_to_id ≠ length (inverted id_to_char))
  ∧ (length token_to_id = length (inverted id_to_token) →
     length char_to_id = length (inverted id_to_char) →
     reload_state checkpoint training_state config args w
       = Ok (train_mode (if use_cuda args w then cuda model else model),
             id_to_token, id_to_char, optimizer, get_loader data config)).
Proof.
  intros Hb Hc Ho Hd Ht. rewrite reload_state_unfold, Hb. simpl.
  rewrite Hc. simpl.
  rewrite Ho. simpl. unfold reload_rest. rewrite Hd. simpl. rewrite Ht.
  destruct (Nat.eqb_spec (length token_to_id) (length (inverted id_to_token)))
    as [Ht1|Ht1]; simpl.
  - destruct (Nat.eqb_spec (length char_to_id) (length (inverted id_to_char)))
      as [Hc1|Hc1]; simpl.
    + split; [|done]. split; [discriminate|]. intros [?|?]; done.
    + split; [|done]. split; [by right|done].
  - split; [|done]. split; [by left|done].
Qed.

End FreshFacts.

Lemma force_restart_is_fresh_witness :
  Train.try_to_resume (arg_force_restart Toy.restart_args) Toy.trained_world
    = Ok (None, None, 0%Z)
  ∧ (∀ f o, starting_point
              <$> Train.main_setup Toy.restart_args
                    (with_checkpoint Toy.trained_world f o)
            = starting_point
              <$> Train.main_setup Toy.restart_args Toy.trained_world)
  ∧ (∀ m, Train.main_setup Toy.restart_args Toy.trained_world = Ok m →
          fresh_vocabulary Toy.trained_world = Some (Train.m_id_to_token m) ∧
          ∃ config, config_yaml Toy.trained_world = Some config ∧
                    Train.m_epochs m = Train.epochs_from config 0).
Proof.
  apply (force_restart_is_fresh Toy.restart_args Toy.trained_world).
  reflexivity.
Defined.

Lemma reload_state_asserts_vocabulary_sizes_witness :
  ∃ r, Train.reload_state (Toy.trained_checkpoint) None
         (Toy.config_for (Some 4%Z) (Some 2)) Toy.plain_args
         Toy.trained_world = Ok r.
Proof.
  edestruct (reload_state_asserts_vocabulary_sizes
               (Toy.trained_checkpoint) None
               (Toy.config_for (Some 4%Z) (Some 2)) Toy.plain_args
               Toy.trained_world tt) as [_ Hreturns];
    [reflexivity | reflexivity | reflexivity | reflexivity | reflexivity |].
  eexists. apply Hreturns; reflexivity.
Defined.

(** ** The batch generator *)

Section BatchFacts.
Context `{FW : Framework}.
Import Dataset.

Lemma draw_all_perm {A : Type} n : ∀ (g : NpRng) (l : list A),
  n = length l → (draw_all n g l).1 ≡ₚ l.
Proof.
  induction n as [|n IH]; intros g l Hn; simpl.
  - symmetry in Hn. apply nil_length_inv in Hn. by subst.
  - destruct (np_randint g (length l)) as [r g1].
    assert (Hi : r mod length l < length l) by (apply Nat.mod_upper_bound; lia).
    destruct (lookup_lt_is_Some_2 l _ Hi) as [x Hx]. rewrite Hx.
    specialize (IH g1 (delete (r mod length l) l)).
    destruct (draw_all n g1 _) as [rest g2]. simpl in *.
    rewrite IH.
    + symmetry. by apply delete_Permutation.
    + rewrite length_delete by eauto. lia.
Qed.

Lemma shuffle_perm {A : Type} (g : NpRng) (l : list A) : (shuffle g l).1 ≡ₚ l.
Proof. by apply draw_all_perm. Qed.

Lemma slices_concat {A : Type} size fuel : ∀ l : list A,
  0 < size → length l ≤ fuel → concat (slices fuel size l) = l.
Proof.
  induction fuel as [|fuel IH]; intros l Hs Hl; simpl.
  - destruct l; [done|simpl in Hl; lia].
  - destruct l as [|x l]; [done|].
    simpl concat. rewrite IH; [apply take_drop|done|].
    rewrite length_drop. simpl in *. lia.
Qed.

(** The [i]-th group is the [i]-th window of [size] elements. *)
Lemma slices_lookup {A : Type} size fuel : ∀ (l : list A) i b,
  0 < size → length l ≤ fuel →
  slices fuel size l !! i = Some b →
  b = take size (drop (i * size) l) ∧ i * size < length l.
Proof.
  induction fuel as [|fuel IH]; intros l i b Hs Hl; simpl; [done|].
  destruct l as [|x l]; [done|].
  destruct i as [|i].
  - simpl. intros [= <-]. split; [done|lia].
  - rewrite lookup_cons_ne_0 by lia. simpl Nat.pred. intros Hb.
    apply IH in Hb; [|done|rewrite length_drop; simpl in *; lia].
    destruct Hb as [-> Hi]. rewrite length_drop in Hi.
    split; [|lia]. by rewrite drop_drop.
Qed.

(** There are as many groups as the size goes into the length, rounded
    up. *)
Lemma slices_length {A : Type} size fuel : ∀ l : list A,
  0 < size → length l ≤ fuel →
  length l ≤ length (slices fuel size l) * size < length l + size.
Proof.
  induction fuel as [|fuel IH]; intros l Hs Hl; simpl.
  - destruct l; simpl in *; lia.
  - destruct l as [|x l]; [simpl; lia|].
    assert (Hd : length (drop size (x :: l)) ≤ fuel).
    { rewrite length_drop. simpl in *. lia. }
    specialize (IH (drop size (x :: l)) Hs Hd).
    simpl length. rewrite Nat.mul_succ_l.
    destruct (decide (S (length l) ≤ size)) as [Hshort|Hlong].
    + rewrite drop_ge by done. destruct fuel; simpl in *; lia.
    + rewrite length_drop in IH. simpl length in *. lia.
Qed.

(** C6.  For every example collection and every positive batch size, one
    iteration of the batch generator yields each example exactly once: the
    groups, put end to end, are the shuffled collection, which is a
    permutation of the examples.  The groups are the consecutive windows
    of the batch size over the shuffled collection; there are as many as
    the batch size goes into the example count, rounded up; every group
    but the last has exactly the batch size, and the last one holds the
    remainder when the count is not a multiple of the batch size. *)
Theorem batches_cover_each_example_once (eg : EpochGen) (g : NpRng) :
  0 < eg_batch_size eg →
  let bs := (batches eg g).1 in
  let n := length (eg_data eg) in
  let size := eg_batch_size eg in
  concat bs ≡ₚ eg_data eg
  ∧ (eg_shuffle eg = true → concat bs = (shuffle g (eg_data eg)).1)
  ∧ n ≤ length bs * size < n + size
  ∧ (∀ i b, bs !! i = Some b →
       b = take size (drop (i * size) (concat bs)) ∧
       0 < length b ≤ size ∧
       (S i < length bs → length b = size) ∧
       (S i = length bs → n mod size ≠ 0 → length b = n mod size)).
Proof.
  intros Hs bs n size. subst bs n size. unfold batches.
  destruct (if eg_shuffle eg then shuffle g (eg_data eg) else (eg_data eg, g))
    as [order g'] eqn:Horder.
  assert (Hperm : order ≡ₚ eg_data eg).
  { destruct (eg_shuffle eg).
    - pose proof (shuffle_perm g (eg_data eg)) as Hp.
      by rewrite Horder in Hp.
    - by injection Horder as <- _. }
  destruct (eg_batch_size eg) as [|size'] eqn:Hsize; [lia|].
  rewrite <- Hsize in *. cbn [fst].
  set (size := eg_batch_size eg) in *.
  pose proof (slices_concat size (length order) order Hs (le_n _)) as Hcat.
  pose proof (slices_length size (length order) order Hs (le_n _)) as Hlen.
  assert (Hn : length order = length (eg_data eg)) by by rewrite Hperm.
  rewrite Hcat. split; [done|]. split.
  { intros Hsh. rewrite Hsh in Horder. by rewrite Horder. }
  split; [lia|].
  intros i b Hb.
  pose proof (lookup_lt_Some _ _ _ Hb) as Hi.
  apply slices_lookup in Hb; [|done..]. destruct Hb as [-> Hlt].
  split; [done|]. rewrite length_take, length_drop.
  split; [lia|]. split; [nia|].
  intros Hlast Hmod.
  pose proof (Nat.div_mod (length (eg_data eg)) size ltac:(lia)) as Hdm.
  pose proof (Nat.mod_upper_bound (length (eg_data eg)) size ltac:(lia)) as Hub.
  set (q := length (eg_data eg) `div` size) in *.
  set (r := length (eg_data eg) `mod` size) in *.
  assert (i = q) as -> by nia.
  lia.
Qed.

End BatchFacts.

Lemma batches_cover_each_example_once_witness :
  let eg := @Dataset.Build_EpochGen Toy.toy [[1]; [2]; [3]; [4]; [5]] 2 true false in
  concat (Dataset.batches eg 3).1 ≡ₚ [[1]; [2]; [3]; [4]; [5]]
  ∧ (Dataset.batches eg 3).1 = [[[4]; [1]]; [[5]; [2]]; [[3]]].
Proof.
  split.
  - apply (batches_cover_each_example_once
             (@Dataset.Build_EpochGen Toy.toy [[1]; [2]; [3]; [4]; [5]] 2 true
                false) 3).
    simpl. lia.
  - reflexivity.
Defined.

(** ** Embedding injection *)

Section InjectionFacts.
Context `{FW : Framework}.
Import Dataset Train.

Lemma symbol_injection_spec reserved pre_trained id_to_symb :
  ∀ embedding oovs,
  NoDup id_to_symb.*1 →
  (∀ id_, id_ ∈ id_to_symb.*1 → id_ ≠ reserved → id_ < length embedding) →
  let oov := oov_items id_to_symb reserved pre_trained in
  ∃ embedding',
    symbol_injection id_to_symb reserved embedding pre_trained oovs
      = Ok (embedding', (draws (length oov) oovs).2)
    ∧ length embedding' = length embedding
    ∧ (∀ id_, id_ ∉ id_to_symb.*1 ∨ id_ = reserved →
              embedding' !! id_ = embedding !! id_)
    ∧ (∀ id_ symb v, (id_, symb) ∈ id_to_symb → id_ ≠ reserved →
                     get pre_trained symb = Some v →
                     embedding' !! id_ = Some v)
    ∧ (∀ j id_ symb, oov !! j = Some (id_, symb) →
                     embedding' !! id_ = (draws (length oov) oovs).1 !! j
                     ∧ j < length (draws (length oov) oovs).1).
Proof.
  induction id_to_symb as [|[i s] rest IH]; intros embedding oovs Hnd Hrange.
  - simpl. exists embedding. repeat split; try done.
    intros id_ symb v Hin. by apply elem_of_nil in Hin.
  - simpl in Hnd. apply NoDup_cons in Hnd as [Hi Hnd].
    assert (Hrest : ∀ e : list Vec, length e = length embedding →
              ∀ id_, id_ ∈ rest.*1 → id_ ≠ reserved → id_ < length e).
    { intros e He id_ Hin Hne. rewrite He. apply Hrange; [|done].
      simpl. by apply elem_of_cons; right. }
    simpl. unfold oov_items, is_oov. simpl.
    destruct (decide (i = reserved)) as [->|Hne].
    + rewrite Nat.eqb_refl. simpl.
      destruct (IH embedding oovs Hnd (Hrest embedding eq_refl))
        as (e' & Hrun & Hlen & Hkeep & Hpre & Hoov).
      exists e'. split; [done|]. split; [done|]. split.
      { intros id_ [Hid|Hid]; apply Hkeep; [left|by right].
        intros Hin. apply Hid. simpl. by apply elem_of_cons; right. }
      split; [|done].
      intros id_ symb v Hin Hid. apply elem_of_cons in Hin as [[= -> ->]|Hin];
        [done|]. by apply Hpre.
    + assert (Hib : (i =? reserved) = false) by by apply Nat.eqb_neq.
      rewrite Hib. simpl.
      assert (Hil : i < length embedding).
      { apply Hrange; [|done]. simpl. by apply elem_of_cons; left. }
      destruct (decide (i < length embedding)); [|done].
      destruct (get pre_trained s) as [v|] eqn:Hs.
      * destruct (IH (<[i := v]> embedding) oovs Hnd
                    (Hrest _ (length_insert _ _ _)))
          as (e' & Hrun & Hlen & Hkeep & Hpre & Hoov).
        exists e'. split; [done|]. rewrite length_insert in Hlen.
        split; [done|]. split.
        { intros id_ Hid. rewrite Hkeep.
          - apply list_lookup_insert_ne. intros <-.
            destruct Hid as [Hid|Hid]; [|done].
            apply Hid. simpl. by apply elem_of_cons; left.
          - destruct Hid as [Hid|Hid]; [left|by right].
            intros Hin. apply Hid. simpl. by apply elem_of_cons; right. }
        split; [|done].
        intros id_ symb v' Hin Hid Hget.
        apply elem_of_cons in Hin as [[= -> ->]|Hin]; [|by eapply Hpre].
        rewrite Hkeep by by left.
        rewrite list_lookup_insert_eq by done. congruence.
      * simpl. destruct (fallback oovs) as [v oovs1].
        destruct (IH (<[i := v]> embedding) oovs1 Hnd
                    (Hrest _ (length_insert _ _ _)))
          as (e' & Hrun & Hlen & Hkeep & Hpre & Hoov).
        fold (is_oov reserved pre_trained) in *.
        fold (oov_items rest reserved pre_trained) in *.
        destruct (draws (length (oov_items rest reserved pre_trained)) oovs1)
          as [vs oovs2] eqn:Hdraws. simpl in *.
        exists e'. split; [done|]. rewrite length_insert in Hlen.
        split; [done|]. split.
        { intros id_ Hid. rewrite Hkeep.
          - apply list_lookup_insert_ne. intros <-.
            destruct Hid as [Hid|Hid]; [|done].
            apply Hid. simpl. by apply elem_of_cons; left.
          - destruct Hid as [Hid|Hid]; [left|by right].
            intros Hin. apply Hid. simpl. by apply elem_of_cons; right. }
        split.
        { intros id_ symb v' Hin Hid Hget.
          apply elem_of_cons in Hin as [[= -> ->]|Hin]; [congruence|].
          by eapply Hpre. }
        intros [|j] id_ symb; simpl.
        -- intros [= <- <-]. rewrite Hkeep by by left.
           rewrite list_lookup_insert_eq by done. split; [done|lia].
        -- intros Hj. destruct (Hoov j id_ symb Hj) as [-> Hlt].
           split; [done|lia].
Qed.

Lemma inject_word_rep_unfold args w id_to_token weight path lines :
  arg_word_rep args = Some path → path ≠ EmptyString →
  word_rep_file w = Some lines →
  inject_word_rep args w id_to_token weight =
    fst <$> symbol_injection id_to_token 0 weight
              (text_source lines id_to_token)
              (norm_source (text_source lines id_to_token)
                 (arg_use_covariance args)).
Proof.
  intros Ha Hp Hw. unfold inject_word_rep. rewrite Ha, Hw.
  destruct path; [done|]. simpl.
  by destruct (symbol_injection _ _ _ _ _).
Qed.




(** C8.  The fallback source of [init_state] is seeded with the constant
    2.  Two executions with the same vocabulary and the same embedding
    file, in any two worlds and from any two initial matrices, give every
    out-of-vocabulary token the same vector: the j-th of them gets the
    j-th draw of the generator [np.random.RandomState(2)]. *)
Theorem fallback_vectors_are_reproducible (args : Args) (w1 w2 : World)
    (path : string) (lines : list (string * Vec))
    (id_to_token : dict nat string) (weight1 weight2 : list Vec) :
  arg_word_rep args = Some path → path ≠ EmptyString →
  word_rep_file w1 = Some lines →
  word_rep_file w2 = Some lines →
  NoDup id_to_token.*1 →
  (∀ id_, id_ ∈ id_to_token.*1 → id_ ≠ 0 → id_ < length weight1) →
  (∀ id_, id_ ∈ id_to_token.*1 → id_ ≠ 0 → id_ < length weight2) →
  let pre_trained := text_source lines id_to_token in
  let oov := oov_items id_to_token 0 pre_trained in
  let seeded :=
    {| norm_stats_of := get_norm_stats pre_trained (arg_use_covariance args);
       norm_rng := np_RandomState 2;
       norm_use_covariance := arg_use_covariance args |} in
  ∃ weight1' weight2',
    inject_word_rep args w1 id_to_token weight1 = Ok weight1'
    ∧ inject_word_rep args w2 id_to_token weight2 = Ok weight2'
    ∧ ∀ j id_ tok, oov !! j = Some (id_, tok) →
        ∃ v, (draws (length oov) seeded).1 !! j = Some v
             ∧ weight1' !! id_ = Some v
             ∧ weight2' !! id_ = Some v.
Proof.
  intros Ha Hp Hw1 Hw2 Hnd Hr1 Hr2 pre_trained oov seeded.
  destruct (symbol_injection_spec 0 pre_trained id_to_token weight1 seeded
              Hnd Hr1) as (weight1' & Hrun1 & _ & _ & _ & Hoov1).
  destruct (symbol_injection_spec 0 pre_trained id_to_token weight2 seeded
              Hnd Hr2) as (weight2' & Hrun2 & _ & _ & _ & Hoov2).
  fold oov in Hrun1, Hoov1, Hrun2, Hoov2.
  exists weight1', weight2'. split.
  { rewrite (inject_word_rep_unfold _ _ _ _ path lines) by done.
    fold pre_trained. unfold norm_source. fold seeded. by rewrite Hrun1. }
  split.
  { rewrite (inject_word_rep_unfold _ _ _ _ path lines) by done.
    fold pre_trained. unfold norm_source. fold seeded. by rewrite Hrun2. }
  intros j id_ tok Hj.
  destruct (Hoov1 j id_ tok Hj) as [Hrow1 Hlt].
  destruct (Hoov2 j id_ tok Hj) as [Hrow2 _].
  destruct (lookup_lt_is_Some_2 _ _ Hlt) as [v Hv].
  exists v. by rewrite Hrow1, Hrow2.
Qed.

End InjectionFacts.


Lemma fallback_vectors_are_reproducible_witness :
  ∃ weight1' weight2',
    Train.inject_word_rep Toy.word_rep_args (Toy.fresh_world None)
      Toy.vocabulary (replicate 7 [10%Z]) = Ok weight1'
    ∧ Train.inject_word_rep Toy.word_rep_args (Toy.fresh_world (Some 1%Z))
        Toy.vocabulary (replicate 8 [20%Z]) = Ok weight2'
    ∧ weight1' !! 1 = Some [2%Z] ∧ weight2' !! 1 = Some [2%Z].
Proof.
  destruct (fallback_vectors_are_reproducible Toy.word_rep_args
              (Toy.fresh_world None) (Toy.fresh_world (Some 1%Z)) "glove.txt"
              [("is", [5; 5]%Z); ("me", [6; 6]%Z)]
              Toy.vocabulary (replicate 7 [10%Z]) (replicate 8 [20%Z]))
    as (weight1' & weight2' & Hrun1 & Hrun2 & _);
    [done|done|done|done| | | |].
  - refine (bool_decide_unpack _ _). vm_compute. exact I.
  - intros id_ Hin _. simpl in Hin. set_unfold. simpl. lia.
  - intros id_ Hin _. simpl in Hin. set_unfold. simpl. lia.
  - exists weight1', weight2'. split; [done|]. split; [done|].
    vm_compute in Hrun1. vm_compute in Hrun2.
    simplify_eq. done.
Defined.

(** ** The epoch loop and its checkpoints *)

Section LoopFacts.
Context `{FW : Framework}.
Import Dataset Checkpointing Train.

Lemma completed_app l1 l2 : completed (l1 ++ l2) = completed l1 ++ completed l2.
Proof. apply omap_app. Qed.

Lemma checkpoint_stored model e optimizer w :
  stored (checkpoint model e optimizer w) e model optimizer.
Proof.
  unfold stored, checkpoint. eexists. split; [done|].
  split; [by rewrite lookup_insert_eq|]. split; [|done].
  rewrite lookup_insert_ne by done. by rewrite lookup_insert_eq.
Qed.

(** The step that ends an epoch writes its checkpoint. *)
Lemma step_end_of_epoch m e i :
  m_pc m = InTrain e i [] →
  ∃ m', step m = Some m' ∧ m_pc m' = LoopHead
        ∧ m_model m' = m_model m ∧ m_optimizer m' = m_optimizer m
        ∧ m_epochs m' = m_epochs m
        ∧ m_log m' = m_log m ++ [EndOfEpoch e]
        ∧ stored (m_world m') e (m_model m) (m_optimizer m).
Proof.
  intros Hpc. unfold step. rewrite Hpc. eexists. split; [done|].
  simpl. repeat split; try done. apply checkpoint_stored.
Qed.

(** No other step touches the checkpoint files or completes an epoch. *)
Lemma step_keeps_checkpoint m m' :
  step m = Some m' →
  (∀ e i, m_pc m ≠ InTrain e i []) →
  checkpoint_file (m_world m') = checkpoint_file (m_world m)
  ∧ checkpoint_opt (m_world m') = checkpoint_opt (m_world m)
  ∧ completed (m_log m') = completed (m_log m)
  ∧ (between_epochs m' →
       between_epochs m ∧ m_model m' = m_model m
       ∧ m_optimizer m' = m_optimizer m).
Proof.
  unfold step, between_epochs. intros Hstep Hnot.
  destruct (m_pc m) as [|e i [|b bs]|] eqn:Hpc.
  - destruct (next (m_epochs m)) as [[e it]|].
    + destruct (batches _ _) as [bs g]. injection Hstep as <-. simpl.
      rewrite completed_app. simpl. rewrite app_nil_r.
      split; [done|]. split; [done|]. split; [done|]. by intros [?|?].
    + injection Hstep as <-. simpl. rewrite app_nil_r.
      split; [done|]. split; [done|]. split; [done|].
      intros _. split; [by left|done].
  - by destruct (Hnot e i).
  - injection Hstep as <-. unfold train_on.
    destruct (train_batch _ _ _ _ _) as [[[? ?] ?] ?]. simpl.
    rewrite completed_app. simpl. rewrite app_nil_r.
    split; [done|]. split; [done|]. split; [done|]. by intros [?|?].
  - discriminate.
Qed.

Lemma classic_pc_end m :
  (∃ e i, m_pc m = InTrain e i []) ∨ (∀ e i, m_pc m ≠ InTrain e i []).
Proof.
  destruct (m_pc m) as [|e i [|b bs]|]; try by right.
  left. by exists e, i.
Qed.

Lemma stored_same_files w w' e model optimizer :
  checkpoint_file w' = checkpoint_file w →
  checkpoint_opt w' = checkpoint_opt w →
  stored w e model optimizer → stored w' e model optimizer.
Proof.
  intros Hf Ho (f & ? & ? & ? & ?). exists f. by rewrite Hf, Ho.
Qed.

Lemma step_checkpoint_inv m m' :
  step m = Some m' → checkpoint_inv m → checkpoint_inv m'.
Proof.
  intros Hstep Hinv.
  destruct (classic_pc_end m) as [(e & i & Hpc)|Hnot].
  - destruct (step_end_of_epoch m e i Hpc)
      as (m'' & Hs & _ & Hmodel & Hopt & _ & Hlog & Hst).
    rewrite Hstep in Hs. injection Hs as <-.
    intros e'. rewrite Hlog, completed_app. simpl. rewrite last_snoc.
    intros [= <-]. rewrite Hmodel, Hopt. split; [by eauto|done].
  - destruct (step_keeps_checkpoint m m' Hstep Hnot)
      as (Hf & Ho & Hc & Hbetween).
    intros e'. rewrite Hc. intros Hlast.
    destruct (Hinv e' Hlast) as [(model & optimizer & Hst) Hmem].
    split.
    + exists model, optimizer. by eapply stored_same_files.
    + intros Hb. destruct (Hbetween Hb) as (Hb' & -> & ->).
      eapply stored_same_files; eauto.
Qed.

Lemma exec_checkpoint_inv n : ∀ m, checkpoint_inv m → checkpoint_inv (exec n m).
Proof.
  induction n as [|n IH]; intros m Hinv; simpl; [done|].
  destruct (step m) as [m'|] eqn:Hstep; [|done].
  apply IH. by eapply step_checkpoint_inv.
Qed.

Lemma main_checkpoint_inv fuel args w m :
  main fuel args w = Ok m → checkpoint_inv m.
Proof.
  unfold main. destruct (main_setup args w) as [m0|] eqn:Hsetup; simpl;
    [|discriminate].
  intros [= <-]. apply exec_checkpoint_inv.
  apply main_setup_inv in Hsetup as (? & ? & ? & ? & _ & _ & _ & Hlog & _).
  intros e. by rewrite Hlog.
Qed.

End LoopFacts.

Lemma returns_Ok {A : Type} (r : result A) : returns r = true → ∃ a, r = Ok a.
Proof. destruct r; [by eauto|discriminate]. Defined.

(** ** A fresh run followed by a resume *)

Section RoundTripFacts.
Context `{FW : Framework}.
Import Dataset Checkpointing Train.

Lemma frame_refl m : frame m m.
Proof. by repeat split. Qed.

Lemma frame_trans m1 m2 m3 : frame m1 m2 → frame m2 m3 → frame m1 m3.
Proof.
  intros (? & ? & ? & ? & ? & ? & ? & H12) (? & ? & ? & ? & ? & ? & ? & H23).
  repeat split; try congruence.
  intros key Hk1 Hk2. rewrite H23, H12; done.
Qed.

Lemma step_frame m m' : step m = Some m' → frame m m'.
Proof.
  unfold step. destruct (m_pc m) as [|e i [|b bs]|].
  - destruct (next (m_epochs m)) as [[e it]|].
    + destruct (batches _ _) as [bs g]. intros [= <-]. by repeat split.
    + intros [= <-]. by repeat split.
  - intros [= <-]. repeat split; try done.
    intros key Hk1 Hk2. simpl. unfold checkpoint, h5py_File at 1. simpl.
    by rewrite !lookup_insert_ne.
  - intros [= <-]. unfold train_on.
    destruct (train_batch _ _ _ _ _) as [[[? ?] ?] ?]. by repeat split.
  - discriminate.
Qed.

Lemma exec_frame n : ∀ m, frame m (exec n m).
Proof.
  induction n as [|n IH]; intros m; simpl; [apply frame_refl|].
  destruct (step m) as [m'|] eqn:Hstep; [|apply frame_refl].
  eapply frame_trans; [by apply step_frame|apply IH].
Qed.

Lemma exec_returned n m : m_pc m = Returned → exec n m = m.
Proof.
  intros Hpc. destruct n; simpl; [done|]. unfold step. by rewrite Hpc.
Qed.

Lemma step_None m : step m = None → m_pc m = Returned.
Proof.
  unfold step. destruct (m_pc m) as [|e i [|b bs]|]; try done.
  destruct (next (m_epochs m)) as [[e it]|]; [|done].
  by destruct (batches _ _).
Qed.

Lemma exec_add a : ∀ b m, exec (a + b) m = exec b (exec a m).
Proof.
  induction a as [|a IH]; intros b m; simpl; [done|].
  destruct (step m) as [m'|] eqn:Hstep; [apply IH|].
  symmetry. apply exec_returned. by apply step_None.
Qed.

(** The batches of an epoch are consumed one step each. *)
Lemma train_rest bs : ∀ m e i,
  m_pc m = InTrain e i bs →
  ∃ i', m_pc (exec (length bs) m) = InTrain e i' []
        ∧ m_epochs (exec (length bs) m) = m_epochs m.
Proof.
  induction bs as [|b bs IH]; intros m e i Hpc; simpl.
  - by exists i.
  - unfold step. rewrite Hpc.
    destruct (IH (train_on m e i b bs) e (S i)) as (i' & Hpc' & Hit).
    { unfold train_on. by destruct (train_batch _ _ _ _ _) as [[[? ?] ?] ?]. }
    exists i'. split; [done|]. rewrite Hit. unfold train_on.
    by destruct (train_batch _ _ _ _ _) as [[[? ?] ?] ?].
Qed.

(** One turn of the loop: an epoch is trained and checkpointed. *)
Lemma run_epoch m a N :
  m_pc m = LoopHead → m_epochs m = range a N → (a < N)%Z →
  ∃ k, m_pc (exec k m) = LoopHead
       ∧ m_epochs (exec k m) = range (a + 1) N
       ∧ stored (m_world (exec k m)) a (m_model (exec k m))
           (m_optimizer (exec k m)).
Proof.
  intros Hpc Hit Hlt.
  assert (Hnext : next (m_epochs m) = Some (a, range (a + 1) N)).
  { rewrite Hit. simpl. by apply Z.ltb_lt in Hlt as ->. }
  destruct (batches (m_data m) (np_random (m_world m))) as [bs g] eqn:Hbs.
  set (m1 := goto m (InTrain a 0 bs) (range (a + 1) N)
               (with_random (m_world m) g (torch_random (m_world m)))
               [StartingEpoch a]).
  assert (Hstep : step m = Some m1).
  { unfold step. by rewrite Hpc, Hnext, Hbs. }
  destruct (train_rest bs m1 a 0 eq_refl) as (i' & Hpc2 & Hit2).
  destruct (step_end_of_epoch _ a i' Hpc2)
    as (m3 & Hstep3 & Hpc3 & Hmodel & Hopt & Hit3 & _ & Hst).
  assert (Hk : exec (1 + (length bs + 1)) m = m3).
  { rewrite exec_add.
    replace (exec 1 m) with m1 by (simpl; by rewrite Hstep).
    rewrite exec_add. simpl. by rewrite Hstep3. }
  exists (1 + (length bs + 1)). rewrite Hk.
  split; [done|]. split; [by rewrite Hit3, Hit2|].
  by rewrite Hmodel, Hopt.
Qed.

(** The loop over a non-empty range runs to its end and returns, the
    checkpoint of the last epoch written. *)
Lemma run_loop d : ∀ m a N,
  m_pc m = LoopHead → m_epochs m = range a N → (a < N)%Z →
  Z.to_nat (N - a) = S d →
  ∃ k, m_pc (exec k m) = Returned
       ∧ stored (m_world (exec k m)) (N - 1) (m_model (exec k m))
           (m_optimizer (exec k m)).
Proof.
  induction d as [|d IH]; intros m a N Hpc Hit Hlt Hd.
  - destruct (run_epoch m a N Hpc Hit Hlt) as (k & Hpc1 & Hit1 & Hst).
    exists (k + 1). rewrite exec_add. simpl. unfold step.
    rewrite Hpc1, Hit1. simpl.
    assert (a + 1 = N)%Z as <- by lia.
    rewrite Z.ltb_irrefl. simpl.
    split; [done|]. by replace (a + 1 - 1)%Z with a by lia.
  - destruct (run_epoch m a N Hpc Hit Hlt) as (k & Hpc1 & Hit1 & Hst).
    destruct (IH (exec k m) (a + 1)%Z N Hpc1 Hit1) as (k' & Hret & Hst');
      [lia..|].
    exists (k + k'). by rewrite exec_add.
Qed.

(** The two vocabularies of a fresh run come from the tokenization of
    the data file. *)
Lemma init_state_inv config args w model id_to_token id_to_char optimizer
    data torch' :
  init_state config args w
    = Ok (model, id_to_token, id_to_char, optimizer, data, torch') →
  ∃ raw bidaf t examples token_to_id char_to_id,
    data_file w = Some raw
    ∧ tokenize_data (load_data raw) [(EmptyString, 0)] [(EmptyString, 0)] None
        = (examples, token_to_id, char_to_id)
    ∧ id_to_token = inverted token_to_id
    ∧ id_to_char = inverted char_to_id
    ∧ cfg_bidaf config = Some bidaf
    ∧ cfg_training config = Some t
    ∧ optimizer = new_optimizer t
    ∧ on_cuda model = use_cuda args w
    ∧ in_training_mode model = true.
Proof.
  unfold init_state.
  destruct (data_file w) as [raw|]; simpl; [|discriminate].
  destruct (tokenize_data _ _ _ _) as [[d t] c] eqn:Htok.
  destruct (getitem t SOS_TOKEN); simpl; [|discriminate].
  destruct (getitem t EOS_TOKEN); simpl; [|discriminate].
  destruct (cfg_bidaf config) as [bidaf|]; simpl; [|discriminate].
  destruct (from_config _ _ _ _ _ _) as [[? ?] ?].
  destruct (inject_word_rep _ _ _ _); simpl; [|discriminate].
  unfold get_optimizer, training_section.
  destruct (cfg_training config) as [tr|]; simpl; [|discriminate].
  intros [= <- <- <- <- _ _].
  exists raw, bidaf, tr, d, t, c. repeat split; try done.
  by destruct (use_cuda args w).
Qed.

Lemma load_state_dict_state_dict (o o' : Optimizer) :
  load_state_dict o' (state_dict o) = o.
Proof. by destruct o. Qed.

Lemma main_setup_resume args w config f ts epoch model i2t i2c opt data :
  config_yaml w = Some config →
  try_to_resume (arg_force_restart args) w = Ok (Some f, ts, epoch) →
  reload_state f ts config args w = Ok (model, i2t, i2c, opt, data) →
  ∃ m, main_setup args w = Ok m
       ∧ m_pc m = LoopHead ∧ m_epochs m = epochs_from config epoch
       ∧ m_model m = model ∧ m_optimizer m = opt
       ∧ m_id_to_token m = i2t ∧ m_id_to_char m = i2c
       ∧ m_world m = w ∧ m_log m = [].
Proof.
  intros Hc Ht Hr. unfold main_setup. rewrite Hc. simpl. rewrite Ht. simpl.
  rewrite Hr. simpl. eexists. split; [done|]. by repeat split.
Qed.

(** A loop over an empty range returns at once and changes nothing. *)
Lemma exec_empty_range m N fuel :
  m_pc m = LoopHead → m_epochs m = range N N → m_log m = [] →
  m_log (exec fuel m) = []
  ∧ m_model (exec fuel m) = m_model m
  ∧ m_id_to_token (exec fuel m) = m_id_to_token m
  ∧ m_id_to_char (exec fuel m) = m_id_to_char m
  ∧ m_world (exec fuel m) = m_world m
  ∧ (0 < fuel → m_pc (exec fuel m) = Returned).
Proof.
  intros Hpc Hit Hlog. destruct fuel as [|fuel]; simpl.
  - repeat split; try done. lia.
  - unfold step. rewrite Hpc, Hit. simpl. rewrite Z.ltb_irrefl.
    rewrite exec_returned by done. simpl. rewrite Hlog.
    by repeat split.
Qed.

(** C5, as the code has it.  For every [N] of at least 1: when a fresh
    run (no checkpoint in the folder) for [N] configured epochs has
    started, it returns after its [N] epochs with the checkpoint of epoch
    [N - 1] written; and when re-tokenizing the data adds nothing to the
    saved vocabularies, every later run with the same arguments on the
    folder it left, whatever the state of the random generators, resumes
    at epoch [N], finds the range of epochs empty, takes no training
    step, starts no epoch, and has the model (weights and flags) and the
    two vocabularies of the end of the first run, the folder unchanged. *)
Theorem resume_after_last_epoch_trains_nothing (args : Args) (w : World)
    (config : Config) (raw : RawData) (N : Z) (m0 : Machine)
    (g : NpRng) (t : TorchRng) :
  arg_force_restart args = false →
  checkpoint_file w = None →
  config_yaml w = Some config →
  training_get config cfg_epochs = Some N →
  (1 ≤ N)%Z →
  data_file w = Some raw →
  vocabulary_is_stable config raw →
  main_setup args w = Ok m0 →
  ∃ fuel m1,
    main fuel args w = Ok m1
    ∧ m_pc m1 = Returned
    ∧ stored (m_world m1) (N - 1) (m_model m1) (m_optimizer m1)
    ∧ ∀ fuel2, ∃ m2,
        main fuel2 args (with_random (m_world m1) g t) = Ok m2
        ∧ m_epochs m2 = range N N
        ∧ train_steps (m_log m2) = 0
        ∧ started (m_log m2) = []
        ∧ m_model m2 = m_model m1
        ∧ m_id_to_token m2 = m_id_to_token m1
        ∧ m_id_to_char m2 = m_id_to_char m1
        ∧ m_world m2 = with_random (m_world m1) g t
        ∧ (0 < fuel2 → m_pc m2 = Returned).
Proof.
  intros Hforce Hnone Hcfg Hepochs HN Hraw Hstable Hsetup.
  assert (Htry0 : try_to_resume (arg_force_restart args) w
                  = Ok (None, None, 0%Z)).
  { unfold try_to_resume. by rewrite Hforce, Hnone. }
  pose proof Hsetup as Hm0. rewrite (main_setup_fresh _ _ Htry0), Hcfg in Hm0.
  simpl in Hm0.
  destruct (init_state config args w)
    as [[[[[[model i2t] i2c] opt] data] torch']|] eqn:Hinit;
    simpl in Hm0; [|discriminate].
  apply init_state_inv in Hinit
    as (raw' & bidaf & tr & ex & tok & chr & Hraw' & Htok & -> & -> & Hbidaf
        & Htr & -> & Hcuda & Hmode).
  assert (raw' = raw) as -> by congruence.
  injection Hm0 as Hm0.
  (* the first run *)
  assert (Hpc0 : m_pc m0 = LoopHead) by by rewrite <- Hm0.
  assert (Hit0 : m_epochs m0 = range 0 N).
  { rewrite <- Hm0. simpl. unfold epochs_from. by rewrite Hepochs. }
  destruct (run_loop (Z.to_nat N - 1) m0 0%Z N Hpc0 Hit0) as (k & Hret & Hst);
    [lia..|].
  pose proof (exec_frame k m0)
    as (Hf1 & Hf2 & Hf3 & Hf4 & Hf5 & Hf6 & Hf7 & Hf8).
  set (m1 := exec k m0) in *.
  exists k, m1. split; [by unfold main; rewrite Hsetup|].
  split; [done|]. split; [done|].
  (* the folder it leaves *)
  destruct Hst as (f & Hfile & Hepoch & Hmodel & Hopt).
  assert (Hh5 : h5py_File (m_world m1) = f).
  { unfold h5py_File. by rewrite Hfile. }
  assert (Hvocab : f !! "vocab" = Some (H5Vocab (inverted tok))).
  { rewrite <- Hh5, Hf8 by done. rewrite <- Hm0. simpl.
    unfold h5py_File at 1. simpl. unfold save_vocab.
    rewrite lookup_insert_ne by done. by rewrite lookup_insert_eq. }
  assert (Hcvocab : f !! "c_vocab" = Some (H5Vocab (inverted chr))).
  { rewrite <- Hh5, Hf8 by done. rewrite <- Hm0. simpl.
    unfold h5py_File at 1. simpl. unfold save_vocab.
    by rewrite lookup_insert_eq. }
  assert (Hcfg1 : config_yaml (m_world m1) = Some config).
  { rewrite Hf5, <- Hm0. done. }
  assert (Hraw1 : data_file (m_world m1) = Some raw).
  { rewrite Hf6, <- Hm0. done. }
  assert (Hcuda1 : use_cuda args (with_random (m_world m1) g t)
                   = use_cuda args w).
  { unfold use_cuda. simpl. rewrite Hf7, <- Hm0. done. }
  intros fuel2.
  set (w' := with_random (m_world m1) g t) in *.
  (* the second run resumes *)
  assert (Htry : try_to_resume (arg_force_restart args) w'
                 = Ok (Some f, Some (state_dict (m_optimizer m1)),
                       (N - 1 + 1)%Z)).
  { rewrite Hforce, (try_to_resume_stored w' f (N - 1)) by done.
    simpl. by rewrite Hopt. }
  assert (Hfrom : from_checkpoint bidaf f
                  = Ok ({| embeddings_weight := embeddings_weight (m_model m1);
                           other_params := other_params (m_model m1);
                           on_cuda := false; in_training_mode := true |},
                        inverted tok, inverted chr)).
  { unfold from_checkpoint, read_vocab, gmap_getitem.
    rewrite Hvocab. simpl. rewrite Hcvocab. simpl. by rewrite Hmodel. }
  assert (Hmodel1 :
            train_mode
              (if use_cuda args w'
               then cuda {| embeddings_weight := embeddings_weight (m_model m1);
                            other_params := other_params (m_model m1);
                            on_cuda := false; in_training_mode := true |}
               else {| embeddings_weight := embeddings_weight (m_model m1);
                       other_params := other_params (m_model m1);
                       on_cuda := false; in_training_mode := true |})
            = m_model m1).
  { rewrite Hcuda1.
    assert (Hc : on_cuda (m_model m1) = use_cuda args w).
    { rewrite Hf3, <- Hm0. done. }
    assert (Hm : in_training_mode (m_model m1) = true).
    { rewrite Hf4, <- Hm0. done. }
    destruct (m_model m1) as [e p c md]. simpl in Hc, Hm. rewrite Hc, Hm.
    by destruct (use_cuda args w). }
  assert (Hreload : ∃ data2,
            reload_state f (Some (state_dict (m_optimizer m1))) config args w'
            = Ok (m_model m1, inverted tok, inverted chr, m_optimizer m1,
                  data2)).
  { rewrite reload_state_unfold, Hbidaf. simpl. rewrite Hfrom. simpl.
    rewrite (get_optimizer_configured _ _ tr) by done. simpl.
    rewrite load_state_dict_state_dict, Hmodel1.
    unfold reload_rest. simpl. rewrite Hraw1. simpl.
    unfold vocabulary_is_stable in Hstable. rewrite Htok in Hstable.
    destruct (tokenize_data _ _ _ _) as [[ex2 tok2] chr2].
    destruct Hstable as [-> ->]. rewrite !Nat.eqb_refl. simpl. by eauto. }
  destruct Hreload as [data2 Hreload].
  destruct (main_setup_resume args w' config f _ _ _ _ _ _ _
              Hcfg1 Htry Hreload)
    as (m2 & Hsetup2 & Hpc2 & Hit2 & Hmod2 & Hopt2 & Hi2t & Hi2c & Hw2 & Hlog2).
  assert (Hrange : m_epochs m2 = range N N).
  { rewrite Hit2. unfold epochs_from. rewrite Hepochs. f_equal. lia. }
  destruct (exec_empty_range m2 N fuel2 Hpc2 Hrange Hlog2)
    as (Hl & Hmo & Ht1 & Ht2 & Hwo & Hp).
  exists (exec fuel2 m2). split; [by unfold main; rewrite Hsetup2|].
  split.
  { destruct fuel2; simpl; [done|]. unfold step. rewrite Hpc2, Hrange.
    simpl. rewrite Z.ltb_irrefl. by rewrite exec_returned. }
  rewrite Hl, Hmo, Ht1, Ht2, Hwo, Hmod2, Hi2t, Hi2c, Hw2, Hf1, Hf2.
  rewrite <- Hm0. done.
Qed.

End RoundTripFacts.

Lemma main_raises `{FW : Framework} fuel args w e :
  Train.main_setup args w = Raise e → Train.main fuel args w = Raise e.
Proof. intros H. unfold Train.main. by rewrite H. Qed.

(** With 0 configured epochs the claim of C5 fails: the fresh run returns
    without a training step and leaves a checkpoint file that holds the
    two vocabularies and no epoch; the data re-tokenizes without a new
    entry; and every later run on that folder raises [KeyError] in
    [try_to_resume] instead of resuming. *)
Lemma resume_after_zero_epochs_raises :
  let w := Toy.fresh_world (Some 0%Z) in
  let w1 := Toy.world_after (Train.main 5 Toy.plain_args w) w in
  Train.m_pc <$> Train.main 5 Toy.plain_args w = Ok Train.Returned
  ∧ (train_steps ∘ Train.m_log) <$> Train.main 5 Toy.plain_args w = Ok 0
  ∧ vocabulary_is_stable (Toy.config_for (Some 0%Z) (Some 2)) Toy.corpus
  ∧ returns (Train.read_epoch (h5py_File w1)) = false
  ∧ ∀ fuel2, Train.main fuel2 Toy.plain_args w1 = Raise KeyError.
Proof.
  split; [vm_compute; reflexivity|]. split; [vm_compute; reflexivity|].
  split; [vm_compute; split; reflexivity|].
  split; [vm_compute; reflexivity|].
  intros fuel2. apply main_raises. vm_compute. reflexivity.
Qed.

Lemma resume_after_last_epoch_trains_nothing_witness :
  ∃ fuel m1,
    Train.main fuel Toy.plain_args (Toy.fresh_world (Some 2%Z)) = Ok m1
    ∧ Train.m_pc m1 = Train.Returned
    ∧ ∀ fuel2, ∃ m2,
        Train.main fuel2 Toy.plain_args
          (@with_random Toy.toy (Train.m_world m1) 0 0) = Ok m2
        ∧ train_steps (Train.m_log m2) = 0
        ∧ Train.m_model m2 = Train.m_model m1
        ∧ Train.m_id_to_token m2 = Train.m_id_to_token m1.
Proof.
  destruct (returns_Ok
              (Train.main_setup Toy.plain_args (Toy.fresh_world (Some 2%Z))))
    as [m0 Hm0]; [vm_compute; reflexivity|].
  destruct (@resume_after_last_epoch_trains_nothing Toy.toy Toy.plain_args
              (Toy.fresh_world (Some 2%Z)) (Toy.config_for (Some 2%Z) (Some 2))
              Toy.corpus 2%Z m0 0 0)
    as (fuel & m1 & Hrun & Hret & _ & Hagain);
    [reflexivity | reflexivity | reflexivity | reflexivity | lia
    | reflexivity | vm_compute; split; reflexivity | exact Hm0 |].
  exists fuel, m1. split; [done|]. split; [done|].
  intros fuel2.
  destruct (Hagain fuel2) as (m2 & H1 & _ & H2 & _ & H3 & H4 & _).
  by exists m2.
Defined.

(** ** The vocabulary builder of the small instance *)

Section BuilderFacts.
Import Toy.

Lemma get_app_Some {V : Type} (d d' : dict string V) k v :
  get d k = Some v → get (d ++ d') k = Some v.
Proof.
  induction d as [|[k' v'] d IH]; simpl; [done|].
  destruct (decide (k = k')); [done|apply IH].
Qed.

Lemma get_app_None {V : Type} (d d' : dict string V) k :
  get d k = None → get (d ++ d') k = get d' k.
Proof.
  induction d as [|[k' v'] d IH]; simpl; [done|].
  destruct (decide (k = k')); [done|apply IH].
Qed.

Lemma get_None_keys {K V : Type} `{!EqDecision K} (d : dict K V) k :
  get d k = None ↔ k ∉ d.*1.
Proof.
  induction d as [|[k' v'] d IH]; simpl.
  - split; [intros _; apply not_elem_of_nil|done].
  - rewrite not_elem_of_cons. destruct (decide (k = k')); [|by rewrite IH; tauto].
    split; [done|tauto].
Qed.

Lemma extends_refl vocab : extends vocab vocab.
Proof. exists []. by rewrite app_nil_r. Qed.

Lemma extends_trans v1 v2 v3 : extends v1 v2 → extends v2 v3 → extends v1 v3.
Proof. intros [m1 ->] [m2 ->]. exists (m1 ++ m2). by rewrite app_assoc. Qed.

Lemma extends_known v v' k : extends v v' → known v k → known v' k.
Proof. intros [more ->] [i Hi]. exists i. by apply get_app_Some. Qed.

Lemma setdefault_known vocab token :
  known vocab token → (setdefault vocab token).2 = vocab.
Proof. intros [i Hi]. unfold setdefault. by rewrite Hi. Qed.

Lemma setdefault_spec vocab token :
  well_formed vocab →
  well_formed (setdefault vocab token).2
  ∧ extends vocab (setdefault vocab token).2
  ∧ known (setdefault vocab token).2 token.
Proof.
  intros [Hnd Hids]. unfold setdefault, known.
  destruct (get vocab token) as [i|] eqn:Hget; simpl.
  - split; [done|]. split; [apply extends_refl|]. by rewrite Hget.
  - split; [|split].
    + split.
      * rewrite fmap_app. simpl. apply NoDup_app. split; [done|].
        split; [|apply NoDup_singleton].
        intros k Hk ->%list_elem_of_singleton.
        by apply get_None_keys in Hget.
      * rewrite fmap_app, length_app, Hids. simpl.
        by rewrite Nat.add_1_r, seq_S.
    + by eexists.
    + rewrite get_app_None by done. simpl. rewrite decide_True by done.
      by eexists.
Qed.

Lemma tokenize_chars_spec s : ∀ c_vocab,
  well_formed c_vocab →
  well_formed (tokenize_chars s c_vocab)
  ∧ extends c_vocab (tokenize_chars s c_vocab)
  ∧ chars_known (tokenize_chars s c_vocab) s.
Proof.
  induction s as [|c s IH]; intros c_vocab Hwf; simpl.
  - split; [done|]. split; [apply extends_refl|]. by intros c [].
  - destruct (setdefault_spec c_vocab (String c EmptyString) Hwf)
      as (Hwf1 & Hext1 & Hk1).
    destruct (IH _ Hwf1) as (Hwf2 & Hext2 & Hk2).
    split; [done|]. split; [by eapply extends_trans|].
    intros c' [<-|Hin]; [by eapply extends_known|by apply Hk2].
Qed.

Lemma tokenize_chars_known s : ∀ c_vocab,
  chars_known c_vocab s → tokenize_chars s c_vocab = c_vocab.
Proof.
  induction s as [|c s IH]; intros c_vocab Hk; simpl; [done|].
  rewrite setdefault_known by (apply Hk; by left).
  apply IH. intros c' Hin. apply Hk. by right.
Qed.

Lemma words_known_extends v c v' c' words :
  extends v v' → extends c c' →
  words_known v c words → words_known v' c' words.
Proof.
  intros Hv Hc Hall. eapply Forall_impl; [exact Hall|].
  intros word [Hk Hck]. simpl.
  split; [by eapply extends_known|].
  intros ch Hin. eapply extends_known; [done|by apply Hck].
Qed.

Lemma tokenize_words_spec words : ∀ vocab c_vocab,
  well_formed vocab → well_formed c_vocab →
  let r := tokenize_words words vocab c_vocab in
  well_formed r.1.2 ∧ well_formed r.2
  ∧ extends vocab r.1.2 ∧ extends c_vocab r.2
  ∧ words_known r.1.2 r.2 words.
Proof.
  induction words as [|word words IH]; intros vocab c_vocab Hv Hc; simpl.
  - split; [done|]. split; [done|]. split; [apply extends_refl|].
    split; [apply extends_refl|]. constructor.
  - destruct (setdefault_spec vocab word Hv) as (Hv1 & He1 & Hk1).
    destruct (setdefault vocab word) as [i vocab1]. simpl in *.
    destruct (tokenize_chars_spec word c_vocab Hc) as (Hc1 & Hce1 & Hck1).
    destruct (IH vocab1 (tokenize_chars word c_vocab) Hv1 Hc1)
      as (Hv2 & Hc2 & He2 & Hce2 & Hk2).
    destruct (tokenize_words words vocab1 _) as [[ids vocab2] c_vocab2].
    simpl in *. split; [done|]. split; [done|].
    split; [by eapply extends_trans|]. split; [by eapply extends_trans|].
    constructor; [|done]. split; [by eapply extends_known|].
    intros ch Hin. eapply extends_known; [done|by apply Hck1].
Qed.

Lemma tokenize_words_known words : ∀ vocab c_vocab,
  words_known vocab c_vocab words →
  (tokenize_words words vocab c_vocab).1.2 = vocab
  ∧ (tokenize_words words vocab c_vocab).2 = c_vocab.
Proof.
  induction words as [|word words IH]; intros vocab c_vocab Hk; simpl; [done|].
  inversion Hk as [|? ? [Hw Hc] Hrest]; subst.
  pose proof (setdefault_known vocab word Hw) as Hs.
  destruct (setdefault vocab word) as [i vocab1]. simpl in Hs. subst vocab1.
  rewrite tokenize_chars_known by done.
  destruct (IH vocab c_vocab Hrest) as [H1 H2].
  destruct (tokenize_words words vocab c_vocab) as [[ids v2] c2].
  by simpl in *.
Qed.

Lemma tokenize_records_spec data : ∀ vocab c_vocab,
  well_formed vocab → well_formed c_vocab →
  let r := tokenize_records data vocab c_vocab None in
  well_formed r.1.2 ∧ well_formed r.2
  ∧ extends vocab r.1.2 ∧ extends c_vocab r.2
  ∧ Forall (words_known r.1.2 r.2) data.
Proof.
  induction data as [|record data IH]; intros vocab c_vocab Hv Hc; simpl.
  - split; [done|]. split; [done|]. split; [apply extends_refl|].
    split; [apply extends_refl|]. constructor.
  - destruct (tokenize_words_spec record vocab c_vocab Hv Hc)
      as (Hv1 & Hc1 & He1 & Hce1 & Hk1).
    destruct (tokenize_words record vocab c_vocab) as [[ids vocab1] c_vocab1].
    simpl in *.
    destruct (IH vocab1 c_vocab1 Hv1 Hc1) as (Hv2 & Hc2 & He2 & Hce2 & Hk2).
    destruct (tokenize_records data vocab1 c_vocab1 None)
      as [[exs vocab2] c_vocab2].
    simpl in *. split; [done|]. split; [done|].
    split; [by eapply extends_trans|]. split; [by eapply extends_trans|].
    constructor; [|done]. by eapply words_known_extends.
Qed.

Lemma tokenize_records_known data limit : ∀ vocab c_vocab,
  Forall (words_known vocab c_vocab) data →
  (tokenize_records data vocab c_vocab limit).1.2 = vocab
  ∧ (tokenize_records data vocab c_vocab limit).2 = c_vocab.
Proof.
  induction data as [|record data IH]; intros vocab c_vocab Hk; simpl; [done|].
  inversion Hk as [|? ? Hrec Hrest]; subst.
  destruct (over_limit limit record); [by apply IH|].
  destruct (tokenize_words_known record vocab c_vocab Hrec) as [H1 H2].
  destruct (tokenize_words record vocab c_vocab) as [[ids v1] c1].
  simpl in *. subst.
  destruct (IH vocab c_vocab Hrest) as [H1 H2].
  destruct (tokenize_records data vocab c_vocab limit) as [[exs v2] c2].
  by simpl in *.
Qed.

Lemma set_fresh {K V : Type} `{!EqDecision K} (d : dict K V) k v :
  k ∉ d.*1 → set d k v = d ++ [(k, v)].
Proof.
  induction d as [|[k' v'] d IH]; simpl; [done|].
  rewrite not_elem_of_cons. intros [Hne Hnot].
  rewrite decide_False by done. by rewrite IH.
Qed.

Lemma inverted_go {K V : Type} `{!EqDecision V} (d : dict K V) :
  ∀ acc : dict V K,
  NoDup (acc.*1 ++ d.*2) →
  foldl (fun acc kv => set acc kv.2 kv.1) acc d
    = acc ++ (prod_swap <$> d).
Proof.
  induction d as [|[k v] d IH]; intros acc Hnd; simpl.
  - by rewrite app_nil_r.
  - rewrite set_fresh.
    + rewrite IH.
      * by rewrite <- app_assoc.
      * rewrite fmap_app. simpl. by rewrite <- app_assoc.
    + apply NoDup_app in Hnd as (_ & Hdis & _).
      intros Hin. apply (Hdis v Hin). simpl. by left.
Qed.

Lemma inverted_swap {K V : Type} `{!EqDecision V} (d : dict K V) :
  NoDup d.*2 → inverted d = prod_swap <$> d.
Proof. intros Hnd. unfold inverted. by rewrite inverted_go. Qed.

(** Inverting twice a dictionary that is one-to-one gives it back. *)
Lemma inverted_inverted {K V : Type} `{!EqDecision K, !EqDecision V}
    (d : dict K V) :
  NoDup d.*1 → NoDup d.*2 → inverted (inverted d) = d.
Proof.
  intros Hk Hv. rewrite (inverted_swap d) by done.
  rewrite inverted_swap.
  - rewrite <- list_fmap_compose. rewrite <- (list_fmap_id d) at 2.
    apply list_fmap_ext. by intros i [? ?].
  - rewrite <- list_fmap_compose.
    replace (snd ∘ prod_swap) with (@fst K V); [done|].
    done.
Qed.

Lemma well_formed_inverted vocab :
  well_formed vocab → inverted (inverted vocab) = vocab.
Proof.
  intros [Hnd Hids]. apply inverted_inverted; [done|].
  rewrite Hids. apply NoDup_seq.
Qed.

Lemma well_formed_initial : well_formed [(EmptyString, 0)].
Proof. split; [|done]. simpl. apply NoDup_singleton. Qed.

(** The vocabulary builder satisfies the stability that the resume
    relies on, for every data file and every limit. *)
Lemma toy_vocabulary_is_stable (config : Config) (raw : list (list string)) :
  @vocabulary_is_stable toy config raw.
Proof.
  unfold vocabulary_is_stable. simpl. unfold toy_tokenize.
  destruct (setdefault_spec [(EmptyString, 0)] "<sos>" well_formed_initial)
    as (Hv1 & _ & Hsos).
  destruct (setdefault_spec _ "<eos>" Hv1) as (Hv2 & Heos_ext & Heos).
  destruct (tokenize_records_spec raw _ _ Hv2 well_formed_initial)
    as (Hv3 & Hc3 & He3 & _ & Hk3).
  destruct (tokenize_records raw _ _ None) as [[exs vocab] c_vocab].
  simpl in *.
  rewrite !well_formed_inverted by done.
  assert (Hsos' : known vocab "<sos>").
  { eapply extends_known; [done|]. by eapply extends_known. }
  assert (Heos' : known vocab "<eos>") by by eapply extends_known.
  rewrite (setdefault_known vocab "<sos>") by done.
  rewrite (setdefault_known vocab "<eos>") by done.
  destruct (tokenize_records_known raw (Train.training_get config cfg_limit)
              vocab c_vocab Hk3) as [H1 H2].
  destruct (tokenize_records raw vocab c_vocab _) as [[exs' v'] c'].
  simpl in *. by subst.
Qed.

End BuilderFacts.

(** ** Runs of the definitions *)

Section Examples.
Import Toy.

Example split_example :
  Glove.split " who  is	it? " = ["who"; "is"; "it?"].
Proof. reflexivity. Qed.

(** The pattern deletes no ordinary punctuation: it only matches a
    character of the bracket expression followed by the literal tail. *)
Example re_sub_keeps_punctuation : Glove.re_sub "it?" = "it?".
Proof. reflexivity. Qed.

Example re_sub_deletes_a_match :
  Glove.re_sub
    (String "x" (String "1" (String ":" (String ";"
       (String (ascii_of_nat 34) ">/<,q~]y")))))
  = "xy".
Proof. reflexivity. Qed.

Definition small_glove : gmap string (list Z) :=
  <["a" := [1; 2]%Z]> (<["b" := [10; 20]%Z]> (<["c" := [7]%Z]> ∅)).

Example embedding_example :
  Glove.embedding Z 0%Z Z.add ["a b"; "zz"; "c"; ""] small_glove
  = Ok (Glove.Arr2 4 2 [[11; 22]; [0; 0]; [7; 7]; [0; 0]]%Z).
Proof. vm_compute. reflexivity. Qed.

Example embedding_without_a :
  Glove.embedding Z 0%Z Z.add [] (delete "a" small_glove) = Raise KeyError.
Proof. vm_compute. reflexivity. Qed.

Example embedding_shape_mismatch :
  Glove.embedding Z 0%Z Z.add ["b c"] small_glove = Raise ValueError.
Proof. vm_compute. reflexivity. Qed.

(** [trained_world] is the folder that a fresh run of two epochs leaves. *)
Example trained_world_is_reached :
  let w := world_after (Train.main 50 plain_args (fresh_world (Some 2%Z)))
             (fresh_world (Some 2%Z)) in
  (h5py_File w !! "vocab", h5py_File w !! "c_vocab",
   h5py_File w !! "training/epoch", h5py_File w !! "training/model",
   checkpoint_opt w, np_random w, torch_random w)
  = (trained_checkpoint !! "vocab", trained_checkpoint !! "c_vocab",
     trained_checkpoint !! "training/epoch",
     trained_checkpoint !! "training/model",
     checkpoint_opt trained_world, np_random trained_world,
     torch_random trained_world).
Proof. vm_compute. reflexivity. Qed.

Example fresh_run_log :
  Train.m_log <$> Train.main 50 plain_args (fresh_world (Some 2%Z))
  = Ok [Train.StartingEpoch 0; Train.TrainStep 0 0; Train.TrainStep 0 1;
        Train.EndOfEpoch 0; Train.StartingEpoch 1; Train.TrainStep 1 0;
        Train.TrainStep 1 1; Train.EndOfEpoch 1].
Proof. vm_compute. reflexivity. Qed.

Example resumed_run_log :
  Train.m_log <$> Train.main 50 plain_args extended_world
  = Ok [Train.StartingEpoch 2; Train.TrainStep 2 0; Train.TrainStep 2 1;
        Train.EndOfEpoch 2; Train.StartingEpoch 3; Train.TrainStep 3 0;
        Train.TrainStep 3 1; Train.EndOfEpoch 3].
Proof. vm_compute. reflexivity. Qed.

Example injected_embeddings :
  Train.inject_word_rep word_rep_args (fresh_world None) vocabulary
    (replicate 7 [10%Z])
  = Ok [[10]; [2]; [3]; [4]; [5; 5]; [5]; [6; 6]]%Z.
Proof. vm_compute. reflexivity. Qed.

End Examples.

(** * Further properties *)

(** ** Glove.py: splitting, the substitution, the rows and the loaders *)

Section GloveMore.
Import Glove.

Lemma chars_rev_app s : ∀ acc,
  chars (string_rev_app s acc) = rev (chars s) ++ chars acc.
Proof.
  induction s as [|c s IH]; intros acc; simpl; [done|].
  rewrite IH. simpl. by rewrite <- app_assoc.
Qed.

Lemma chars_inj s1 s2 : chars s1 = chars s2 → s1 = s2.
Proof.
  revert s2. induction s1 as [|c s1 IH]; intros [|c' s2]; simpl; try done.
  intros [= -> H]. f_equal. by apply IH.
Qed.

Lemma flush_words cur k :
  Forall (fun c => is_space c = false) (chars cur) →
  Forall is_word k → Forall is_word (flush cur k).
Proof.
  intros Hcur Hk. destruct cur as [|c cur]; simpl; [done|].
  constructor; [|done]. split.
  - intros Hempty. apply (f_equal chars) in Hempty.
    rewrite chars_rev_app in Hempty. simpl in Hempty.
    by destruct (rev (chars cur)).
  - rewrite chars_rev_app. inversion Hcur; subst.
    apply Forall_app. split; [by apply Forall_rev|by repeat constructor].
Qed.

Lemma split_go_words s : ∀ cur,
  Forall (fun c => is_space c = false) (chars cur) →
  Forall is_word (split_go s cur).
Proof.
  induction s as [|c s IH]; intros cur Hcur; simpl.
  - by apply flush_words.
  - destruct (is_space c) eqn:Hc.
    + apply flush_words; [done|]. by apply IH.
    + apply IH. simpl. by constructor.
Qed.

(** [split] returns words only: none of them is empty and none holds a
    whitespace character. *)
Theorem split_gives_words (s : string) : Forall is_word (split s).
Proof. by apply split_go_words. Qed.

Lemma split_go_no_space s : ∀ cur,
  Forall (fun c => is_space c = false) (chars s) →
  split_go s cur = flush (string_rev_app s cur) [].
Proof.
  induction s as [|c s IH]; intros cur Hs; simpl; [done|].
  inversion Hs as [|? ? Hc Hrest]; subst. rewrite Hc. by apply IH.
Qed.

(** A word is split into itself. *)
Theorem split_of_a_word (w : string) : is_word w → split w = [w].
Proof.
  intros [Hne Hw]. unfold split. rewrite split_go_no_space by done.
  destruct w as [|c w]; [done|].
  assert (Hrev : ∀ s, string_rev_app (string_rev_app s EmptyString) EmptyString
                      = s).
  { intros s. apply chars_inj. rewrite !chars_rev_app. simpl.
    rewrite !app_nil_r. apply rev_involutive. }
  destruct (string_rev_app (String c w) EmptyString) as [|c' r] eqn:Hr.
  - apply (f_equal chars) in Hr. rewrite chars_rev_app in Hr. simpl in Hr.
    by destruct (rev (chars w)).
  - unfold flush. by rewrite <- Hr, Hrev.
Qed.

Lemma split_of_a_word_witness : split "it?" = ["it?"].
Proof.
  apply split_of_a_word. split; [done|]. repeat constructor.
Defined.

(** A match of the pattern has a colon as its second character. *)
Lemma match_pattern_colon s n :
  match_items pattern s = Some (S n) →
  ∃ c0 c1 s', s = String c0 (String c1 s') ∧ chr 58 c1 = true.
Proof.
  destruct s as [|c0 [|c1 s']]; simpl.
  - discriminate.
  - by destruct (in_class c0).
  - destruct (in_class c0); simpl; [|discriminate].
    destruct (chr 58 c1) eqn:Hc; [by eauto|discriminate].
Qed.

Lemma sub_go_no_colon s :
  Forall (fun c => chr 58 c = false) (chars s) → sub_go 0 s = s.
Proof.
  induction s as [|c s IH]; intros Hs; [done|].
  inversion Hs as [|? ? Hc Hrest]; subst.
  cbn [sub_go].
  destruct (match_items pattern (String c s)) as [[|k]|] eqn:Hm.
  - by rewrite IH.
  - apply match_pattern_colon in Hm as (c0 & c1 & s' & [= -> ->] & Hcolon).
    inversion Hrest; subst. congruence.
  - by rewrite IH.
Qed.

(** The substitution of [glove_embedding_one_string] leaves every word
    without a colon as it is: the punctuation is not removed, because
    the pattern only matches a sequence that goes on with a colon. *)
Theorem re_sub_without_colon (w : string) :
  Forall (fun c => chr 58 c = false) (chars w) → re_sub w = w.
Proof. apply sub_go_no_colon. Qed.

Lemma re_sub_without_colon_witness : re_sub "what?!" = "what?!".
Proof. apply re_sub_without_colon. repeat constructor. Defined.

End GloveMore.

Section GloveRows.
Import Glove.
Variable F : Type.
Variable fzero : F.
Variable fadd : F -> F -> F.

Abbreviation embedding' := (Glove.embedding F fzero fadd).
Abbreviation embedding_loop' := (Glove.embedding_loop F fzero fadd).

(** The loop writes row [t + i] for its [i]-th string and leaves the rows
    before [t] alone. *)
Lemma embedding_loop_rows l g strings : ∀ t temp rows,
  t + length strings ≤ length temp →
  embedding_loop' l strings g t temp = Ok rows →
  (∀ i s, strings !! i = Some s →
          ∃ row, row_of fzero fadd l s g = Ok row ∧ rows !! (t + i) = Some row)
  ∧ (∀ j, j < t → rows !! j = temp !! j).
Proof.
  induction strings as [|s strings IH]; intros t temp rows Hlen; simpl.
  - intros [= <-]. split; [by intros i s' H|done].
  - unfold row_of in *.
    destruct (glove_embedding_one_string F fzero fadd s g) as [x|] eqn:Hx;
      simpl; [|discriminate].
    destruct (broadcast_row F l x) as [row|] eqn:Hrow; simpl; [|discriminate].
    intros Hloop. simpl in Hlen.
    apply IH in Hloop as [Hrows Hkeep]; [|rewrite length_insert; lia].
    split.
    + intros [|i] s' Hs'; simpl in Hs'.
      * injection Hs' as <-. rewrite Hx. simpl. exists row. split; [done|].
        rewrite Nat.add_0_r, Hkeep by lia.
        apply list_lookup_insert_eq. lia.
      * destruct (Hrows i s' Hs') as (row' & Hr1 & Hr2).
        exists row'. split; [done|]. by rewrite <- Nat.add_succ_comm.
    + intros j Hj. rewrite Hkeep by lia.
      apply list_lookup_insert_ne. lia.
Qed.

Lemma embedding_row_at (strings : list string) (g : gmap string (list F))
    (n l : nat) (rows : list (list F)) :
  embedding' strings g = Ok (Arr2 n l rows) →
  ∀ t s, strings !! t = Some s →
         ∃ row, row_of fzero fadd l s g = Ok row ∧ rows !! t = Some row.
Proof.
  unfold Glove.embedding, gmap_getitem.
  destruct (g !! "a") as [a|]; simpl; [|discriminate].
  destruct (embedding_loop' _ _ _ _ _) as [rows'|] eqn:Hloop; simpl;
    [|discriminate].
  intros [= <- <- <-] t s Hs.
  apply embedding_loop_rows in Hloop as [Hrows _].
  - by apply (Hrows t s).
  - rewrite length_replicate. lia.
Qed.

(** Every row of the array that [embedding] returns is the row of its
    string: the sum of the vectors of the known words of the string,
    broadcast to the width of the vector of ["a"]. *)
Theorem embedding_rows (strings : list string) (g : gmap string (list F))
    (n l : nat) (rows : list (list F)) (t : nat) (s : string) :
  embedding' strings g = Ok (Arr2 n l rows) →
  strings !! t = Some s →
  ∃ row, row_of fzero fadd l s g = Ok row ∧ rows !! t = Some row.
Proof. intros Hemb Hs. by eapply embedding_row_at. Qed.

Lemma omap_all_None {A B : Type} (f : A → option B) (xs : list A) :
  Forall (fun x => f x = None) xs → omap f xs = [].
Proof.
  induction 1 as [|x xs Hx _ IH]; simpl; [done|]. by rewrite Hx.
Qed.

(** A string none of whose words is in the dictionary (the empty string
    among them) gets a row of zeros. *)
Theorem embedding_unknown_words_zero_row (strings : list string)
    (g : gmap string (list F)) (n l : nat) (rows : list (list F))
    (t : nat) (s : string) :
  embedding' strings g = Ok (Arr2 n l rows) →
  strings !! t = Some s →
  Forall (fun w => g !! re_sub w = None) (split s) →
  rows !! t = Some (replicate l fzero).
Proof.
  intros Hemb Hs Hunknown.
  destruct (embedding_row_at strings g n l rows Hemb t s Hs)
    as (row & Hrow & ->).
  unfold row_of, glove_embedding_one_string in Hrow.
  rewrite omap_all_None in Hrow.
  - simpl in Hrow. by injection Hrow as <-.
  - apply Forall_fmap. by eapply Forall_impl.
Qed.

End GloveRows.

Lemma uniform_glove_run :
  Glove.embedding Z 0%Z Z.add ["a b"; "zz b"] uniform_glove
  = Ok (Glove.Arr2 2 2 [[11; 22]; [10; 20]]%Z).
Proof. vm_compute. reflexivity. Qed.

Lemma embedding_rows_witness :
  ∃ row, row_of 0%Z Z.add 2 "zz b" uniform_glove = Ok row
         ∧ [[11; 22]; [10; 20]]%Z !! 1 = Some row.
Proof.
  apply (embedding_rows Z 0%Z Z.add ["a b"; "zz b"] uniform_glove 2 2
           [[11; 22]; [10; 20]]%Z 1 "zz b" uniform_glove_run).
  reflexivity.
Defined.

Lemma unknown_words_run :
  Glove.embedding Z 0%Z Z.add ["a b"; "zz yy"] uniform_glove
  = Ok (Glove.Arr2 2 2 [[11; 22]; [0; 0]]%Z).
Proof. vm_compute. reflexivity. Qed.

Lemma embedding_unknown_words_zero_row_witness :
  [[11; 22]; [0; 0]]%Z !! 1 = Some (replicate 2 0%Z).
Proof.
  apply (embedding_unknown_words_zero_row Z 0%Z Z.add ["a b"; "zz yy"]
           uniform_glove 2 2 [[11; 22]; [0; 0]]%Z 1 "zz yy" unknown_words_run).
  - reflexivity.
  - repeat constructor.
Defined.

Lemma embedding_returns_witness :
  ∃ rows, Glove.embedding Z 0%Z Z.add ["a b"; "zz"] uniform_glove
          = Ok (Glove.Arr2 2 2 rows).
Proof.
  apply (embedding_returns Z 0%Z Z.add uniform_glove ["a b"; "zz"] [1; 2]%Z).
  - reflexivity.
  - intros k v Hkv. unfold uniform_glove in Hkv.
    apply lookup_insert_Some in Hkv as [[_ <-]|[_ Hkv]]; [done|].
    apply lookup_insert_Some in Hkv as [[_ <-]|[_ Hkv]]; [done|].
    by rewrite lookup_empty in Hkv.
Defined.

Section GloveLoaders.
Import Glove.
Variable F : Type.
Variable float : string -> option F.

Abbreviation load_loop := (Glove.loadGloveModel_loop F float).
Abbreviation index_loop := Glove.load_index_dic_loop.

Lemma load_loop_returns lines : ∀ model,
  returns (load_loop lines model) = true ↔ Forall (line_loads float) lines.
Proof.
  induction lines as [|line lines IH]; intros model; simpl.
  - split; [by constructor|done].
  - destruct (split line) as [|first vals] eqn:Hsplit.
    + split; [done|]. intros Hall. inversion Hall as [|? ? (f & vs & v & Hs & _) _].
      congruence.
    + destruct (floats F float vals) as [v|e] eqn:Hv; simpl.
      * rewrite IH. split.
        -- intros Hall. constructor; [|done]. by exists first, vals, v.
        -- intros Hall. by inversion Hall.
      * split; [done|]. intros Hall.
        inversion Hall as [|? ? (f & vs & v & Hs & Hf) _].
        rewrite Hsplit in Hs. injection Hs as <- <-. congruence.
Qed.

(** [loadGloveModel] returns exactly when every line of the file has a
    first token and numbers after it; in particular an empty or blank
    line makes it raise. *)
Theorem loadGloveModel_returns_iff (lines : list string) :
  returns (loadGloveModel F float (Some lines)) = true
  ↔ Forall (line_loads float) lines.
Proof. apply load_loop_returns. Qed.

Lemma load_loop_blank pre line post : ∀ model,
  Forall (line_loads float) pre → split line = [] →
  load_loop (pre ++ line :: post) model = Raise IndexError.
Proof.
  induction pre as [|l pre IH]; intros model Hpre Hblank; simpl.
  - by rewrite Hblank.
  - inversion Hpre as [|? ? (f & vs & v & Hs & Hf) Hrest]; subst.
    rewrite Hs, Hf. simpl. by apply IH.
Qed.

(** The first blank line of the file, when the lines before it load,
    makes [loadGloveModel] raise [IndexError]. *)
Theorem loadGloveModel_blank_line (pre post : list string) (line : string) :
  Forall (line_loads float) pre → split line = [] →
  loadGloveModel F float (Some (pre ++ line :: post)) = Raise IndexError.
Proof. intros. by apply load_loop_blank. Qed.

Lemma remove_apostrophes_clean s :
  Forall (fun c => chr 39 c = false) (chars (remove_apostrophes s)).
Proof.
  induction s as [|c s IH]; simpl; [constructor|].
  destruct (chr 39 c) eqn:Hc; [done|]. by constructor.
Qed.

Lemma load_loop_entries all lines : ∀ model model',
  (∀ line, line ∈ lines → line ∈ all) →
  map_Forall (entry_of_file float all) model →
  load_loop lines model = Ok model' →
  map_Forall (entry_of_file float all) model'.
Proof.
  induction lines as [|line lines IH]; intros model model' Hsub Hm; simpl.
  - by intros [= <-].
  - destruct (split line) as [|first vals] eqn:Hsplit; [discriminate|].
    destruct (floats F float vals) as [v|] eqn:Hv; simpl; [|discriminate].
    apply IH.
    + intros l Hl. apply Hsub. by right.
    + apply map_Forall_insert_2; [|done].
      split; [apply remove_apostrophes_clean|].
      exists line, first, vals. split; [apply Hsub; by left|done].
Qed.

(** Every key of the model that [loadGloveModel] returns is the first
    token of a line with its apostrophes removed, so that no key holds an
    apostrophe, and its vector is the one read from that line. *)
Theorem loadGloveModel_entries (lines : list string)
    (model : gmap string (list F)) (k : string) (v : list F) :
  loadGloveModel F float (Some lines) = Ok model →
  model !! k = Some v →
  Forall (fun c => chr 39 c = false) (chars k)
  ∧ ∃ line first vals,
      line ∈ lines ∧ split line = first :: vals
      ∧ k = remove_apostrophes first ∧ floats F float vals = Ok v.
Proof.
  intros Hload Hk.
  apply (load_loop_entries lines lines ∅ model) in Hload; [|done|].
  - by apply (Hload k v).
  - apply map_Forall_empty.
Qed.

Lemma load_both lines : ∀ model model' dic,
  load_loop lines model = Ok model' →
  ∃ firsts,
    index_loop lines dic = Ok (dic ++ firsts)
    ∧ Forall2 (fun line first => ∃ vals, split line = first :: vals)
        lines firsts
    ∧ ∀ k, is_Some (model' !! k)
           ↔ is_Some (model !! k) ∨ k ∈ remove_apostrophes <$> firsts.
Proof.
  induction lines as [|line lines IH]; intros model model' dic; simpl.
  - intros [= <-]. exists []. rewrite app_nil_r. split; [done|].
    split; [constructor|]. intros k. split; [by left|].
    intros [?|Hin]; [done|]. by apply elem_of_nil in Hin.
  - destruct (split line) as [|first vals] eqn:Hsplit; [discriminate|].
    destruct (floats F float vals) as [v|] eqn:Hv; simpl; [|discriminate].
    intros Hload.
    destruct (IH _ model' (dic ++ [first]) Hload) as (firsts & Hidx & Hall & Hdom).
    exists (first :: firsts). rewrite Hidx, <- app_assoc. split; [done|].
    split; [constructor; [by exists vals|done]|].
    intros k. rewrite Hdom, fmap_cons, elem_of_cons.
    destruct (decide (k = remove_apostrophes first)) as [->|Hne].
    + rewrite lookup_insert_eq. split; [by right; left|by left].
    + rewrite lookup_insert_ne by done. tauto.
Qed.

(** When [loadGloveModel] returns, [load_index_dic] returns too, and its
    index is, line by line, the first token of the line as the file has
    it, apostrophes included: one entry per line, in the order of the
    file.  The keys of the model are these entries with their
    apostrophes removed: a word with an apostrophe is in the index under
    a name that the model does not have. *)
Theorem load_index_dic_matches_model (lines : list string)
    (model : gmap string (list F)) :
  loadGloveModel F float (Some lines) = Ok model →
  ∃ dic, load_index_dic (Some lines) = Ok dic
         ∧ Forall2 (fun line first => ∃ vals, split line = first :: vals)
             lines dic
         ∧ length dic = length lines
         ∧ (∀ i line, lines !! i = Some line → dic !! i = head (split line))
         ∧ ∀ k, is_Some (model !! k) ↔ k ∈ remove_apostrophes <$> dic.
Proof.
  intros Hload.
  destruct (load_both lines ∅ model [] Hload) as (firsts & Hidx & Hall & Hdom).
  exists firsts. split; [done|]. split; [done|].
  split; [symmetry; by eapply Forall2_length|]. split.
  - intros i line Hi.
    destruct (Forall2_lookup_l _ _ _ _ _ Hall Hi) as (first & Hf & vals & Hs).
    by rewrite Hf, Hs.
  - intros k. rewrite Hdom, lookup_empty. split; [|by right].
    intros [[? ?]|?]; done.
Qed.


End GloveLoaders.

(** ** Runs of the loaders *)

Lemma glove_lines_load :
  Forall (line_loads digits_float) ["a 1 2"; "don't 3 4"].
Proof.
  repeat constructor.
  - exists "a", ["1"; "2"], [1; 2]%Z. by split.
  - exists "don't", ["3"; "4"], [3; 4]%Z. by split.
Qed.

Lemma loadGloveModel_blank_line_witness :
  Glove.loadGloveModel Z digits_float
    (Some (["a 1 2"; "don't 3 4"] ++ "  " :: ["b 5 6"]))
  = Raise IndexError.
Proof.
  apply (loadGloveModel_blank_line Z digits_float
           ["a 1 2"; "don't 3 4"] ["b 5 6"] "  ").
  - exact glove_lines_load.
  - reflexivity.
Defined.

Lemma glove_file_loads :
  Glove.loadGloveModel Z digits_float (Some ["a 1 2"; "don't 3 4"])
  = Ok (<["dont" := [3; 4]%Z]> (<["a" := [1; 2]%Z]> ∅)).
Proof. reflexivity. Qed.

Lemma loadGloveModel_entries_witness :
  Forall (fun c => Glove.chr 39 c = false) (chars "dont")
  ∧ ∃ line first vals,
      line ∈ ["a 1 2"; "don't 3 4"] ∧ Glove.split line = first :: vals
      ∧ "dont" = Glove.remove_apostrophes first
      ∧ Glove.floats Z digits_float vals = Ok [3; 4]%Z.
Proof.
  apply (loadGloveModel_entries Z digits_float
           ["a 1 2"; "don't 3 4"]
           (<["dont" := [3; 4]%Z]> (<["a" := [1; 2]%Z]> ∅)) "dont" [3; 4]%Z).
  - exact glove_file_loads.
  - apply lookup_insert_eq.
Defined.

Lemma load_index_dic_matches_model_witness :
  ∃ dic, Glove.load_index_dic (Some ["a 1 2"; "don't 3 4"]) = Ok dic
         ∧ length dic = 2
         ∧ dic !! 1 = Some "don't"
         ∧ "dont" ∈ Glove.remove_apostrophes <$> dic.
Proof.
  destruct (load_index_dic_matches_model Z digits_float
              ["a 1 2"; "don't 3 4"]
              (<["dont" := [3; 4]%Z]> (<["a" := [1; 2]%Z]> ∅))
              glove_file_loads) as (dic & Hdic & _ & Hlen & Hat & Hkeys).
  exists dic. split; [exact Hdic|]. split; [exact Hlen|]. split.
  - exact (Hat 1 "don't 3 4" eq_refl).
  - apply Hkeys. rewrite lookup_insert_eq. by eexists.
Defined.


(** The index keeps the apostrophe that the model drops. *)
Example index_keeps_the_apostrophe :
  Glove.load_index_dic (Some ["a 1 2"; "don't 3 4"]) = Ok ["a"; "don't"].
Proof. reflexivity. Qed.

(** ** train.py: what a run needs, and the shape of its log *)

Section TrainMore.
Context `{FW : Framework}.
Import Dataset Checkpointing Train.

Lemma reload_state_inv checkpoint training_state config args w r :
  reload_state checkpoint training_state config args w = Ok r →
  ∃ bidaf t raw,
    cfg_bidaf config = Some bidaf ∧ cfg_training config = Some t
    ∧ data_file w = Some raw
    ∧ in_training_mode r.1.1.1.1 = true
    ∧ eg_batch_size r.2 = default 32 (training_get config cfg_batch_size)
    ∧ eg_shuffle r.2 = true
    ∧ eg_cuda_tensors r.2 = false.
Proof.
  rewrite reload_state_unfold.
  destruct (cfg_bidaf config) as [bidaf|]; simpl; [|discriminate].
  destruct (from_checkpoint bidaf checkpoint) as [[[model i2t] i2c]|]; simpl;
    [|discriminate].
  unfold get_optimizer, training_section.
  destruct (cfg_training config) as [t|]; simpl; [|discriminate].
  unfold reload_rest.
  destruct (data_file w) as [raw|]; simpl; [|discriminate].
  destruct (tokenize_data _ _ _ _) as [[d tok] chr]. unfold assert.
  destruct (length tok =? _); simpl; [|discriminate].
  destruct (length chr =? _); simpl; [|discriminate].
  intros [= <-]. exists bidaf, t, raw. by repeat split.
Qed.

Lemma init_state_loader config args w model i2t i2c optimizer data torch' :
  init_state config args w = Ok (model, i2t, i2c, optimizer, data, torch') →
  eg_batch_size data = default 32 (training_get config cfg_batch_size)
  ∧ eg_shuffle data = true.
Proof.
  unfold init_state.
  destruct (data_file w) as [raw|]; simpl; [|discriminate].
  destruct (tokenize_data _ _ _ _) as [[d t] c].
  destruct (getitem t SOS_TOKEN); simpl; [|discriminate].
  destruct (getitem t EOS_TOKEN); simpl; [|discriminate].
  destruct (cfg_bidaf config); simpl; [|discriminate].
  destruct (from_config _ _ _ _ _ _) as [[? ?] ?].
  destruct (inject_word_rep _ _ _ _); simpl; [|discriminate].
  destruct (get_optimizer _ _ _); simpl; [|discriminate].
  by intros [= _ _ _ _ <- _].
Qed.

Lemma init_state_cuda config args w model i2t i2c optimizer data torch' :
  init_state config args w = Ok (model, i2t, i2c, optimizer, data, torch') →
  eg_cuda_tensors data = false.
Proof.
  unfold init_state.
  destruct (data_file w) as [raw|]; simpl; [|discriminate].
  destruct (tokenize_data _ _ _ _) as [[d t] c].
  destruct (getitem t SOS_TOKEN); simpl; [|discriminate].
  destruct (getitem t EOS_TOKEN); simpl; [|discriminate].
  destruct (cfg_bidaf config); simpl; [|discriminate].
  destruct (from_config _ _ _ _ _ _) as [[? ?] ?].
  destruct (inject_word_rep _ _ _ _); simpl; [|discriminate].
  destruct (get_optimizer _ _ _); simpl; [|discriminate].
  by intros [= _ _ _ _ <- _].
Qed.

(** [main] reaches its loop only with a configuration file that has a
    [training] and a [bidaf] section and with a data file: although the
    loader and the loop read [training] with a default, [get_optimizer]
    does not.  On both paths the model is then in training mode and the
    batches are shuffled, of the configured size or of 32. *)
Theorem main_setup_needs (args : Args) (w : World) (m : Machine) :
  main_setup args w = Ok m →
  ∃ config t bidaf raw,
    config_yaml w = Some config
    ∧ cfg_training config = Some t
    ∧ cfg_bidaf config = Some bidaf
    ∧ data_file w = Some raw
    ∧ in_training_mode (m_model m) = true
    ∧ eg_batch_size (m_data m) = default 32 (cfg_batch_size t)
    ∧ eg_shuffle (m_data m) = true
    ∧ eg_cuda_tensors (m_data m) = use_cuda args w.
Proof.
  unfold main_setup.
  destruct (config_yaml w) as [config|]; simpl; [|discriminate].
  destruct (try_to_resume _ w) as [[[checkpoint ts] epoch]|]; simpl;
    [|discriminate].
  destruct checkpoint as [c|].
  - destruct (reload_state c ts config args w)
      as [[[[[model i2t] i2c] opt] data]|] eqn:Hr; simpl; [|discriminate].
    apply reload_state_inv in Hr
      as (bidaf & t & raw & Hb & Ht & Hd & Hmode & Hsize & Hsh & Hct).
    simpl in *. intros [= <-]. simpl.
    exists config, t, bidaf, raw.
    unfold training_get in Hsize. rewrite Ht in Hsize. simpl in Hsize.
    destruct (use_cuda args w) eqn:Hcuda; by repeat split.
  - destruct (init_state config args w)
      as [[[[[[model i2t] i2c] opt] data] torch']|] eqn:Hi; simpl;
      [|discriminate].
    pose proof (init_state_loader _ _ _ _ _ _ _ _ _ Hi) as [Hsize Hsh].
    pose proof (init_state_cuda _ _ _ _ _ _ _ _ _ Hi) as Hct.
    apply init_state_inv in Hi
      as (raw & bidaf & t & ex & tok & chr & Hd & _ & _ & _ & Hb & Ht & _
          & _ & Hmode).
    intros [= <-]. simpl.
    exists config, t, bidaf, raw.
    unfold training_get in Hsize. rewrite Ht in Hsize. simpl in Hsize.
    change (use_cuda args (with_random _ _ _)) with (use_cuda args w).
    destruct (use_cuda args w) eqn:Hcuda; simpl; by repeat split.
Qed.

End TrainMore.

Section LoopMore.
Context `{FW : Framework}.
Import Dataset Checkpointing Train.

Lemma step_count m m' a :
  m_epochs m = count a → m_pc m ≠ Returned → step m = Some m' →
  (∃ a', m_epochs m' = count a') ∧ m_pc m' ≠ Returned.
Proof.
  unfold step. intros Hit Hpc. destruct (m_pc m) as [|e i [|b bs]|]; [| | |done].
  - rewrite Hit. simpl. destruct (batches _ _) as [bs g].
    intros [= <-]. simpl. by eauto.
  - intros [= <-]. simpl. by eauto.
  - intros [= <-]. unfold train_on.
    destruct (train_batch _ _ _ _ _) as [[[? ?] ?] ?]. simpl. by eauto.
Qed.

Lemma exec_count n : ∀ m a,
  m_epochs m = count a → m_pc m ≠ Returned → m_pc (exec n m) ≠ Returned.
Proof.
  induction n as [|n IH]; intros m a Hit Hpc; simpl; [done|].
  destruct (step m) as [m'|] eqn:Hstep; [|done].
  destruct (step_count m m' a Hit Hpc Hstep) as [[a' Hit'] Hpc'].
  by eapply IH.
Qed.

(** Without [training.epochs] in the configuration the loop runs over
    [itertools.count]: however many steps it is given, [main] does not
    return. *)
Theorem main_without_epochs_never_returns (fuel : nat) (args : Args)
    (w : World) (config : Config) (m : Machine) :
  config_yaml w = Some config →
  training_get config cfg_epochs = None →
  main fuel args w = Ok m →
  m_pc m ≠ Returned.
Proof.
  intros Hcfg Hnone. unfold main.
  destruct (main_setup args w) as [m0|] eqn:Hsetup; simpl; [|discriminate].
  intros [= <-].
  apply main_setup_inv in Hsetup
    as (config' & c & ts & epoch & Hcfg' & _ & Hpc & _ & Hit).
  assert (config' = config) as -> by congruence.
  unfold epochs_from in Hit. rewrite Hnone in Hit.
  eapply exec_count; [done|]. by rewrite Hpc.
Qed.

(** The steps of [train]: one per batch, numbered as [enumerate] does. *)
Lemma train_rest_log bs : ∀ m e i,
  m_pc m = InTrain e i bs →
  m_pc (exec (length bs) m) = InTrain e (i + length bs) []
  ∧ m_epochs (exec (length bs) m) = m_epochs m
  ∧ m_log (exec (length bs) m)
      = m_log m ++ (TrainStep e <$> seq i (length bs)).
Proof.
  induction bs as [|b bs IH]; intros m e i Hpc; simpl.
  - rewrite Nat.add_0_r, app_nil_r. done.
  - unfold step. rewrite Hpc.
    destruct (IH (train_on m e i b bs) e (S i)) as (Hpc' & Hit & Hlog).
    { unfold train_on. by destruct (train_batch _ _ _ _ _) as [[[? ?] ?] ?]. }
    rewrite Hpc', Hit, Hlog. unfold train_on.
    destruct (train_batch _ _ _ _ _) as [[[? ?] ?] ?]. simpl.
    rewrite <- app_assoc. split; [f_equal; lia|done].
Qed.

Lemma one_epoch (m : Machine) (epoch : Z) (it : epochs_iter) :
  m_pc m = LoopHead →
  next (m_epochs m) = Some (epoch, it) →
  let nb := length (batches (m_data m) (np_random (m_world m))).1 in
  let m' := exec (nb + 2) m in
  m_pc m' = LoopHead
  ∧ m_epochs m' = it
  ∧ m_log m' = m_log m ++ epoch_log epoch nb.
Proof.
  intros Hpc Hnext nb m'. subst nb m'.
  destruct (batches (m_data m) (np_random (m_world m))) as [bs g] eqn:Hbs.
  simpl fst.
  set (m1 := goto m (InTrain epoch 0 bs) it
               (with_random (m_world m) g (torch_random (m_world m)))
               [StartingEpoch epoch]).
  assert (Hstep : step m = Some m1).
  { unfold step. by rewrite Hpc, Hnext, Hbs. }
  destruct (train_rest_log bs m1 epoch 0 eq_refl) as (Hpc2 & Hit2 & Hlog2).
  destruct (step_end_of_epoch _ epoch _ Hpc2)
    as (m3 & Hstep3 & Hpc3 & _ & _ & Hit3 & Hlog3 & _).
  assert (Hk : exec (length bs + 2) m = m3).
  { replace (length bs + 2) with (1 + (length bs + 1)) by lia.
    rewrite exec_add.
    replace (exec 1 m) with m1 by (simpl; by rewrite Hstep).
    rewrite exec_add. simpl. by rewrite Hstep3. }
  rewrite Hk.
  split; [done|]. split; [by rewrite Hit3, Hit2|].
  rewrite Hlog3, Hlog2. unfold epoch_log. simpl.
  by rewrite <- !app_assoc.
Qed.

(** One turn of the loop: when the iterator yields an epoch, the machine
    comes back to the head of the loop after one step per batch of the
    generator, and the log has grown by the start of the epoch, one
    training step per batch, numbered from 0, and the end of the epoch. *)
Theorem one_epoch_log (m : Machine) (epoch : Z) (it : epochs_iter) :
  m_pc m = LoopHead →
  next (m_epochs m) = Some (epoch, it) →
  let nb := length (batches (m_data m) (np_random (m_world m))).1 in
  let m' := exec (nb + 2) m in
  m_pc m' = LoopHead
  ∧ m_epochs m' = it
  ∧ m_log m' = m_log m ++ epoch_log epoch nb.
Proof. apply one_epoch. Qed.

End LoopMore.

Lemma one_epoch_log_witness :
  ∃ m, Train.main_setup Toy.plain_args (Toy.fresh_world (Some 2%Z)) = Ok m
       ∧ let nb := length (Dataset.batches (Train.m_data m)
                             (np_random (Train.m_world m))).1 in
         Train.m_log (Train.exec (nb + 2) m)
         = Train.m_log m ++ epoch_log 0 nb.
Proof.
  destruct (returns_Ok
              (Train.main_setup Toy.plain_args (Toy.fresh_world (Some 2%Z))))
    as [m Hm]; [vm_compute; reflexivity|].
  exists m. split; [done|].
  apply main_setup_inv in Hm.
  destruct Hm as (config & c & ts & epoch & Hcfg & Htry & Hpc & Hlog & Hit).
  injection Hcfg as <-.
  change (Train.try_to_resume _ _)
    with (@Ok (option (gmap string (@H5Dataset Toy.toy))
               * option (@TrainingState Toy.toy) * Z) (None, None, 0%Z))
    in Htry.
  injection Htry as <- <- <-.
  apply (one_epoch_log m 0%Z (Train.range 1 2) Hpc).
  by rewrite Hit.
Defined.

Section RunMore.
Context `{FW : Framework}.
Import Dataset Checkpointing Train.

Lemma started_epoch_log e nb : started (epoch_log e nb) = [e].
Proof.
  unfold epoch_log, started. simpl. f_equal. rewrite omap_app. simpl.
  rewrite app_nil_r. induction (seq 0 nb) as [|i l IH]; [done|]. by simpl.
Qed.

Lemma completed_epoch_log e nb : completed (epoch_log e nb) = [e].
Proof.
  unfold epoch_log, completed. simpl. rewrite omap_app. simpl.
  assert (omap (fun ev => match ev with EndOfEpoch e0 => Some e0 | _ => None end)
            (TrainStep e <$> seq 0 nb) = []) as ->; [|done].
  induction (seq 0 nb) as [|i l IH]; [done|]. by simpl.
Qed.

Lemma run_range d : ∀ m a N,
  m_pc m = LoopHead → m_epochs m = range a N → Z.to_nat (N - a) = d →
  ∃ fuel, m_pc (exec fuel m) = Returned
          ∧ started (m_log (exec fuel m))
              = started (m_log m) ++ seqZ a (N - a)
          ∧ completed (m_log (exec fuel m))
              = completed (m_log m) ++ seqZ a (N - a).
Proof.
  induction d as [|d IH]; intros m a N Hpc Hit Hd.
  - exists 1. simpl. unfold step. rewrite Hpc, Hit. simpl.
    assert (Hge : (a <? N)%Z = false) by (apply Z.ltb_ge; lia).
    rewrite Hge. simpl. rewrite !app_nil_r.
    rewrite seqZ_nil by lia. by rewrite !app_nil_r.
  - assert (Hnext : next (m_epochs m) = Some (a, range (a + 1) N)).
    { rewrite Hit. simpl.
      assert (Hlt : (a <? N)%Z = true) by (apply Z.ltb_lt; lia).
      by rewrite Hlt. }
    destruct (one_epoch m a _ Hpc Hnext) as (Hpc1 & Hit1 & Hlog1).
    set (k := length (batches (m_data m) (np_random (m_world m))).1 + 2) in *.
    destruct (IH (exec k m) (a + 1)%Z N Hpc1 Hit1) as (fuel & Hret & Hs & Hc);
      [lia|].
    exists (k + fuel). rewrite exec_add. split; [done|].
    rewrite Hs, Hc, Hlog1, started_app, completed_app.
    rewrite started_epoch_log, completed_epoch_log, <- !app_assoc.
    rewrite (seqZ_cons a) by lia. simpl.
    replace (Z.succ a) with (a + 1)%Z by lia.
    by replace (Z.pred (N - a)) with (N - (a + 1))%Z by lia.
Qed.

(** With [training.epochs] configured, [main] returns once it is given
    enough steps, and it has then started and completed exactly the
    epochs from the one it set out from up to the configured count,
    each once and in order; none when the count is already reached. *)
Theorem main_runs_the_configured_epochs (args : Args) (w : World)
    (m0 : Machine) (a N : Z) :
  main_setup args w = Ok m0 →
  m_epochs m0 = range a N →
  ∃ fuel, ∀ fuel', fuel ≤ fuel' →
    ∃ m, main fuel' args w = Ok m
         ∧ m_pc m = Returned
         ∧ started (m_log m) = seqZ a (N - a)
         ∧ completed (m_log m) = seqZ a (N - a).
Proof.
  intros Hsetup Hit.
  apply main_setup_inv in Hsetup as Hinv.
  destruct Hinv as (_ & _ & _ & _ & _ & _ & Hpc & Hlog & _).
  destruct (run_range _ m0 a N Hpc Hit eq_refl) as (fuel & Hret & Hs & Hc).
  exists fuel. intros fuel' Hle. exists (exec fuel' m0).
  split; [by unfold main; rewrite Hsetup|].
  replace fuel' with (fuel + (fuel' - fuel)) by lia.
  rewrite exec_add, exec_returned by done.
  rewrite Hlog in Hs, Hc. by repeat split.
Qed.

End RunMore.

Lemma main_runs_the_configured_epochs_witness :
  ∃ fuel, ∀ fuel', fuel ≤ fuel' →
    ∃ m, Train.main fuel' Toy.plain_args Toy.extended_world = Ok m
         ∧ Train.m_pc m = Train.Returned
         ∧ started (Train.m_log m) = seqZ 2 (4 - 2)
         ∧ completed (Train.m_log m) = seqZ 2 (4 - 2).
Proof.
  destruct (returns_Ok (Train.main_setup Toy.plain_args Toy.extended_world))
    as [m0 Hm0]; [vm_compute; reflexivity|].
  apply (main_runs_the_configured_epochs Toy.plain_args Toy.extended_world
           m0 2%Z 4%Z Hm0).
  apply main_setup_inv in Hm0.
  destruct Hm0 as (config & c & ts & epoch & Hcfg & Htry & _ & _ & Hit).
  injection Hcfg as <-.
  change (arg_force_restart Toy.plain_args) with false in Htry.
  rewrite (try_to_resume_stored Toy.extended_world Toy.trained_checkpoint 1)
    in Htry; [|reflexivity|vm_compute; reflexivity].
  simpl in Htry. injection Htry as <- <- <-. by rewrite Hit.
Defined.

Lemma main_setup_needs_witness :
  ∃ m config t,
    Train.main_setup Toy.plain_args Toy.extended_world = Ok m
    ∧ config_yaml Toy.extended_world = Some config
    ∧ cfg_training config = Some t
    ∧ Dataset.eg_batch_size (Train.m_data m) = default 32 (cfg_batch_size t).
Proof.
  destruct (returns_Ok (Train.main_setup Toy.plain_args Toy.extended_world))
    as [m Hm]; [vm_compute; reflexivity|].
  destruct (main_setup_needs Toy.plain_args Toy.extended_world m Hm)
    as (config & t & bidaf & raw & H1 & H2 & _ & _ & _ & H3 & _).
  exists m, config, t.
  split; [exact Hm|]. split; [exact H1|]. split; [exact H2|exact H3].
Defined.

Lemma main_without_epochs_never_returns_witness :
  ∃ m, Train.main 40 Toy.plain_args endless_world = Ok m
       ∧ Train.m_pc m ≠ Train.Returned.
Proof.
  destruct (returns_Ok (Train.main 40 Toy.plain_args endless_world))
    as [m Hm]; [vm_compute; reflexivity|].
  exists m. split; [exact Hm|].
  apply (main_without_epochs_never_returns 40 Toy.plain_args endless_world
           (Toy.config_for None (Some 2)) m);
    [reflexivity|reflexivity|exact Hm].
Defined.

(** ** The dictionary comprehensions of reload_state and init_state *)

Section DictSet.
Context {K V : Type} `{!EqDecision K}.

Lemma set_keys (d : dict K V) k v k' :
  k' ∈ (set d k v).*1 ↔ k' = k ∨ k' ∈ d.*1.
Proof.
  induction d as [|[k0 v0] d IH]; simpl.
  - rewrite elem_of_cons. split; [by intros [?|?%elem_of_nil]; [left|]|].
    intros [?|?%elem_of_nil]; [by left|done].
  - destruct (decide (k = k0)) as [->|Hne]; simpl.
    + rewrite !elem_of_cons. tauto.
    + rewrite !elem_of_cons, IH. tauto.
Qed.

Lemma set_NoDup (d : dict K V) k v : NoDup d.*1 → NoDup (set d k v).*1.
Proof.
  induction d as [|[k0 v0] d IH]; simpl; intros Hnd.
  - apply NoDup_singleton.
  - apply NoDup_cons in Hnd as [Hnot Hnd].
    destruct (decide (k = k0)) as [->|Hne]; simpl.
    + by apply NoDup_cons.
    + apply NoDup_cons. split; [|by apply IH].
      rewrite set_keys. intros [?|?]; [congruence|done].
Qed.

Lemma get_set (d : dict K V) k v k' :
  get (set d k v) k' = if decide (k' = k) then Some v else get d k'.
Proof.
  induction d as [|[k0 v0] d IH]; simpl.
  - by destruct (decide (k' = k)).
  - destruct (decide (k = k0)) as [->|Hne]; simpl.
    + by destruct (decide (k' = k0)).
    + destruct (decide (k' = k0)) as [->|Hne'].
      * by rewrite decide_False by done.
      * apply IH.
Qed.

Lemma set_length (d : dict K V) k v : length (set d k v) ≤ S (length d).
Proof.
  induction d as [|[k0 v0] d IH]; simpl; [lia|].
  destruct (decide (k = k0)); simpl; lia.
Qed.

End DictSet.

Section DictMore.
Context {K V : Type} `{!EqDecision K, !EqDecision V}.

Lemma inverted_go_spec (d : dict K V) : ∀ acc : dict V K,
  NoDup acc.*1 →
  let r := foldl (fun acc kv => set acc kv.2 kv.1) acc d in
  NoDup r.*1
  ∧ (∀ v, v ∈ r.*1 ↔ v ∈ acc.*1 ∨ v ∈ d.*2)
  ∧ (∀ v k, get r v = Some k → get acc v = Some k ∨ (k, v) ∈ d)
  ∧ length r ≤ length acc + length d.
Proof.
  induction d as [|[k v] d IH]; intros acc Hnd; simpl.
  - split; [done|]. split.
    { intros v. split; [by left|]. intros [?|?%elem_of_nil]; done. }
    split; [by left|lia].
  - destruct (IH (set acc v k) (set_NoDup acc v k Hnd))
      as (Hnd' & Hkeys & Hget & Hlen).
    split; [done|]. split.
    { intros v'. rewrite Hkeys, set_keys, elem_of_cons. tauto. }
    split.
    { intros v' k' Hr. destruct (Hget v' k' Hr) as [Hs|Hin].
      - rewrite get_set in Hs. destruct (decide (v' = v)) as [->|].
        + injection Hs as <-. right. by left.
        + by left.
      - right. by right. }
    pose proof (set_length acc v k). lia.
Qed.

(** The comprehension [{v: k for k, v in d.items()}] builds a dictionary:
    no key twice; its keys are the values of [d]; each of its entries is
    an entry of [d] turned round; and it is no longer than [d]. *)
Theorem inverted_is_a_dictionary (d : dict K V) :
  NoDup (inverted d).*1
  ∧ (∀ v, v ∈ (inverted d).*1 ↔ v ∈ d.*2)
  ∧ (∀ v k, get (inverted d) v = Some k → (k, v) ∈ d)
  ∧ length (inverted d) ≤ length d.
Proof.
  destruct (inverted_go_spec d [] (NoDup_nil_2 : NoDup ([] : dict V K).*1))
    as (Hnd & Hkeys & Hget & Hlen).
  split; [done|]. split.
  { intros v. rewrite (Hkeys v). split; [|by right].
    intros [?%elem_of_nil|?]; done. }
  split; [|done].
  intros v k Hr. by destruct (Hget v k Hr).
Qed.

(** When no two keys of [d] have the same value, the comprehension keeps
    the length and the order of [d], and a second inversion gives a
    dictionary of distinct keys back: the vocabulary that [reload_state]
    rebuilds is the one [init_state] built. *)
Theorem inverted_round_trip (d : dict K V) :
  NoDup d.*1 → NoDup d.*2 →
  inverted d = prod_swap <$> d
  ∧ length (inverted d) = length d
  ∧ inverted (inverted d) = d.
Proof.
  intros Hk Hv. split; [by apply inverted_swap|].
  split; [by rewrite inverted_swap, length_fmap|by apply inverted_inverted].
Qed.

End DictMore.

Lemma inverted_round_trip_witness :
  inverted Toy.vocabulary = prod_swap <$> Toy.vocabulary
  ∧ length (inverted Toy.vocabulary) = length Toy.vocabulary
  ∧ inverted (inverted Toy.vocabulary) = Toy.vocabulary.
Proof.
  apply inverted_round_trip.
  - refine (bool_decide_unpack _ _). vm_compute. exact I.
  - refine (bool_decide_unpack _ _). vm_compute. exact I.
Defined.

(** Two ids with one symbol: the inverse keeps the later id, and is
    shorter than the dictionary. *)
Example inverted_with_a_repeated_symbol :
  inverted [(0, "a"); (1, "b"); (2, "a")] = [("a", 2); ("b", 1)].
Proof. reflexivity. Qed.

(** ** Resuming and checkpointing, from the first step to the return *)

Section EndToEnd.
Context `{FW : Framework}.
Import Dataset Checkpointing Train.

(** On the resume path the loop starts from what [reload_state]
    returns. *)
Lemma main_setup_reload args w config f ts epoch :
  config_yaml w = Some config →
  try_to_resume (arg_force_restart args) w = Ok (Some f, ts, epoch) →
  main_setup args w =
    (r ← reload_state f ts config args w;
     Ok {| m_pc := LoopHead;
           m_epochs := epochs_from config epoch;
           m_model := r.1.1.1.1;
           m_optimizer := r.1.2;
           m_id_to_token := r.1.1.1.2;
           m_id_to_char := r.1.1.2;
           m_data :=
             if use_cuda args w
             then {| eg_data := eg_data r.2;
                     eg_batch_size := eg_batch_size r.2;
                     eg_shuffle := eg_shuffle r.2;
                     eg_cuda_tensors := true |}
             else r.2;
           m_teacher_forcing_ratio :=
             default 1%Q (training_get config cfg_teacher_forcing_ratio);
           m_world := w;
           m_log := [] |}).
Proof.
  intros Hc Ht. unfold main_setup. rewrite Hc. simpl. rewrite Ht. simpl.
  by destruct (reload_state f ts config args w) as [[[[[? ?] ?] ?] ?]|].
Qed.

(** The optimizer that [reload_state] returns is the one that
    [get_optimizer] makes of the training state it was given. *)
Lemma reload_state_optimizer f ts config args w r t :
  cfg_training config = Some t →
  reload_state f ts config args w = Ok r →
  r.1.2 = match ts with
          | Some s => load_state_dict (new_optimizer t) s
          | None => new_optimizer t
          end.
Proof.
  intros Ht. rewrite reload_state_unfold.
  destruct (open_key (cfg_bidaf config)) as [bidaf|]; simpl; [|discriminate].
  destruct (from_checkpoint bidaf f) as [[[m i2t] i2c]|]; simpl;
    [|discriminate].
  rewrite (get_optimizer_configured _ _ t) by done. simpl.
  unfold reload_rest.
  destruct (open (data_file w)) as [raw|]; simpl; [|discriminate].
  destruct (tokenize_data _ _ _ _) as [[d tok] chr]. unfold assert.
  destruct (length tok =? _); simpl; [|discriminate].
  destruct (length chr =? _); simpl; [|discriminate].
  by intros [= <-].
Qed.

Lemma reload_state_cold f s config args w t :
  cfg_training config = Some t →
  reload_state f None config args w
    = with_optimizer (new_optimizer t) <$> reload_state f (Some s) config args w.
Proof.
  intros Ht. rewrite !reload_state_unfold.
  destruct (open_key (cfg_bidaf config)) as [bidaf|]; simpl; [|done].
  destruct (from_checkpoint bidaf f) as [[[m i2t] i2c]|]; simpl; [|done].
  rewrite !(get_optimizer_configured _ _ t) by done. simpl.
  apply reload_rest_optimizer.
Qed.

(** The loop at an epoch to run. *)
Lemma loop_runs_first m epoch it :
  m_pc m = LoopHead → next (m_epochs m) = Some (epoch, it) →
  runs_first m epoch.
Proof.
  intros Hpc Hnext. unfold runs_first.
  pose proof (one_epoch m epoch it Hpc Hnext) as Hone. cbv zeta in Hone.
  destruct Hone as (_ & _ & Hlog).
  destruct (batches (m_data m) (np_random (m_world m))) as [bs g] eqn:Hbs.
  simpl fst in *.
  set (m1 := goto m (InTrain epoch 0 bs) it
               (with_random (m_world m) g (torch_random (m_world m)))
               [StartingEpoch epoch]).
  assert (Hstep : step m = Some m1).
  { unfold step. by rewrite Hpc, Hnext, Hbs. }
  split; [simpl; by rewrite Hstep|]. split; [done|].
  intros [|n] Hfuel; [lia|]. simpl. rewrite Hstep.
  destruct (exec_started n m1) as (k & Hk & _).
  rewrite Hk. subst m1. simpl. rewrite started_app. simpl.
  rewrite <- app_assoc. simpl. by eauto.
Qed.

(** The loop over an empty range. *)
Lemma loop_runs_nothing m a N :
  m_pc m = LoopHead → m_epochs m = range a N → (N ≤ a)%Z → runs_nothing m.
Proof.
  intros Hpc Hit Hle [|fuel]; simpl.
  - split; [done|]. split; [done|lia].
  - unfold step. rewrite Hpc, Hit. simpl.
    assert (Hge : (a <? N)%Z = false) by (apply Z.ltb_ge; lia).
    rewrite Hge. rewrite exec_returned by done. simpl.
    by rewrite app_nil_r.
Qed.

(** C1.  Without the force-restart flag and with a checkpoint that stores
    epoch [e], [try_to_resume] returns the checkpoint and the epoch
    [e + 1] (unless the optimizer file is there and cannot be read back),
    and the epochs that [main] then starts are [e + 1], [e + 2], ... in
    this order.  The loop is entered on [range(e + 1, N)] for [N]
    configured epochs and on [count(e + 1)] without a configured number;
    when an epoch remains ([e + 1 < N], or no number), the first step
    enters [train] for epoch [e + 1], this epoch is run in full, and it
    is the first epoch started however long the run; when none remains,
    the run logs nothing and returns.  The stored epoch is the last
    completed one: when the checkpoint file is the one that an earlier
    run of [main] left, the last epoch that run completed is [e]. *)
Theorem resume_starts_after_stored_epoch (args : Args) (w : World)
    (f : gmap string H5Dataset) (e : Z) :
  arg_force_restart args = false →
  checkpoint_file w = Some f →
  f !! "training/epoch" = Some (H5Scalar e) →
  try_to_resume (arg_force_restart args) w =
    match checkpoint_opt w with
    | OptAbsent => Ok (Some f, None, (e + 1)%Z)
    | OptSaved s => Ok (Some f, Some s, (e + 1)%Z)
    | OptUnreadable => Raise UnpicklingError
    end
  ∧ (∀ fuel m, main fuel args w = Ok m →
       ∃ k : nat, started (m_log m) = seqZ (e + 1) (Z.of_nat k))
  ∧ (∀ m0 config, main_setup args w = Ok m0 → config_yaml w = Some config →
       m_pc m0 = LoopHead ∧ m_log m0 = []
       ∧ match training_get config cfg_epochs with
         | Some N =>
             m_epochs m0 = range (e + 1) N
             ∧ if (e + 1 <? N)%Z then runs_first m0 (e + 1)
               else runs_nothing m0
         | None => m_epochs m0 = count (e + 1) ∧ runs_first m0 (e + 1)
         end)
  ∧ (∀ fuel0 args0 w0 m_prev e_last,
       main fuel0 args0 w0 = Ok m_prev →
       last (completed (m_log m_prev)) = Some e_last →
       checkpoint_file w = checkpoint_file (m_world m_prev) →
       e = e_last).
Proof.
  intros Hforce Hw Hf. rewrite Hforce.
  pose proof (try_to_resume_stored w f e Hw Hf) as Htry.
  split; [done|]. split; [|split].
  - intros fuel m Hmain. unfold main in Hmain.
    destruct (main_setup args w) as [m0|] eqn:Hsetup; simpl in Hmain;
      [|discriminate].
    injection Hmain as <-.
    apply main_setup_inv in Hsetup.
    destruct Hsetup as (config & c & ts & epoch & _ & Hres & _ & Hlog & Hit).
    rewrite Hforce, Htry in Hres.
    assert (epoch = (e + 1)%Z) as ->.
    { destruct (checkpoint_opt w); congruence. }
    destruct (exec_started fuel m0) as (k & Hk & _).
    exists k. rewrite Hk, Hlog, Hit, epochs_from_start. done.
  - intros m0 config Hsetup Hcfg.
    apply main_setup_inv in Hsetup.
    destruct Hsetup
      as (config' & c & ts & epoch & Hcfg' & Hres & Hpc & Hlog & Hit).
    assert (config' = config) as -> by congruence.
    rewrite Hforce, Htry in Hres.
    assert (epoch = (e + 1)%Z) as ->.
    { destruct (checkpoint_opt w); congruence. }
    split; [done|]. split; [done|].
    unfold epochs_from in Hit.
    destruct (training_get config cfg_epochs) as [N|].
    + split; [done|].
      destruct (Z.ltb_spec (e + 1) N) as [Hlt|Hge].
      * apply (loop_runs_first m0 (e + 1) (range (e + 1 + 1) N) Hpc).
        rewrite Hit. simpl. by apply Z.ltb_lt in Hlt as ->.
      * by apply (loop_runs_nothing m0 (e + 1) N).
    + split; [done|].
      apply (loop_runs_first m0 (e + 1) (count (e + 1 + 1)) Hpc).
      by rewrite Hit.
  - intros fuel0 args0 w0 m_prev e_last Hprev Hlast Hsame.
    destruct (main_checkpoint_inv _ _ _ _ Hprev e_last Hlast)
      as [(model & opt & f' & Hf' & He' & _) _].
    rewrite Hw, Hf' in Hsame. injection Hsame as <-. congruence.
Qed.

(** C3, as the code has it.  On a resume with a checkpoint that stores
    an epoch, a missing optimizer file is no failure: [try_to_resume]
    returns [None] as the training state, [get_optimizer] then returns
    the newly constructed optimizer, whose history is empty, and
    [reload_state] raises or returns as it does with a saved state, the
    optimizer apart.  A saved state is returned by [try_to_resume] and
    loaded into the optimizer: the optimizer that [reload_state] returns,
    and that the loop of [main] starts with, is the new one without a
    state and the one loaded with the saved state otherwise.  Wherever
    the run with an optimizer file reaches its loop, the run without the
    file reaches it too, with the same model, vocabularies, batches and
    epochs, from epoch [e + 1]. *)
Theorem missing_optimizer_file_is_tolerated (w : World)
    (f : gmap string H5Dataset) (e : Z) (config : Config)
    (t : TrainingConfig) (model : BidafModel) (args : Args) :
  checkpoint_file w = Some f →
  f !! "training/epoch" = Some (H5Scalar e) →
  cfg_training config = Some t →
  (checkpoint_opt w = OptAbsent →
     try_to_resume false w = Ok (Some f, None, (e + 1)%Z))
  ∧ (∀ s, checkpoint_opt w = OptSaved s →
          try_to_resume false w = Ok (Some f, Some s, (e + 1)%Z))
  ∧ get_optimizer model config None = Ok (new_optimizer t)
  ∧ opt_state (new_optimizer t) = adam_empty
  ∧ (∀ s, get_optimizer model config (Some s)
            = Ok (load_state_dict (new_optimizer t) s)
          ∧ state_dict (load_state_dict (new_optimizer t) s) = s)
  ∧ (∀ s, reload_state f None config args w
            = with_optimizer (new_optimizer t)
                <$> reload_state f (Some s) config args w)
  ∧ (∀ ts r, reload_state f ts config args w = Ok r →
       r.1.2 = match ts with
               | Some s => load_state_dict (new_optimizer t) s
               | None => new_optimizer t
               end)
  ∧ (arg_force_restart args = false → config_yaml w = Some config →
       (∀ m, main_setup args w = Ok m →
          m_epochs m = epochs_from config (e + 1)
          ∧ match checkpoint_opt w with
            | OptAbsent =>
                m_optimizer m = new_optimizer t
                ∧ opt_state (m_optimizer m) = adam_empty
            | OptSaved s =>
                m_optimizer m = load_state_dict (new_optimizer t) s
                ∧ state_dict (m_optimizer m) = s
            | OptUnreadable => False
            end)
       ∧ (∀ s m, main_setup args (with_checkpoint w f (OptSaved s)) = Ok m →
            ∃ m', main_setup args (with_checkpoint w f OptAbsent) = Ok m'
                  ∧ m_optimizer m' = new_optimizer t
                  ∧ m_model m' = m_model m
                  ∧ m_id_to_token m' = m_id_to_token m
                  ∧ m_id_to_char m' = m_id_to_char m
                  ∧ m_data m' = m_data m
                  ∧ m_epochs m' = m_epochs m)).
Proof.
  intros Hw Hf Ht.
  pose proof (try_to_resume_stored w f e Hw Hf) as Htry.
  split; [by intros Ho; rewrite Htry, Ho|].
  split; [by intros s Ho; rewrite Htry, Ho|].
  split; [by rewrite (get_optimizer_configured _ _ t)|].
  split; [done|]. split.
  { intros s. split; [by rewrite (get_optimizer_configured _ _ t)|].
    by destruct s. }
  split; [intros s; by apply reload_state_cold|].
  split; [intros ts r; by apply reload_state_optimizer|].
  intros Hforce Hcfg. split.
  - intros m Hsetup.
    destruct (checkpoint_opt w) as [|s|] eqn:Ho.
    + rewrite (main_setup_reload args w config f None (e + 1)) in Hsetup
        by (by rewrite ?Hforce, ?Htry, ?Ho).
      destruct (reload_state f None config args w) as [r|] eqn:Hr;
        simpl in Hsetup; [|discriminate].
      injection Hsetup as <-. simpl.
      by rewrite (reload_state_optimizer _ _ _ _ _ _ t Ht Hr).
    + rewrite (main_setup_reload args w config f (Some s) (e + 1)) in Hsetup
        by (by rewrite ?Hforce, ?Htry, ?Ho).
      destruct (reload_state f (Some s) config args w) as [r|] eqn:Hr;
        simpl in Hsetup; [|discriminate].
      injection Hsetup as <-. simpl.
      rewrite (reload_state_optimizer _ _ _ _ _ _ t Ht Hr).
      split; [done|]. split; [done|]. by destruct s.
    + unfold main_setup in Hsetup. rewrite Hcfg, Hforce, Htry in Hsetup.
      discriminate.
  - intros s m.
    rewrite (main_setup_reload args (with_checkpoint w f (OptSaved s)) config
               f (Some s) (e + 1));
      [|done|by rewrite Hforce, (try_to_resume_stored _ f e)].
    rewrite (main_setup_reload args (with_checkpoint w f OptAbsent) config
               f None (e + 1));
      [|done|by rewrite Hforce, (try_to_resume_stored _ f e)].
    rewrite (reload_state_cold f s config args _ t Ht).
    destruct (reload_state f (Some s) config args
                (with_checkpoint w f OptAbsent)) as [r|] eqn:Hr.
    + change (reload_state f (Some s) config args
                (with_checkpoint w f (OptSaved s)))
        with (reload_state f (Some s) config args
                (with_checkpoint w f OptAbsent)).
      rewrite Hr. simpl. intros [= <-]. eexists. split; [done|].
      by repeat split.
    + change (reload_state f (Some s) config args
                (with_checkpoint w f (OptSaved s)))
        with (reload_state f (Some s) config args
                (with_checkpoint w f OptAbsent)).
      rewrite Hr. discriminate.
Qed.

(** Inside [train] no step writes a checkpoint or completes an epoch. *)
Lemma train_keeps_files k : ∀ bs m e i,
  m_pc m = InTrain e i bs → k ≤ length bs →
  m_pc (exec k m) = InTrain e (i + k) (drop k bs)
  ∧ checkpoint_file (m_world (exec k m)) = checkpoint_file (m_world m)
  ∧ checkpoint_opt (m_world (exec k m)) = checkpoint_opt (m_world m)
  ∧ completed (m_log (exec k m)) = completed (m_log m).
Proof.
  induction k as [|k IH]; intros bs m e i Hpc Hk; simpl.
  - by rewrite Nat.add_0_r, drop_0.
  - destruct bs as [|b bs]; [simpl in Hk; lia|]. unfold step. rewrite Hpc.
    destruct (IH bs (train_on m e i b bs) e (S i)) as (Hp & Hfile & Ho & Hc).
    { unfold train_on. by destruct (train_batch _ _ _ _ _) as [[[? ?] ?] ?]. }
    { simpl in Hk. lia. }
    rewrite Hp, Hfile, Ho, Hc. unfold train_on.
    destruct (train_batch _ _ _ _ _) as [[[? ?] ?] ?]. simpl.
    rewrite completed_app. simpl. rewrite app_nil_r.
    split; [f_equal; lia|done].
Qed.

(** One turn of the loop, with its checkpoint. *)
Lemma epoch_checkpointed m e it :
  m_pc m = LoopHead → next (m_epochs m) = Some (e, it) →
  let nb := length (batches (m_data m) (np_random (m_world m))).1 in
  let trained := exec (nb + 1) m in
  let m' := exec (nb + 2) m in
  (∀ k, k ≤ nb + 1 →
     checkpoint_file (m_world (exec k m)) = checkpoint_file (m_world m)
     ∧ checkpoint_opt (m_world (exec k m)) = checkpoint_opt (m_world m)
     ∧ completed (m_log (exec k m)) = completed (m_log m))
  ∧ m_pc trained = InTrain e nb []
  ∧ m_pc m' = LoopHead
  ∧ m_epochs m' = it
  ∧ m_log m' = m_log m ++ epoch_log e nb
  ∧ last (completed (m_log m')) = Some e
  ∧ stored (m_world m') e (m_model trained) (m_optimizer trained)
  ∧ m_model m' = m_model trained
  ∧ m_optimizer m' = m_optimizer trained.
Proof.
  intros Hpc Hnext.
  pose proof (one_epoch m e it Hpc Hnext) as Hone. cbv zeta in *.
  destruct Hone as (Hpc' & Hit' & Hlog').
  destruct (batches (m_data m) (np_random (m_world m))) as [bs g] eqn:Hbs.
  simpl fst in *.
  set (m1 := goto m (InTrain e 0 bs) it
               (with_random (m_world m) g (torch_random (m_world m)))
               [StartingEpoch e]).
  assert (Hstep : step m = Some m1).
  { unfold step. by rewrite Hpc, Hnext, Hbs. }
  assert (Hm1 : ∀ k, exec (S k) m = exec k m1).
  { intros k. simpl. by rewrite Hstep. }
  assert (Hfiles1 : completed (m_log m1) = completed (m_log m)).
  { subst m1. simpl. rewrite completed_app. simpl. by rewrite app_nil_r. }
  split.
  { intros [|k] Hk; [done|]. rewrite Hm1.
    destruct (train_keeps_files k bs m1 e 0 eq_refl) as (_ & Hfile & Ho & Hc);
      [lia|].
    by rewrite Hfile, Ho, Hc, Hfiles1. }
  assert (Htrained : m_pc (exec (length bs + 1) m) = InTrain e (length bs) []).
  { replace (length bs + 1) with (S (length bs)) by lia. rewrite Hm1.
    destruct (train_keeps_files (length bs) bs m1 e 0 eq_refl) as (Hp & _);
      [lia|].
    by rewrite Hp, drop_all. }
  split; [done|].
  destruct (step_end_of_epoch _ e _ Htrained)
    as (m3 & Hstep3 & _ & Hmodel & Hopt & _ & _ & Hst).
  assert (Hk : exec (length bs + 2) m = m3).
  { replace (length bs + 2) with (length bs + 1 + 1) by lia.
    rewrite exec_add. simpl. by rewrite Hstep3. }
  split; [done|]. split; [done|]. split; [done|]. split.
  { rewrite Hlog', completed_app, completed_epoch_log. apply last_snoc. }
  rewrite Hk. by repeat split.
Qed.

(** The loop over a range that is not empty, to its return. *)
Lemma run_to_end m a N :
  m_pc m = LoopHead → m_epochs m = range a N → (a < N)%Z →
  ∃ k, m_pc (exec k m) = Returned
       ∧ completed (m_log (exec k m)) = completed (m_log m) ++ seqZ a (N - a)
       ∧ stored (m_world (exec k m)) (N - 1) (m_model (exec k m))
           (m_optimizer (exec k m)).
Proof.
  intros Hpc Hit Hlt.
  destruct (run_loop (Z.to_nat (N - a) - 1) m a N Hpc Hit Hlt)
    as (k1 & Hr1 & Hst); [lia|].
  destruct (run_range _ m a N Hpc Hit eq_refl) as (k2 & Hr2 & _ & Hc).
  assert (Hsame : exec k1 m = exec k2 m).
  { rewrite <- (exec_returned k2 (exec k1 m)) by done.
    rewrite <- exec_add, Nat.add_comm, exec_add.
    by apply exec_returned. }
  exists k1. split; [done|]. split; [by rewrite Hsame|done].
Qed.

(** C9.  At every point [m] that a run of [main] reaches: if the last
    completed epoch is [e], the folder holds the checkpoint of epoch [e],
    and between two epochs this checkpoint is the one of the model
    weights and of the optimizer state in memory.  The step that ends an
    epoch writes, as one step, the weights, the optimizer state and the
    epoch number of the epoch just completed; no other step changes the
    checkpoint files or completes an epoch.  The run goes on from [m] as
    [main] does with more steps; and at the head of the loop with an
    epoch [e] to run, the steps of [train], one per batch, leave the
    checkpoint files as they are, the next step checkpoints: the loop is
    back at its head, epoch [e] is the last completed one and the folder
    holds epoch [e] with the weights and the optimizer state that the
    training of the epoch ended with, which are those in memory.  Over a
    range of epochs that is not empty the loop ends with the checkpoint
    of the last epoch of the range. *)
Theorem checkpoint_after_every_epoch (fuel : nat) (args : Args) (w : World)
    (m : Machine) :
  main fuel args w = Ok m →
  (∀ e, last (completed (m_log m)) = Some e →
        (∃ model optimizer, stored (m_world m) e model optimizer)
        ∧ (between_epochs m →
             stored (m_world m) e (m_model m) (m_optimizer m)))
  ∧ (∀ e i, m_pc m = InTrain e i [] →
       ∃ m', step m = Some m'
             ∧ m_pc m' = LoopHead
             ∧ m_log m' = m_log m ++ [EndOfEpoch e]
             ∧ stored (m_world m') e (m_model m) (m_optimizer m))
  ∧ (∀ m', step m = Some m' → (∀ e i, m_pc m ≠ InTrain e i []) →
       checkpoint_file (m_world m') = checkpoint_file (m_world m)
       ∧ checkpoint_opt (m_world m') = checkpoint_opt (m_world m)
       ∧ completed (m_log m') = completed (m_log m))
  ∧ (∀ k, main (fuel + k) args w = Ok (exec k m))
  ∧ (∀ e it, m_pc m = LoopHead → next (m_epochs m) = Some (e, it) →
       let nb := length (batches (m_data m) (np_random (m_world m))).1 in
       let trained := exec (nb + 1) m in
       let m' := exec (nb + 2) m in
       (∀ k, k ≤ nb + 1 →
          checkpoint_file (m_world (exec k m)) = checkpoint_file (m_world m)
          ∧ checkpoint_opt (m_world (exec k m)) = checkpoint_opt (m_world m)
          ∧ completed (m_log (exec k m)) = completed (m_log m))
       ∧ m_pc trained = InTrain e nb []
       ∧ m_pc m' = LoopHead
       ∧ m_epochs m' = it
       ∧ m_log m' = m_log m ++ epoch_log e nb
       ∧ last (completed (m_log m')) = Some e
       ∧ stored (m_world m') e (m_model trained) (m_optimizer trained)
       ∧ m_model m' = m_model trained
       ∧ m_optimizer m' = m_optimizer trained)
  ∧ (∀ a N, m_pc m = LoopHead → m_epochs m = range a N → (a < N)%Z →
       ∃ k, m_pc (exec k m) = Returned
            ∧ completed (m_log (exec k m))
                = completed (m_log m) ++ seqZ a (N - a)
            ∧ stored (m_world (exec k m)) (N - 1) (m_model (exec k m))
                (m_optimizer (exec k m))).
Proof.
  intros Hmain. split; [by eapply main_checkpoint_inv|]. split.
  { intros e i Hpc.
    destruct (step_end_of_epoch m e i Hpc)
      as (m' & Hs & Hp & _ & _ & _ & Hl & Hst).
    by exists m'. }
  split.
  { intros m' Hstep Hnot.
    by destruct (step_keeps_checkpoint m m' Hstep Hnot) as (? & ? & ? & _). }
  split.
  { intros k. unfold main in *.
    destruct (main_setup args w) as [m0|]; simpl in *; [|discriminate].
    injection Hmain as <-. by rewrite exec_add. }
  split.
  - intros e it. apply epoch_checkpointed.
  - intros a N. apply run_to_end.
Qed.

End EndToEnd.

Lemma resume_starts_after_stored_epoch_witness :
  ∃ m_prev f m0,
    Toy.first_run = Ok m_prev
    ∧ last (completed (Train.m_log m_prev)) = Some 1%Z
    ∧ checkpoint_file Toy.reopened_world = Some f
    ∧ checkpoint_file Toy.reopened_world
      = checkpoint_file (Train.m_world m_prev)
    ∧ f !! "training/epoch" = Some (H5Scalar 1)
    ∧ Train.main_setup Toy.plain_args Toy.reopened_world = Ok m0
    ∧ Train.m_epochs m0 = Train.range (1 + 1) 4
    ∧ runs_first m0 (1 + 1).
Proof.
  destruct (returns_Ok Toy.first_run) as [m_prev Hprev];
    [vm_compute; reflexivity|].
  assert (Hlast : last (completed (Train.m_log m_prev)) = Some 1%Z).
  { assert (H : (fun m => last (completed (Train.m_log m))) <$> Toy.first_run
                = Ok (Some 1%Z)) by (vm_compute; reflexivity).
    rewrite Hprev in H. simpl in H. injection H as H. exact H. }
  assert (Hsame : checkpoint_file Toy.reopened_world
                  = checkpoint_file (Train.m_world m_prev)).
  { unfold Toy.reopened_world, Toy.left_world. rewrite Hprev. reflexivity. }
  destruct (main_checkpoint_inv 50 Toy.plain_args (Toy.fresh_world (Some 2%Z))
              m_prev Hprev 1%Z Hlast)
    as [(model & opt & f & Hfile & Hepoch & _) _].
  assert (Hw : checkpoint_file Toy.reopened_world = Some f).
  { rewrite Hsame. exact Hfile. }
  destruct (returns_Ok (Train.main_setup Toy.plain_args Toy.reopened_world))
    as [m0 Hm0]; [vm_compute; reflexivity|].
  destruct (resume_starts_after_stored_epoch Toy.plain_args Toy.reopened_world
              f 1%Z eq_refl Hw Hepoch) as (_ & _ & Hloop & Hstored).
  destruct (Hloop m0 (Toy.config_for (Some 4%Z) (Some 2)) Hm0 eq_refl)
    as (_ & _ & Hit & Hfirst).
  pose proof (Hstored 50 Toy.plain_args (Toy.fresh_world (Some 2%Z)) m_prev
                1%Z Hprev Hlast Hsame) as _.
  exists m_prev, f, m0.
  split; [exact Hprev|]. split; [exact Hlast|]. split; [exact Hw|].
  split; [exact Hsame|]. split; [exact Hepoch|]. split; [exact Hm0|].
  split; [exact Hit|exact Hfirst].
Defined.

(** The claim of C3 fails on the folder that a fresh run leaves when it
    is stopped before its first checkpoint: [main] has created the
    checkpoint file and saved the two vocabularies in it before the
    first epoch, and no optimizer file is there.  On this folder, with a
    checkpoint file and without an optimizer file, [try_to_resume] raises
    [KeyError] when it reads the epoch, and so does every later run. *)
Lemma resume_before_first_checkpoint_raises :
  returns Toy.stopped_run = true
  ∧ (train_steps ∘ Train.m_log) <$> Toy.stopped_run = Ok 1
  ∧ bool_decide (is_Some (checkpoint_file Toy.stopped_world)) = true
  ∧ h5py_File Toy.stopped_world !! "vocab" = Some (H5Vocab Toy.vocabulary)
  ∧ checkpoint_opt Toy.stopped_world = OptAbsent
  ∧ Train.try_to_resume false Toy.stopped_world = Raise KeyError
  ∧ ∀ fuel, Train.main fuel Toy.plain_args Toy.stopped_world = Raise KeyError.
Proof.
  split; [vm_compute; reflexivity|]. split; [vm_compute; reflexivity|].
  split; [vm_compute; reflexivity|]. split; [vm_compute; reflexivity|].
  split; [vm_compute; reflexivity|]. split; [vm_compute; reflexivity|].
  intros fuel. apply main_raises. vm_compute. reflexivity.
Qed.

Lemma missing_optimizer_file_is_tolerated_witness :
  ∃ m m2,
    Toy.trained_checkpoint !! "training/epoch" = Some (H5Scalar 1)
    ∧ Train.try_to_resume false Toy.world_without_opt
      = Ok (Some Toy.trained_checkpoint, None, (1 + 1)%Z)
    ∧ Train.main_setup Toy.plain_args Toy.world_without_opt = Ok m
    ∧ Train.m_optimizer m = new_optimizer (Toy.training_for (Some 4%Z) (Some 2))
    ∧ opt_state (Train.m_optimizer m) = 0
    ∧ Train.main_setup Toy.plain_args Toy.extended_world = Ok m2
    ∧ Train.m_optimizer m2
      = load_state_dict (new_optimizer (Toy.training_for (Some 4%Z) (Some 2)))
          Toy.trained_state
    ∧ state_dict (Train.m_optimizer m2) = Toy.trained_state.
Proof.
  assert (Hepoch : Toy.trained_checkpoint !! "training/epoch"
                   = Some (@H5Scalar Toy.toy 1)) by (vm_compute; reflexivity).
  destruct (returns_Ok (Train.main_setup Toy.plain_args Toy.world_without_opt))
    as [m Hm]; [vm_compute; reflexivity|].
  destruct (returns_Ok (Train.main_setup Toy.plain_args Toy.extended_world))
    as [m2 Hm2]; [vm_compute; reflexivity|].
  destruct (missing_optimizer_file_is_tolerated Toy.world_without_opt
              Toy.trained_checkpoint 1%Z
              (Toy.config_for (Some 4%Z) (Some 2))
              (Toy.training_for (Some 4%Z) (Some 2))
              (@Build_BidafModel Toy.toy [] 0%Z false true)
              Toy.plain_args eq_refl Hepoch eq_refl)
    as (Htry & _ & _ & _ & _ & _ & _ & Hrun).
  destruct (Hrun eq_refl eq_refl) as [Hcold _].
  destruct (Hcold m Hm) as [_ [Hopt Hempty]].
  destruct (missing_optimizer_file_is_tolerated Toy.extended_world
              Toy.trained_checkpoint 1%Z
              (Toy.config_for (Some 4%Z) (Some 2))
              (Toy.training_for (Some 4%Z) (Some 2))
              (@Build_BidafModel Toy.toy [] 0%Z false true)
              Toy.plain_args eq_refl Hepoch eq_refl)
    as (_ & _ & _ & _ & _ & _ & _ & Hrun2).
  destruct (Hrun2 eq_refl eq_refl) as [Hwarm _].
  destruct (Hwarm m2 Hm2) as [_ [Hopt2 Hstate2]].
  exists m, m2.
  split; [exact Hepoch|]. split; [exact (Htry eq_refl)|].
  split; [exact Hm|]. split; [exact Hopt|]. split; [exact Hempty|].
  split; [exact Hm2|]. split; [exact Hopt2|exact Hstate2].
Defined.

Lemma checkpoint_after_every_epoch_witness :
  ∃ m0 m,
    Train.main 0 Toy.plain_args (Toy.fresh_world (Some 2%Z)) = Ok m0
    ∧ Train.m_pc m0 = Train.LoopHead
    ∧ Train.next (Train.m_epochs m0) = Some (0%Z, Train.range 1 2)
    ∧ (let nb := length (Dataset.batches (Train.m_data m0)
                           (np_random (Train.m_world m0))).1 in
       let m' := Train.exec (nb + 2) m0 in
       Train.main (0 + (nb + 2)) Toy.plain_args (Toy.fresh_world (Some 2%Z))
         = Ok m'
       ∧ last (completed (Train.m_log m')) = Some 0%Z
       ∧ stored (Train.m_world m') 0 (Train.m_model m')
           (Train.m_optimizer m'))
    ∧ Train.main 50 Toy.plain_args (Toy.fresh_world (Some 2%Z)) = Ok m
    ∧ last (completed (Train.m_log m)) = Some 1%Z
    ∧ between_epochs m
    ∧ stored (Train.m_world m) 1 (Train.m_model m) (Train.m_optimizer m).
Proof.
  destruct (returns_Ok
              (Train.main 0 Toy.plain_args (Toy.fresh_world (Some 2%Z))))
    as [m0 Hm0]; [vm_compute; reflexivity|].
  destruct (returns_Ok
              (Train.main 50 Toy.plain_args (Toy.fresh_world (Some 2%Z))))
    as [m Hm]; [vm_compute; reflexivity|].
  assert (Hpc0 : Train.m_pc m0 = Train.LoopHead).
  { assert (H : Train.m_pc
                  <$> Train.main 0 Toy.plain_args (Toy.fresh_world (Some 2%Z))
                = Ok Train.LoopHead) by (vm_compute; reflexivity).
    rewrite Hm0 in H. simpl in H. injection H as H. exact H. }
  assert (Hnext0 : Train.next (Train.m_epochs m0)
                   = Some (0%Z, Train.range 1 2)).
  { assert (H : (fun m => Train.next (Train.m_epochs m))
                  <$> Train.main 0 Toy.plain_args (Toy.fresh_world (Some 2%Z))
                = Ok (Some (0%Z, Train.range 1 2))) by (vm_compute; reflexivity).
    rewrite Hm0 in H. simpl in H. injection H as H. exact H. }
  assert (Hlast : last (completed (Train.m_log m)) = Some 1%Z).
  { assert (H : (fun m => last (completed (Train.m_log m)))
                  <$> Train.main 50 Toy.plain_args (Toy.fresh_world (Some 2%Z))
                = Ok (Some 1%Z)) by (vm_compute; reflexivity).
    rewrite Hm in H. simpl in H. injection H as H. exact H. }
  assert (Hpc : Train.m_pc m = Train.Returned).
  { assert (H : Train.m_pc
                  <$> Train.main 50 Toy.plain_args (Toy.fresh_world (Some 2%Z))
                = Ok Train.Returned) by (vm_compute; reflexivity).
    rewrite Hm in H. simpl in H. injection H as H. exact H. }
  destruct (checkpoint_after_every_epoch 0 Toy.plain_args
              (Toy.fresh_world (Some 2%Z)) m0 Hm0)
    as (_ & _ & _ & Hmore & Hepoch & _).
  destruct (Hepoch 0%Z (Train.range 1 2) Hpc0 Hnext0)
    as (_ & _ & _ & _ & _ & Hlast0 & Hst0 & Hmodel0 & Hopt0).
  destruct (checkpoint_after_every_epoch 50 Toy.plain_args
              (Toy.fresh_world (Some 2%Z)) m Hm) as (Hinv & _).
  destruct (Hinv 1%Z Hlast) as [_ Hst].
  exists m0, m.
  split; [exact Hm0|]. split; [exact Hpc0|]. split; [exact Hnext0|].
  split.
  { split; [apply Hmore|]. split; [exact Hlast0|].
    rewrite Hmodel0, Hopt0. exact Hst0. }
  split; [exact Hm|]. split; [exact Hlast|].
  split; [right; exact Hpc|]. apply Hst. right. exact Hpc.
Defined.
